(** * match_minima.py: conformer matching and relative energetics

    A shallow embedding of [src/03_analysis/match_minima.py] and the
    properties of its core: [get_sd_list], [compare_two_mols],
    [match_minima], [extract_matches], [calc_rel_ene] and
    [calc_rms_error].  The last parts embed the two readers,
    [read_mols] with its slice and [read_check_input], and follow the
    computation of [main] from the matching to the RMS errors.

    Modelling choices.
    - Python [float]s and numpy [float64]s are IEEE 754 binary64 values:
      they are Rocq's primitive [float]s, [np.nan] is [nan], and the
      comparisons [<], [<=], [==] are [ltb], [leb], [eqb].
    - A Python [str] is a string of characters below 256, each the
      code point of its character: [lower], [strip] and the test for
      white space are Python's on these characters.
    - [np.sum] and [np.mean] add as numpy does on a one-dimensional
      array of [float64]: one by one below 8 items, by eight partial
      sums from 8 items on, by halves above 128 items.
    - Python exceptions are the [Raise] results of an error monad; only
      the kinds the core can raise exist.
    - A conformer index is what the code stores: [None], or an integer
      ([-2] molecule absent, [-1] self reference, otherwise a position),
      that is an [option Z].
    - The OpenEye toolkit is outside the repository: the RMSD oracle
      [OERMSD], the reading of a structure file [read_mols] and Python's
      [float()] parser are parameters of the development.
    - A generator ([mols_query]) is the list of the items it has not
      yielded yet. *)

From Stdlib Require Import String Ascii.
From Stdlib Require Import ZArith List Sorted Bool Arith Lia Floats.
From Stdlib Require Uint63.
Import ListNotations.

Set Implicit Arguments.

(** ** The Python runtime: exceptions, indexing, builtins *)

Module Py.

Inductive exn : Type := ValueError | IndexError | KeyError.

Inductive result (A : Type) : Type :=
| Ok (a : A)
| Raise (e : exn).

Arguments Ok {A} a.
Arguments Raise {A} e.

Definition bind {A B} (c : result A) (k : A -> result B) : result B :=
  match c with
  | Ok a => k a
  | Raise e => Raise e
  end.

(** A [for] loop (or comprehension) whose body may raise: the first
    exception ends it. *)
Fixpoint mapM {A B} (f : A -> result B) (l : list A) : result (list B) :=
  match l with
  | [] => Ok []
  | a :: l' =>
      bind (f a) (fun b => bind (mapM f l') (fun bs => Ok (b :: bs)))
  end.

(** A loop that threads a state through a body that may raise. *)
Fixpoint foldM {A S} (f : S -> A -> result S) (l : list A) (s : S) : result S :=
  match l with
  | [] => Ok s
  | a :: l' => bind (f s a) (foldM f l')
  end.

(** [enumerate(l)] *)
Definition enumerate {A} (l : list A) : list (nat * A) :=
  combine (seq 0 (length l)) l.

(** [l[j]] for a position [j >= 0]. *)
Definition get {A} (l : list A) (j : nat) : result A :=
  match nth_error l j with
  | Some a => Ok a
  | None => Raise IndexError
  end.

(** [l[i]] for any integer [i]: a negative index counts from the end. *)
Definition getitem {A} (l : list A) (i : Z) : result A :=
  let n := Z.of_nat (length l) in
  if (0 <=? i)%Z then get l (Z.to_nat i)
  else if (- n <=? i)%Z then get l (Z.to_nat (n + i))
  else Raise IndexError.

(** [min(l)]: the first item is kept until a later one is [<] it. *)
Definition min {A} (lt : A -> A -> bool) (l : list A) : result A :=
  match l with
  | [] => Raise ValueError
  | x :: xs => Ok (fold_left (fun m y => if lt y m then y else m) xs x)
  end.

(** [l.index(v)]: the first position holding [v]. *)
Fixpoint index {A} (eqb : A -> A -> bool) (v : A) (l : list A) : result nat :=
  match l with
  | [] => Raise ValueError
  | x :: l' => if eqb x v then Ok 0 else bind (index eqb v l') (fun k => Ok (S k))
  end.

(** [c in s] on strings: [c] occurs in [s] as a substring. *)
Fixpoint contains (c s : string) : bool :=
  if String.prefix c s then true
  else match s with
       | EmptyString => false
       | String _ s' => contains c s'
       end.

(** The lower case of a character below 256: the capitals are [A] to
    [Z] (65 to 90) and the accented capitals 192 to 222 without the
    multiplication sign 215; each has its small letter 32 further. *)
Definition lower_char (a : ascii) : ascii :=
  let n := nat_of_ascii a in
  if ((65 <=? n) && (n <=? 90)) || ((192 <=? n) && (n <=? 222) && negb (n =? 215))
  then ascii_of_nat (n + 32) else a.

(** [s.lower()]: every cased character is lowered. *)
Fixpoint lower (s : string) : string :=
  match s with
  | EmptyString => EmptyString
  | String a s' => String (lower_char a) (lower s')
  end.

End Py.

Import Py.

Declare Scope py_scope.
Notation "x <- c ;; k" := (Py.bind c (fun x => k))
  (at level 61, c at next level, right associativity) : py_scope.
Open Scope py_scope.

(** ** The numpy operations the program calls *)

Module Np.

(** The number of items of an array, as the [float64] a mean divides by
    (an array has fewer than [2^63] items). *)
Definition float_of_count (n : nat) : float :=
  of_uint63 (Uint63.of_Z (Z.of_nat n)).

(** [a - b] on one-dimensional arrays, with numpy's broadcasting of an
    array of one item. *)
Definition sub (a b : list float) : result (list float) :=
  if length a =? length b then Ok (map (fun p => (fst p - snd p)%float) (combine a b))
  else match a, b with
       | [x], _ => Ok (map (fun y => (x - y)%float) b)
       | _, [y] => Ok (map (fun x => (x - y)%float) a)
       | _, _ => Raise ValueError
       end.

(** [a ** 2.]: numpy squares each item. *)
Definition square (a : list float) : list float :=
  map (fun x => (x * x)%float) a.

(** [np.delete(a, z)] for a position [z >= 0]. *)
Definition delete (a : list float) (z : nat) : result (list float) :=
  if z <? length a then Ok (firstn z a ++ skipn (S z) a) else Raise IndexError.

(** [a[~np.isnan(a)]] *)
Definition drop_nan (a : list float) : list float :=
  filter (fun x => negb (is_nan x)) a.

(** The inner loop of numpy's sum on an array of at most 128 items.
    With 8 items or more it keeps eight partial sums [r0] to [r7], the
    sums of the items at the positions 0, 8, 16, ... to 7, 15, 23, ...
    over the whole blocks of eight, adds them as a tree and then adds
    the items left, fewer than eight, one by one. *)
Fixpoint accumulate (r0 r1 r2 r3 r4 r5 r6 r7 : float) (a : list float) : float :=
  match a with
  | x0 :: x1 :: x2 :: x3 :: x4 :: x5 :: x6 :: x7 :: a' =>
      accumulate (r0 + x0) (r1 + x1) (r2 + x2) (r3 + x3)
                 (r4 + x4) (r5 + x5) (r6 + x6) (r7 + x7) a'
  | _ =>
      fold_left (fun res x => (res + x)%float) a
                (((r0 + r1) + (r2 + r3)) + ((r4 + r5) + (r6 + r7)))%float
  end.

(** Fewer than 8 items are added one by one to [start], a zero. *)
Definition block_sum (start : float) (a : list float) : float :=
  match a with
  | x0 :: x1 :: x2 :: x3 :: x4 :: x5 :: x6 :: x7 :: a' =>
      accumulate x0 x1 x2 x3 x4 x5 x6 x7 a'
  | _ => fold_left (fun res x => (res + x)%float) a start
  end.

(** numpy's pairwise sum of [n] items: above 128 items the array is cut
    at [n / 2] rounded down to a multiple of 8 and the sums of the two
    parts are added.  A part is shorter than the whole, so [fuel] at
    least the number of items is never used up ([pairwise_sum_fuel]). *)
Fixpoint pairwise_sum (start : float) (fuel : nat) (a : list float) : float :=
  let n := length a in
  if n <=? 128 then block_sum start a
  else
    match fuel with
    | 0 => block_sum start a
    | S fuel' =>
        let n2 := n / 2 - (n / 2) mod 8 in
        (pairwise_sum start fuel' (firstn n2 a)
         + pairwise_sum start fuel' (skipn n2 a))%float
    end.

(** The reduction of a one-dimensional array of [float64] by addition:
    it starts from [init], a zero, and adds the pairwise sum of the
    items to it. *)
Definition sum_from (init start : float) (a : list float) : float :=
  (init + pairwise_sum start (length a) a)%float.

(** [np.sum(a)]: the zeros are 0.  A reduction that starts from -0, to
    keep the sign of a sum of negative zeros, gives the same sum of
    squares and the same mean of squares, which is all this program
    sums ([SumStart.sum_from_squares], [SumStart.mean_from_squares]). *)
Definition sum (a : list float) : float := sum_from 0 0 a.

(** [np.mean(a)]: the sum over the number of items; [nan] on no item. *)
Definition mean (a : list float) : float :=
  (sum a / float_of_count (length a))%float.

(** [sum(np.isnan(l))] *)
Definition count_nan (l : list float) : nat :=
  length (filter is_nan l).

(** [np.where(np.asarray(a) == v)[0]] *)
Definition where_eq (a : list nat) (v : nat) : list nat :=
  map fst (filter (fun p => snd p =? v) (enumerate a)).

(** [np.take(a, inds)] *)
Definition take (a : list float) (inds : list nat) : result (list float) :=
  mapM (get a) inds.

(** The scan of [np.argmin] after its first item: [mp] is the least item
    so far, at [min_ind]; a [nan] is taken as least and ends the scan. *)
Fixpoint argmin_scan (mp : float) (min_ind i : nat) (l : list float) : nat :=
  match l with
  | [] => min_ind
  | x :: l' =>
      if negb (mp <=? x)%float
      then (if is_nan x then i else argmin_scan x i (S i) l')
      else argmin_scan mp min_ind (S i) l'
  end.

(** [np.argmin(a)] *)
Definition argmin (a : list float) : result nat :=
  match a with
  | [] => Raise ValueError
  | x :: l => if is_nan x then Ok 0 else Ok (argmin_scan x 0 1 l)
  end.

End Np.

(** ** The molecule dictionary

    [mol_dict] maps a title to its lists; a Python [dict] keeps the order
    in which keys were first set, and [main] relies on it, so it is an
    association list with one pair per key. *)

Record MolEntry : Type := {
  energies : list (list float);
  indices : list (list (option Z));
  ref_nconfs : list nat;
  (** the key [extract_matches] adds *)
  energies_matched : option (list (list float))
}.

Definition new_entry : MolEntry :=
  {| energies := []; indices := []; ref_nconfs := []; energies_matched := None |}.

Definition mol_dict : Type := list (string * MolEntry).

(** [k in d] *)
Fixpoint dict_mem (k : string) (d : mol_dict) : bool :=
  match d with
  | [] => false
  | (k', _) :: d' => String.eqb k k' || dict_mem k d'
  end.

(** [d[k]] *)
Fixpoint dict_get (k : string) (d : mol_dict) : option MolEntry :=
  match d with
  | [] => None
  | (k', e) :: d' => if String.eqb k k' then Some e else dict_get k d'
  end.

(** A mutation [f] of the value at a present key [k]. *)
Fixpoint dict_update (k : string) (f : MolEntry -> MolEntry) (d : mol_dict) : mol_dict :=
  match d with
  | [] => []
  | (k', e) :: d' =>
      if String.eqb k k' then (k', f e) :: d' else (k', e) :: dict_update k f d'
  end.

(** [if k not in d: d[k] = new_entry] *)
Definition dict_setdefault (k : string) (d : mol_dict) : mol_dict :=
  if dict_mem k d then d else d ++ [(k, new_entry)].

Definition append_indices (row : list (option Z)) (e : MolEntry) : MolEntry :=
  {| energies := energies e; indices := indices e ++ [row];
     ref_nconfs := ref_nconfs e; energies_matched := energies_matched e |}.

Definition append_energies (row : list float) (e : MolEntry) : MolEntry :=
  {| energies := energies e ++ [row]; indices := indices e;
     ref_nconfs := ref_nconfs e; energies_matched := energies_matched e |}.

Definition append_ref_nconfs (n : nat) (e : MolEntry) : MolEntry :=
  {| energies := energies e; indices := indices e;
     ref_nconfs := ref_nconfs e ++ [n]; energies_matched := energies_matched e |}.

(** One line of the input file: [in_dict[label] = {'sdfile', 'sdtag'}]. *)
Record Method : Type := {
  sdfile : string;
  sdtag : string
}.

(** ** The program *)

Section MatchMinima.

(** What a conformer holds besides its SD data: coordinates, atoms. *)
Variable Geom : Type.

Record Conf : Type := {
  geom : Geom;
  (** [oechem.OEGetSDDataPairs(conf)]: the (tag, value) pairs, in order *)
  sd_pairs : list (string * string)
}.

(** An [OEMol]: a title and its conformers, [mol.GetConfs()]. *)
Record Mol : Type := {
  title : string;
  confs : list Conf
}.

(** [oechem.OERMSD(ref_conf, que_conf, automorph, heavyOnly, overlay)] *)
Variable OERMSD : Geom -> Geom -> bool -> bool -> bool -> float.

(** [read_mols(infile)] without a slice: the molecules of the file. *)
Variable read_mols : string -> list Mol.

(** Python's [float(s)] on a string: the parsed number, or [ValueError]. *)
Variable py_float : string -> result float.

(** *** get_sd_list *)

Definition tag_matches (taglabel : string) (x : string * string) : bool :=
  contains (lower taglabel) (lower (fst x)).

(** The inner loop: the value of the first pair whose tag matches, there
    the [break]; nothing is appended when no pair matches. *)
Definition conf_sd (taglabel : string) (conf : Conf) : list string :=
  match find (tag_matches taglabel) (sd_pairs conf) with
  | Some x => [snd x]
  | None => []
  end.

Definition get_sd_list (mol : Mol) (taglabel : string) : list string :=
  flat_map (conf_sd taglabel) (confs mol).

(** *** compare_two_mols *)

Definition automorph : bool := true.
Definition heavyOnly : bool := false.
Definition overlay : bool := true.

(** [[i for i, j in enumerate(l) if j == min(l)][0]]: [min(l)] is
    evaluated at each item, so never on an empty [l]. *)
Definition lowest_rmsd_index (thisR_allQ : list float) : result nat :=
  hits <- mapM (fun p : nat * float =>
                  m <- Py.min PrimFloat.ltb thisR_allQ ;;
                  Ok (if (snd p =? m)%float then [fst p] else []))
               (enumerate thisR_allQ) ;;
  get (concat hits) 0.

(** The body of the loop over the reference conformers. *)
Definition match_conf (qmol : Mol) (rmsd_cutoff : float) (ref_conf : Conf)
  : result (option Z) :=
  let thisR_allQ :=
    map (fun que_conf => OERMSD (geom ref_conf) (geom que_conf) automorph heavyOnly overlay)
        (confs qmol) in
  k <- lowest_rmsd_index thisR_allQ ;;
  d <- get thisR_allQ k ;;
  Ok (if (d <=? rmsd_cutoff)%float then Some (Z.of_nat k) else None).

Definition compare_two_mols (rmol qmol : Mol) (rmsd_cutoff : float)
  : result (list (option Z)) :=
  mapM (match_conf qmol rmsd_cutoff) (confs rmol).

(** *** match_minima *)

(** [for qmol in mols_query: if rmol.GetTitle() == qmol.GetTitle(): break]
    on the generator [mols_query]: the molecule found, if any, and what
    the generator has left to yield. *)
Fixpoint scan_query (mol_name : string) (mols_query : list Mol)
  : option Mol * list Mol :=
  match mols_query with
  | [] => (None, [])
  | qmol :: rest =>
      if String.eqb mol_name (title qmol) then (Some qmol, rest)
      else scan_query mol_name rest
  end.

(** The body of the loop over the reference molecules, on the state
    ([mol_dict], [mols_query]). *)
Definition match_rmol (sdf_ref sdf_query sdf_tag : string) (rmsd_cutoff : float)
  (st : mol_dict * list Mol) (rmol : Mol) : result (mol_dict * list Mol) :=
  let mol_name := title rmol in
  let n := length (confs rmol) in
  let (found, mols_query) := scan_query mol_name (snd st) in
  let d := dict_setdefault mol_name (fst st) in
  match found with
  | None =>
      let d := dict_update mol_name (append_indices (repeat (Some (-2)%Z) n)) d in
      let d := dict_update mol_name (append_energies (repeat nan n)) d in
      let d := dict_update mol_name (append_ref_nconfs n) d in
      Ok (d, read_mols sdf_query)
  | Some qmol =>
      enes <- mapM py_float (get_sd_list qmol sdf_tag) ;;
      let d := dict_update mol_name (append_energies enes) d in
      if String.eqb sdf_query sdf_ref
      then Ok (dict_update mol_name (append_indices (repeat (Some (-1)%Z) n)) d, mols_query)
      else
        molIndices <- compare_two_mols rmol qmol rmsd_cutoff ;;
        Ok (dict_update mol_name (append_indices molIndices) d, mols_query)
  end.

(** The body of the loop over the methods. *)
Definition match_method (sdf_ref : string) (rmsd_cutoff : float)
  (d : mol_dict) (ff : string * Method) : result mol_dict :=
  let sdf_query := sdfile (snd ff) in
  let sdf_tag := sdtag (snd ff) in
  let mols_ref := read_mols sdf_ref in
  let mols_query := read_mols sdf_query in
  st <- foldM (match_rmol sdf_ref sdf_query sdf_tag rmsd_cutoff) mols_ref (d, mols_query) ;;
  Ok (fst st).

Definition match_minima (in_dict : list (string * Method)) (rmsd_cutoff : float)
  : result mol_dict :=
  ref <- get in_dict 0 ;;
  foldM (match_method (sdfile (snd ref)) rmsd_cutoff) in_dict [].

End MatchMinima.

(** *** extract_matches *)

(** The chain of tests on one [conf_index], at conformer [j] of file [i]. *)
Definition extract_conf (energy_array : list (list float)) (i j : nat)
  (conf_index : option Z) : result float :=
  match conf_index with
  | None => Ok nan
  | Some c =>
      if (c =? -2)%Z then Ok nan
      else
        row <- get energy_array i ;;
        if length row =? 0 then Ok nan
        else if (c =? -1)%Z then getitem row (Z.of_nat j)
        else getitem row c
  end.

(** The loop over the conformer indices of file [i]: [fileData]. *)
Definition extract_file (energy_array : list (list float)) (i : nat)
  (file_indices : list (option Z)) : result (list float) :=
  mapM (fun p => extract_conf energy_array i (fst p) (snd p)) (enumerate file_indices).

(** The body of the loop over the molecules: the entry with its new key. *)
Definition extract_mol (e : MolEntry) : result MolEntry :=
  updated <- mapM (fun p => extract_file (energies e) (fst p) (snd p))
                  (enumerate (indices e)) ;;
  Ok {| energies := energies e; indices := indices e;
        ref_nconfs := ref_nconfs e; energies_matched := Some updated |}.

Definition extract_matches (d : mol_dict) : result mol_dict :=
  mapM (fun kv => e <- extract_mol (snd kv) ;; Ok (fst kv, e)) d.

(** *** calc_rel_ene *)

(** [nan_cnt]: per conformer position, the number of files with a [nan]. *)
Definition nan_counts (mol_array : list (list float)) (ref_nconfs : nat)
  : result (list nat) :=
  mapM (fun j =>
          col <- mapM (fun file_enes => get file_enes j) mol_array ;;
          Ok (Np.count_nan col))
       (seq 0 ref_nconfs).

(** The [while no_nan_conf_inds.size == 0 and cnt < ref_nconfs] loop;
    [todo] is [ref_nconfs - cnt], the number of rounds [cnt] allows. *)
Fixpoint scan_counts (nan_cnt : list nat) (todo cnt : nat) (no_nan_conf_inds : list nat)
  : list nat :=
  match no_nan_conf_inds, todo with
  | [], S todo' => scan_counts nan_cnt todo' (S cnt) (Np.where_eq nan_cnt cnt)
  | _, _ => no_nan_conf_inds
  end.

(** The body of the first loop: the index appended to
    [lowest_conf_indices] for one molecule. *)
Definition lowest_conf (mol_array : list (list float)) : result nat :=
  ref_row <- get mol_array 0 ;;
  let ref_nconfs := length ref_row in
  nan_cnt <- nan_counts mol_array ref_nconfs ;;
  let no_nan_conf_inds := scan_counts nan_cnt ref_nconfs 0 [] in
  match no_nan_conf_inds with
  | _ :: _ =>
      leastNanEs <- Np.take ref_row no_nan_conf_inds ;;
      k <- Np.argmin leastNanEs ;;
      get no_nan_conf_inds k
  | [] =>
      m <- Py.min Nat.ltb nan_cnt ;;
      Py.index Nat.eqb m nan_cnt
  end.

(** [[(fileE[i] - fileE[z]) for i in range(len(fileE))]] *)
Definition rel_file (z : nat) (fileE : list float) : result (list float) :=
  mapM (fun i => a <- get fileE i ;; b <- get fileE z ;; Ok (a - b)%float)
       (seq 0 (length fileE)).

Definition calc_rel_ene (matched_enes : list (list (list float)))
  : result (list (list (list float)) * list nat) :=
  lowest_conf_indices <- mapM lowest_conf matched_enes ;;
  rel_energies <- mapM (fun p => mapM (rel_file (fst p)) (snd p))
                       (combine lowest_conf_indices matched_enes) ;;
  Ok (rel_energies, lowest_conf_indices).

(** *** calc_rms_error *)

(** The body of the loop over the files of molecule [i]. *)
Definition rms_file (lowest_conf_indices : list nat) (i : nat)
  (mol_array : list (list float)) (filelist : list float) : result float :=
  ref_row <- get mol_array 0 ;;
  errs <- Np.sub filelist ref_row ;;
  let sqrs := Np.square errs in
  z <- get lowest_conf_indices i ;;
  sqrs <- Np.delete sqrs z ;;
  let sqrs := Np.drop_nan sqrs in
  let mse := Np.mean sqrs in
  Ok (sqrt mse).

Definition calc_rms_error (rel_energies : list (list (list float)))
  (lowest_conf_indices : list nat) : result (list (list float)) :=
  mapM (fun p => mapM (rms_file lowest_conf_indices (fst p) (snd p)) (snd p))
       (enumerate rel_energies).

(** *** main

    What [main] computes between the matching (or the reading of the
    pickle) and the writing of the report. *)

Definition analysis (d : mol_dict)
  : result (list (list (list float)) * list nat * list (list float)) :=
  d <- extract_matches d ;;
  matched_enes <- mapM (fun kv : string * MolEntry =>
                          match energies_matched (snd kv) with
                          | Some updated => Ok updated
                          | None => Raise KeyError
                          end) d ;;
  p <- calc_rel_ene matched_enes ;;
  rms_array <- calc_rms_error (fst p) (snd p) ;;
  Ok (fst p, snd p, rms_array).

(** ** Facts on binary64 arithmetic

    Derived from the specification of the primitive operations on
    [spec_float]: what the proofs below need of [nan], of [x - x], of
    squares, of the divisor of a mean and of the order. *)

Module Fl.

Lemma is_nan_spec (x : float) :
  is_nan x = match Prim2SF x with S754_nan => true | _ => false end.
Proof.
  unfold is_nan. rewrite FloatAxioms.eqb_spec. unfold SFeqb.
  destruct (Prim2SF x) as [s|s| |s m e]; simpl; try reflexivity.
  - destruct s; reflexivity.
  - rewrite Z.compare_refl. destruct s; rewrite Pos.compare_cont_refl; reflexivity.
Qed.

Lemma is_infinity_spec (x : float) :
  is_infinity x = match Prim2SF x with S754_infinity _ => true | _ => false end.
Proof.
  unfold is_infinity. rewrite FloatAxioms.eqb_spec, abs_spec.
  change (Prim2SF infinity) with (S754_infinity false).
  destruct (Prim2SF x) as [s|s| |s m e]; reflexivity.
Qed.

(** *** Rounding never yields [nan], and keeps a positive number positive *)

Lemma shr_1_m (mrs : shr_record) :
  (0 <= shr_m mrs)%Z -> shr_m (shr_1 mrs) = Z.div2 (shr_m mrs).
Proof.
  destruct mrs as [m r s]; simpl. intros H.
  destruct m as [|p|p]; [reflexivity| |lia].
  destruct p; reflexivity.
Qed.

Lemma shr_1_nonneg (mrs : shr_record) :
  (0 <= shr_m mrs)%Z -> (0 <= shr_m (shr_1 mrs))%Z.
Proof. intros H. rewrite shr_1_m by exact H. rewrite Z.div2_nonneg. exact H. Qed.

Lemma iter_shr_1_m (p : positive) : forall mrs : shr_record,
  (0 <= shr_m mrs)%Z ->
  shr_m (iter_pos shr_1 p mrs) = Z.shiftr (shr_m mrs) (Zpos p).
Proof.
  induction p as [p IH|p IH|]; intros mrs H; simpl.
  - pose proof (shr_1_nonneg mrs H) as H1.
    assert (H2 : (0 <= shr_m (iter_pos shr_1 p (shr_1 mrs)))%Z).
    { rewrite IH by exact H1. rewrite Z.shiftr_nonneg. exact H1. }
    rewrite (IH _ H2), (IH _ H1), (shr_1_m mrs H).
    rewrite Z.div2_spec, !Z.shiftr_shiftr by lia. f_equal. lia.
  - assert (H2 : (0 <= shr_m (iter_pos shr_1 p mrs))%Z).
    { rewrite IH by exact H. rewrite Z.shiftr_nonneg. exact H. }
    rewrite (IH _ H2), (IH _ H).
    rewrite Z.shiftr_shiftr by lia. f_equal. lia.
  - rewrite shr_1_m by assumption. apply Z.div2_spec.
Qed.

Lemma shr_record_of_loc_m (m : Z) (l : location) : shr_m (shr_record_of_loc m l) = m.
Proof. destruct l as [|[ | | ]]; reflexivity. Qed.

(** What [shr_fexp] returns: the mantissa shifted right by [k >= 0]. *)
Lemma shr_fexp_m (m e : Z) (l : location) :
  (0 <= m)%Z ->
  let k := Z.max 0 (fexp prec emax (Zdigits2 m + e) - e) in
  shr_m (fst (shr_fexp prec emax m e l)) = Z.shiftr m k /\
  snd (shr_fexp prec emax m e l) = (e + k)%Z.
Proof.
  intros Hm k. unfold shr_fexp, shr. subst k.
  destruct (fexp prec emax (Zdigits2 m + e) - e)%Z as [|p|p] eqn:E; simpl.
  - rewrite shr_record_of_loc_m, Z.shiftr_0_r. split; [reflexivity|lia].
  - rewrite iter_shr_1_m by (rewrite shr_record_of_loc_m; exact Hm).
    rewrite shr_record_of_loc_m. split; reflexivity.
  - rewrite shr_record_of_loc_m. split; [reflexivity|lia].
Qed.

Lemma round_nearest_even_bounds (m : Z) (l : location) :
  (m <= round_nearest_even m l <= m + 1)%Z.
Proof.
  destruct l as [|[ | | ]]; simpl; try lia. destruct (Z.even m); lia.
Qed.

Lemma binary_round_aux_not_nan (s : bool) (m e : Z) (l : location) :
  (0 <= m)%Z -> binary_round_aux prec emax s m e l <> S754_nan.
Proof.
  intros Hm. unfold binary_round_aux.
  destruct (shr_fexp_m e l Hm) as [H1 _].
  destruct (shr_fexp prec emax m e l) as [mrs' e'] eqn:E1. simpl in H1.
  pose proof (round_nearest_even_bounds (shr_m mrs') (loc_of_shr_record mrs')) as B.
  assert (H0 : (0 <= shr_m mrs')%Z) by (rewrite H1, Z.shiftr_nonneg; exact Hm).
  set (m2 := round_nearest_even (shr_m mrs') (loc_of_shr_record mrs')) in *.
  assert (Hm2 : (0 <= m2)%Z) by lia.
  destruct (shr_fexp_m e' loc_Exact Hm2) as [H2 _].
  destruct (shr_fexp prec emax m2 e' loc_Exact) as [mrs'' e''] eqn:E2. simpl in H2.
  assert (H3 : (0 <= shr_m mrs'')%Z) by (rewrite H2, Z.shiftr_nonneg; exact Hm2).
  destruct (shr_m mrs'') as [|q|q]; [discriminate| |lia].
  destruct (e'' <=? emax - prec)%Z; discriminate.
Qed.

Lemma digits2_pos_size (p : positive) : digits2_pos p = Pos.size p.
Proof. induction p; simpl; congruence. Qed.

Lemma Zdigits2_log2 (p : positive) : Zdigits2 (Zpos p) = (Z.log2 (Zpos p) + 1)%Z.
Proof.
  simpl. rewrite digits2_pos_size. destruct p; simpl; lia.
Qed.

Definition positive_sf (s : bool) (x : spec_float) : Prop :=
  match x with
  | S754_finite s' _ _ | S754_infinity s' => s' = s
  | _ => False
  end.

Lemma shiftr_pos (m k : Z) : (0 < m)%Z -> (0 <= k <= Z.log2 m)%Z -> (0 < Z.shiftr m k)%Z.
Proof.
  intros Hm Hk.
  assert (0 <= Z.shiftr m k)%Z by (rewrite Z.shiftr_nonneg; lia).
  assert (Z.shiftr m k <> 0)%Z; [|lia].
  rewrite Z.shiftr_eq_0_iff. lia.
Qed.

Lemma binary_round_aux_positive (s : bool) (m e : Z) (l : location) :
  (0 < m)%Z -> (emin < e + Zdigits2 m)%Z ->
  positive_sf s (binary_round_aux prec emax s m e l).
Proof.
  intros Hm He. unfold binary_round_aux.
  assert (Hm0 : (0 <= m)%Z) by lia.
  destruct (shr_fexp_m e l Hm0) as [H1 H1e].
  destruct (shr_fexp prec emax m e l) as [mrs' e'] eqn:E1. simpl in H1, H1e.
  destruct m as [|p|p]; try lia.
  rewrite Zdigits2_log2 in *.
  set (k1 := Z.max 0 (fexp prec emax (Z.log2 (Z.pos p) + 1 + e) - e)) in *.
  assert (Hk1 : (0 <= k1 <= Z.log2 (Zpos p))%Z).
  { subst k1. unfold fexp, SpecFloat.emin, prec, emax in *.
    pose proof (Z.log2_nonneg (Zpos p)). lia. }
  pose proof (shiftr_pos Hm Hk1) as P1. rewrite <- H1 in P1.
  assert (L1 : Z.log2 (shr_m mrs') = (Z.log2 (Zpos p) - k1)%Z).
  { rewrite H1, Z.log2_shiftr by lia. lia. }
  pose proof (round_nearest_even_bounds (shr_m mrs') (loc_of_shr_record mrs')) as B.
  set (m2 := round_nearest_even (shr_m mrs') (loc_of_shr_record mrs')) in *.
  assert (Hm2 : (0 < m2)%Z) by lia.
  assert (L2 : (Z.log2 (shr_m mrs') <= Z.log2 m2)%Z) by (apply Z.log2_le_mono; lia).
  assert (Hm20 : (0 <= m2)%Z) by lia.
  destruct (shr_fexp_m e' loc_Exact Hm20) as [H2 _].
  destruct (shr_fexp prec emax m2 e' loc_Exact) as [mrs'' e''] eqn:E2. simpl in H2.
  destruct m2 as [|p2|p2]; try lia.
  rewrite Zdigits2_log2 in H2.
  set (k2 := Z.max 0 (fexp prec emax (Z.log2 (Z.pos p2) + 1 + e') - e')) in *.
  assert (Hk2 : (0 <= k2 <= Z.log2 (Zpos p2))%Z).
  { subst k2. unfold fexp, SpecFloat.emin, prec, emax in *. lia. }
  pose proof (shiftr_pos Hm2 Hk2) as P2. rewrite <- H2 in P2.
  destruct (shr_m mrs'') as [|q|q]; try lia.
  destruct (e'' <=? emax - prec)%Z; reflexivity.
Qed.

Lemma binary_normalize_positive (p : positive) :
  positive_sf false (binary_normalize prec emax (Zpos p) 0 false).
Proof.
  unfold binary_normalize, binary_round.
  destruct (shl_align p 0 (fexp prec emax (Z.pos (digits2_pos p) + 0))) as [mz ez] eqn:E.
  apply binary_round_aux_positive; [lia|].
  unfold shl_align in E.
  assert (1 <= Zdigits2 (Zpos mz))%Z by (simpl; lia).
  destruct (fexp prec emax (Z.pos (digits2_pos p) + 0) - 0)%Z eqn:E'; inversion E; subst;
    unfold fexp, SpecFloat.emin, prec, emax in *; lia.
Qed.

(** *** Subtraction and squaring *)

Lemma sub_self (x : float) :
  is_nan x = false -> is_infinity x = false -> (x - x)%float = 0%float.
Proof.
  intros Hn Hi. apply Prim2SF_inj. rewrite sub_spec.
  rewrite is_nan_spec in Hn. rewrite is_infinity_spec in Hi.
  change (Prim2SF 0) with (S754_zero false).
  destruct (Prim2SF x) as [s|s| |s m e]; simpl in *; try discriminate.
  - destruct s; reflexivity.
  - unfold SF64sub, SFsub. rewrite Z.sub_diag. reflexivity.
Qed.

Lemma binary_normalize_not_nan (m e : Z) (sz : bool) :
  binary_normalize prec emax m e sz <> S754_nan.
Proof.
  unfold binary_normalize, binary_round.
  destruct m as [|p|p]; [discriminate| |].
  - destruct (shl_align _ _ _); apply binary_round_aux_not_nan; lia.
  - destruct (shl_align _ _ _); apply binary_round_aux_not_nan; lia.
Qed.

Lemma sub_nan_l (x y : float) : is_nan x = true -> is_nan (x - y) = true.
Proof.
  rewrite !is_nan_spec, sub_spec. destruct (Prim2SF x); try discriminate. reflexivity.
Qed.

Lemma sub_nan_r (x y : float) : is_nan y = true -> is_nan (x - y) = true.
Proof.
  rewrite !is_nan_spec, sub_spec.
  destruct (Prim2SF y); try discriminate. destruct (Prim2SF x); reflexivity.
Qed.

Lemma sub_not_nan (x y : float) :
  is_nan x = false -> is_nan y = false ->
  is_infinity x = false \/ is_infinity y = false ->
  is_nan (x - y) = false.
Proof.
  rewrite !is_nan_spec, !is_infinity_spec, sub_spec. intros Hx Hy Hi.
  unfold SF64sub, SFsub.
  destruct (Prim2SF x) as [s|s| |s m e], (Prim2SF y) as [s'|s'| |s' m' e'];
    try discriminate; try reflexivity;
    try (destruct s, s'; reflexivity);
    try (destruct Hi; discriminate).
  match goal with
  | |- match ?b with S754_nan => _ | _ => _ end = _ =>
      pose proof (@binary_normalize_not_nan
                    (cond_Zopp s (Z.pos (fst (shl_align m e (Z.min e e')))) -
                     cond_Zopp s' (Z.pos (fst (shl_align m' e' (Z.min e e')))))
                    (Z.min e e') false) as N;
      destruct b; try reflexivity; contradiction N; reflexivity
  end.
Qed.

Lemma mul_self_is_nan (x : float) : is_nan (x * x) = is_nan x.
Proof.
  rewrite !is_nan_spec, mul_spec. unfold SF64mul, SFmul.
  destruct (Prim2SF x) as [s|s| |s m e]; try reflexivity.
  pose proof (@binary_round_aux_not_nan (xorb s s) (Z.pos (m * m)) (e + e) loc_Exact) as N.
  destruct (binary_round_aux _ _ _ _ _ _); try reflexivity.
  contradiction N; [lia|reflexivity].
Qed.

(** *** The divisor of a mean *)

Lemma of_count_positive (n : Z) :
  (0 < n < Uint63.wB)%Z -> positive_sf false (Prim2SF (of_uint63 (Uint63.of_Z n))).
Proof.
  intros H. rewrite of_uint63_spec, Uint63.of_Z_spec, Z.mod_small by lia.
  destruct n as [|p|p]; try lia. apply binary_normalize_positive.
Qed.

Lemma div_zero_positive (c : float) :
  positive_sf false (Prim2SF c) -> (0 / c)%float = 0%float.
Proof.
  intros H. apply Prim2SF_inj. rewrite div_spec.
  change (Prim2SF 0) with (S754_zero false).
  destruct (Prim2SF c) as [s|s| |s m e]; simpl in H; try contradiction; subst; reflexivity.
Qed.

(** *** The order of the comparisons *)

Definition cmp (x y : float) : option comparison := SFcompare (Prim2SF x) (Prim2SF y).

Lemma ltb_cmp (x y : float) :
  (x <? y)%float = match cmp x y with Some Lt => true | _ => false end.
Proof. apply ltb_spec. Qed.

Lemma leb_cmp (x y : float) :
  (x <=? y)%float = match cmp x y with Some (Lt | Eq) => true | _ => false end.
Proof. apply leb_spec. Qed.

Lemma eqb_cmp (x y : float) :
  (x =? y)%float = match cmp x y with Some Eq => true | _ => false end.
Proof. apply FloatAxioms.eqb_spec. Qed.

Lemma SFcompare_opp (a b : spec_float) :
  SFcompare b a = option_map CompOpp (SFcompare a b).
Proof.
  destruct a as [s|s| |s m e], b as [s'|s'| |s' m' e']; simpl; try reflexivity;
    try (destruct s; reflexivity); try (destruct s'; reflexivity);
    try (destruct s, s'; reflexivity).
  change (Pos.compare_cont Eq m m') with (Pos.compare m m').
  change (Pos.compare_cont Eq m' m) with (Pos.compare m' m).
  rewrite (Z.compare_antisym e e'), (Pos.compare_antisym m m').
  destruct s, s'; simpl; try reflexivity; f_equal;
    destruct (e ?= e')%Z, (m ?= m')%positive; reflexivity.
Qed.

Lemma cmp_opp (x y : float) : cmp y x = option_map CompOpp (cmp x y).
Proof. apply SFcompare_opp. Qed.

Lemma cmp_nan (x y : float) :
  cmp x y = None <-> is_nan x = true \/ is_nan y = true.
Proof.
  unfold cmp. rewrite !is_nan_spec.
  destruct (Prim2SF x) as [s|s| |s m e], (Prim2SF y) as [s'|s'| |s' m' e']; simpl;
    intuition discriminate.
Qed.

Ltac compare_cases :=
  repeat match goal with
         | H : context [(?a ?= ?b)%Z] |- _ => destruct (Z.compare_spec a b)
         | |- context [(?a ?= ?b)%Z] => destruct (Z.compare_spec a b)
         | H : context [(?a ?= ?b)%positive] |- _ => destruct (Pos.compare_spec a b)
         | |- context [(?a ?= ?b)%positive] => destruct (Pos.compare_spec a b)
         end.

Lemma SFcompare_trans (a b c : spec_float) (c1 c2 : comparison) :
  SFcompare a b = Some c1 -> SFcompare b c = Some c2 ->
  c1 <> Gt -> c2 <> Gt ->
  SFcompare a c = Some (match c1, c2 with Eq, Eq => Eq | _, _ => Lt end).
Proof.
  destruct a as [s|s| |s m e], b as [s'|s'| |s' m' e'], c as [s''|s''| |s'' m'' e''];
    simpl; try discriminate;
    intros H1 H2 N1 N2; injection H1 as <-; injection H2 as <-;
    try (destruct s; try reflexivity; try (contradiction N1; reflexivity));
    try (destruct s'; try reflexivity;
         try (contradiction N1; reflexivity); try (contradiction N2; reflexivity));
    try (destruct s''; try reflexivity;
         try (contradiction N1; reflexivity); try (contradiction N2; reflexivity)).
  all: change (Pos.compare_cont Eq) with Pos.compare in *.
  all: compare_cases; subst; simpl in *; try reflexivity; try congruence; try lia.
Qed.

Lemma ltb_leb (x y : float) : (x <? y)%float = true -> (x <=? y)%float = true.
Proof. rewrite ltb_cmp, leb_cmp. destruct (cmp x y) as [[ | | ]|]; easy. Qed.

Lemma eqb_leb (x y : float) : (x =? y)%float = true -> (x <=? y)%float = true.
Proof. rewrite eqb_cmp, leb_cmp. destruct (cmp x y) as [[ | | ]|]; easy. Qed.

Lemma eqb_refl (x : float) : is_nan x = false -> (x =? x)%float = true.
Proof. unfold is_nan. destruct (x =? x)%float; easy. Qed.

Lemma leb_refl (x : float) : is_nan x = false -> (x <=? x)%float = true.
Proof. intros H. apply eqb_leb, eqb_refl, H. Qed.

Lemma leb_not_nan (x y : float) :
  (x <=? y)%float = true -> is_nan x = false /\ is_nan y = false.
Proof.
  rewrite leb_cmp. intros H.
  destruct (is_nan x) eqn:Ex, (is_nan y) eqn:Ey; auto;
    assert (N : cmp x y = None) by (apply cmp_nan; auto); rewrite N in H; discriminate.
Qed.

(** On numbers, [not (y < x)] is [x <= y]. *)
Lemma leb_total (x y : float) :
  is_nan x = false -> is_nan y = false ->
  (x <=? y)%float = negb (y <? x)%float.
Proof.
  intros Hx Hy. rewrite leb_cmp, ltb_cmp, (cmp_opp x y).
  destruct (cmp x y) as [[ | | ]|] eqn:E; try reflexivity.
  apply cmp_nan in E. destruct E; congruence.
Qed.

Lemma leb_trans (x y z : float) :
  (x <=? y)%float = true -> (y <=? z)%float = true -> (x <=? z)%float = true.
Proof.
  rewrite !leb_cmp. unfold cmp.
  destruct (SFcompare (Prim2SF x) (Prim2SF y)) as [c1|] eqn:E1; [|discriminate].
  destruct (SFcompare (Prim2SF y) (Prim2SF z)) as [c2|] eqn:E2; [|destruct c1; discriminate].
  intros H1 H2.
  rewrite (@SFcompare_trans _ _ _ _ _ E1 E2) by (destruct c1, c2; discriminate).
  destruct c1, c2; reflexivity.
Qed.

Lemma ltb_leb_trans (x y z : float) :
  (x <? y)%float = true -> (y <=? z)%float = true -> (x <? z)%float = true.
Proof.
  rewrite !leb_cmp, !ltb_cmp. unfold cmp.
  destruct (SFcompare (Prim2SF x) (Prim2SF y)) as [c1|] eqn:E1; [|discriminate].
  destruct (SFcompare (Prim2SF y) (Prim2SF z)) as [c2|] eqn:E2; [|destruct c1; discriminate].
  intros H1 H2.
  rewrite (@SFcompare_trans _ _ _ _ _ E1 E2) by (destruct c1, c2; discriminate).
  destruct c1, c2; try reflexivity; discriminate.
Qed.

Lemma leb_antisym (x y : float) :
  (x <=? y)%float = true -> (y <=? x)%float = true -> (x =? y)%float = true.
Proof.
  rewrite !leb_cmp, eqb_cmp, (cmp_opp x y).
  destruct (cmp x y) as [[ | | ]|]; easy.
Qed.

(** [x <= y] and [x != y] is [x < y]. *)
Lemma leb_neq_ltb (x y : float) :
  (x <=? y)%float = true -> (y =? x)%float = false -> (x <? y)%float = true.
Proof.
  rewrite leb_cmp, ltb_cmp, eqb_cmp, (cmp_opp x y).
  destruct (cmp x y) as [[ | | ]|]; easy.
Qed.

Lemma leb_ltb_false (x y : float) :
  (x <=? y)%float = true -> (y <? x)%float = false.
Proof.
  rewrite leb_cmp, ltb_cmp, (cmp_opp x y).
  destruct (cmp x y) as [[ | | ]|]; easy.
Qed.

Lemma ltb_nan_r (x y : float) : is_nan y = true -> (x <? y)%float = false.
Proof.
  intros H. rewrite ltb_cmp.
  assert (N : cmp x y = None) by (apply cmp_nan; auto). rewrite N. reflexivity.
Qed.

End Fl.

(** ** Facts on the runtime *)

Module PyFacts.

Lemma bind_ok {A B} (c : result A) (k : A -> result B) (b : B) :
  bind c k = Ok b -> exists a, c = Ok a /\ k a = Ok b.
Proof. destruct c as [a|e]; simpl; [eauto|discriminate]. Qed.

Lemma mapM_length {A B} (f : A -> result B) (l : list A) : forall bs,
  mapM f l = Ok bs -> length bs = length l.
Proof.
  induction l as [|a l IH]; simpl; intros bs H.
  - injection H as <-. reflexivity.
  - apply bind_ok in H as (b & _ & H). apply bind_ok in H as (bs' & H' & H).
    injection H as <-. simpl. f_equal. apply IH, H'.
Qed.

Lemma mapM_nth {A B} (f : A -> result B) (l : list A) : forall bs i a,
  mapM f l = Ok bs -> nth_error l i = Some a ->
  exists b, nth_error bs i = Some b /\ f a = Ok b.
Proof.
  induction l as [|x l IH]; simpl; intros bs i a H Hi.
  - destruct i; discriminate.
  - apply bind_ok in H as (b & Hb & H). apply bind_ok in H as (bs' & H' & H).
    injection H as <-. destruct i as [|i]; simpl in *.
    + injection Hi as <-. eauto.
    + eapply IH; eauto.
Qed.

Lemma mapM_map {A B} (f : A -> result B) (g : A -> B) (l : list A) :
  (forall a, In a l -> f a = Ok (g a)) -> mapM f l = Ok (map g l).
Proof.
  induction l as [|x l IH]; simpl; intros H; [reflexivity|].
  rewrite H by auto. simpl. rewrite IH by auto. reflexivity.
Qed.

Lemma mapM_total {A B} (f : A -> result B) (l : list A) :
  (forall a, In a l -> exists b, f a = Ok b) -> exists bs, mapM f l = Ok bs.
Proof.
  induction l as [|x l IH]; simpl; intros H; [eauto|].
  destruct (H x) as (b & Hb); auto. rewrite Hb. simpl.
  destruct IH as (bs & Hbs); auto. rewrite Hbs. simpl. eauto.
Qed.

Lemma get_ok {A} (l : list A) (j : nat) (a : A) :
  get l j = Ok a <-> nth_error l j = Some a.
Proof.
  unfold get. destruct (nth_error l j); split; intros H; try discriminate;
    injection H as <-; reflexivity.
Qed.

Lemma nth_error_combine_seq {A} (l : list A) : forall (s i : nat) (a : A),
  nth_error l i = Some a ->
  nth_error (combine (seq s (length l)) l) i = Some (s + i, a).
Proof.
  induction l as [|x l IH]; intros s [|i] a H; simpl in *; try discriminate.
  - injection H as <-. f_equal. f_equal. lia.
  - rewrite (IH (S s) i a H). f_equal. f_equal. lia.
Qed.

Lemma nth_error_enumerate {A} (l : list A) (i : nat) (a : A) :
  nth_error l i = Some a -> nth_error (enumerate l) i = Some (i, a).
Proof. apply (nth_error_combine_seq l 0). Qed.

(** [min] on numbers: an item of the list, below every item. *)
Lemma min_fold_spec (xs : list float) : forall acc : float,
  is_nan acc = false -> Forall (fun y => is_nan y = false) xs ->
  let m := fold_left (fun m y => if (y <? m)%float then y else m) xs acc in
  In m (acc :: xs) /\ Forall (fun y => (m <=? y)%float = true) (acc :: xs).
Proof.
  induction xs as [|x xs IH]; intros acc Hacc Hxs; simpl.
  - split; [auto|]. constructor; [apply Fl.leb_refl, Hacc|constructor].
  - inversion Hxs as [|? ? Hx Hxs']; subst.
    destruct (x <? acc)%float eqn:E.
    + destruct (IH x Hx Hxs') as (Hin & Hall). split.
      * destruct Hin as [<-|Hin]; auto.
      * inversion Hall as [|? ? H1 H2]; subst. constructor; [|constructor; assumption].
        eapply Fl.leb_trans; [exact H1|]. apply Fl.ltb_leb, E.
    + destruct (IH acc Hacc Hxs') as (Hin & Hall). split.
      * destruct Hin as [<-|Hin]; auto.
      * inversion Hall as [|? ? H1 H2]; subst. constructor; [assumption|].
        constructor; [|assumption].
        eapply Fl.leb_trans; [exact H1|].
        rewrite Fl.leb_total, E by assumption. reflexivity.
Qed.

Lemma min_spec (l : list float) :
  l <> [] -> Forall (fun y => is_nan y = false) l ->
  exists m, Py.min PrimFloat.ltb l = Ok m /\ In m l /\
            Forall (fun y => (m <=? y)%float = true) l.
Proof.
  destruct l as [|x xs]; [congruence|]. intros _ H.
  inversion H as [|? ? Hx Hxs]; subst.
  eexists. split; [reflexivity|]. apply min_fold_spec; assumption.
Qed.

End PyFacts.

(** ** Facts on the sum of numpy *)

Module NpFacts.

Ltac zeros :=
  repeat match goal with
         | H : Forall _ (_ :: _) |- _ => inversion H; clear H; subst
         end.

Lemma accumulate_zeros (n : nat) : forall a : list float,
  length a <= n -> Forall (fun x => x = 0%float) a ->
  Np.accumulate 0 0 0 0 0 0 0 0 a = 0%float.
Proof.
  induction n as [|n IH]; intros a Hlen Ha.
  - destruct a; [reflexivity|simpl in Hlen; lia].
  - destruct a as [|x0 [|x1 [|x2 [|x3 [|x4 [|x5 [|x6 [|x7 a']]]]]]]]; zeros;
      try reflexivity.
    cbn [Np.accumulate].
    change (0 + 0)%float with 0%float. apply IH; [simpl in Hlen; lia|assumption].
Qed.

Lemma block_sum_zeros (a : list float) :
  Forall (fun x => x = 0%float) a -> Np.block_sum 0 a = 0%float.
Proof.
  intros Ha.
  destruct a as [|x0 [|x1 [|x2 [|x3 [|x4 [|x5 [|x6 [|x7 a']]]]]]]]; zeros;
    try reflexivity.
  cbn [Np.block_sum]. apply (accumulate_zeros (n := length a')); [apply le_n|assumption].
Qed.

Lemma Forall_firstn {A} (P : A -> Prop) (n : nat) : forall l : list A,
  Forall P l -> Forall P (firstn n l).
Proof.
  induction n as [|n IH]; intros l H; [constructor|].
  destruct H as [|x l Hx H]; simpl; [constructor|]. constructor; [exact Hx|apply IH, H].
Qed.

Lemma Forall_skipn {A} (P : A -> Prop) (n : nat) : forall l : list A,
  Forall P l -> Forall P (skipn n l).
Proof.
  induction n as [|n IH]; intros l H; [exact H|].
  destruct H as [|x l Hx H]; simpl; [constructor|]. apply IH, H.
Qed.

Lemma pairwise_sum_zeros (fuel : nat) : forall a : list float,
  Forall (fun x => x = 0%float) a -> Np.pairwise_sum 0 fuel a = 0%float.
Proof.
  induction fuel as [|fuel IH]; intros a Ha; cbn [Np.pairwise_sum];
    destruct (length a <=? 128); try (apply block_sum_zeros, Ha).
  rewrite !IH by (first [apply Forall_firstn|apply Forall_skipn]; exact Ha).
  reflexivity.
Qed.

(** The sum of zeros is zero. *)
Lemma sum_zeros (a : list float) :
  Forall (fun x => x = 0%float) a -> Np.sum a = 0%float.
Proof.
  intros Ha. unfold Np.sum, Np.sum_from. rewrite pairwise_sum_zeros by exact Ha.
  reflexivity.
Qed.

(** The cut of an array of more than 128 items leaves two shorter
    parts. *)
Lemma cut_bounds (n : nat) :
  128 < n -> 0 < n / 2 - (n / 2) mod 8 < n.
Proof.
  intros Hn.
  pose proof (Nat.div_mod_eq n 2) as H1.
  pose proof (Nat.mod_upper_bound n 2) as H2.
  pose proof (Nat.mod_upper_bound (n / 2) 8) as H3.
  lia.
Qed.

(** The fuel is never used up: any fuel from the number of items on
    gives the same sum. *)
Lemma pairwise_sum_fuel (start : float) (n : nat) :
  forall (fuel fuel' : nat) (a : list float),
  length a <= n -> length a <= fuel -> length a <= fuel' ->
  Np.pairwise_sum start fuel a = Np.pairwise_sum start fuel' a.
Proof.
  induction n as [|n IH]; intros fuel fuel' a Hn Hf Hf'.
  - destruct a; [|simpl in Hn; lia]. destruct fuel, fuel'; reflexivity.
  - destruct fuel as [|fuel], fuel' as [|fuel']; cbn [Np.pairwise_sum];
      destruct (Nat.leb_spec (length a) 128) as [Hs|Hl]; try reflexivity; try lia.
    destruct (cut_bounds Hl) as [Hc1 Hc2].
    set (n2 := length a / 2 - (length a / 2) mod 8) in *.
    f_equal; apply IH; rewrite ?length_firstn, ?length_skipn; lia.
Qed.

(** The sum of more than 128 items is the sum of the sums of its two
    parts. *)
Lemma pairwise_sum_cut (start : float) (a : list float) :
  128 < length a ->
  let n2 := length a / 2 - (length a / 2) mod 8 in
  Np.pairwise_sum start (length a) a
  = (Np.pairwise_sum start n2 (firstn n2 a)
     + Np.pairwise_sum start (length a - n2) (skipn n2 a))%float.
Proof.
  intros Hl n2. destruct (cut_bounds Hl) as [Hc1 Hc2]. fold n2 in Hc1, Hc2.
  destruct (length a) as [|m] eqn:E; [lia|].
  cbn [Np.pairwise_sum]. rewrite E.
  destruct (Nat.leb_spec (S m) 128) as [Hs|_]; [lia|].
  fold n2. f_equal.
  - apply (@pairwise_sum_fuel start m); rewrite ?length_firstn; lia.
  - apply (@pairwise_sum_fuel start m); rewrite ?length_skipn; lia.
Qed.

End NpFacts.

(** ** GeometryMatcher: [compare_two_mols] *)

Section GeometryMatcher.

Variable Geom : Type.
Variable OERMSD : Geom -> Geom -> bool -> bool -> bool -> float.

(** The distance the matcher asks the oracle for. *)
Definition rmsd (ref_conf que_conf : Conf Geom) : float :=
  OERMSD (geom ref_conf) (geom que_conf) automorph heavyOnly overlay.

(** The oracle's contract: a distance is a number. *)
Definition oracle_numeric : Prop :=
  forall r q a h o, is_nan (OERMSD r q a h o) = false.

Lemma first_hit (m : float) (l : list float) : forall s : nat,
  (exists x, In x l /\ (x =? m)%float = true) ->
  exists k d,
    get (concat (map (fun p : nat * float => if (snd p =? m)%float then [fst p] else [])
                     (combine (seq s (length l)) l))) 0 = Ok (s + k) /\
    nth_error l k = Some d /\ (d =? m)%float = true /\
    (forall k' d', k' < k -> nth_error l k' = Some d' -> (d' =? m)%float = false).
Proof.
  induction l as [|x l IH]; intros s (y & Hin & Hy); [contradiction|].
  simpl. destruct (x =? m)%float eqn:E.
  - exists 0, x. simpl. unfold get. simpl. rewrite Nat.add_0_r.
    split; [reflexivity|]. split; [reflexivity|]. split; [exact E|].
    intros k' d' Hk. lia.
  - destruct Hin as [->|Hin]; [congruence|].
    destruct (IH (S s)) as (k & d & Hget & Hnth & Hd & Hlt); [eauto|].
    exists (S k), d. simpl.
    split; [rewrite Hget; f_equal; lia|]. split; [exact Hnth|]. split; [exact Hd|].
    intros [|k'] d' Hk Hn; simpl in Hn.
    + injection Hn as <-. exact E.
    + apply (Hlt k'); [lia|exact Hn].
Qed.

Lemma lowest_rmsd_index_spec (l : list float) :
  l <> [] -> Forall (fun y => is_nan y = false) l ->
  exists k d,
    lowest_rmsd_index l = Ok k /\ nth_error l k = Some d /\
    Forall (fun y => (d <=? y)%float = true) l /\
    (forall k' d', k' < k -> nth_error l k' = Some d' -> (d <? d')%float = true).
Proof.
  intros Hne Hnum.
  destruct (PyFacts.min_spec Hne Hnum) as (m & Hmin & Hin & Hall).
  assert (Hm : is_nan m = false) by (rewrite Forall_forall in Hnum; auto).
  destruct (@first_hit m l 0) as (k & d & Hget & Hnth & Hd & Hlt).
  { exists m. split; [exact Hin|apply Fl.eqb_refl, Hm]. }
  exists k, d. unfold lowest_rmsd_index.
  rewrite (PyFacts.mapM_map _
             (fun p : nat * float => if (snd p =? m)%float then [fst p] else []))
    by (intros a _; rewrite Hmin; reflexivity).
  simpl. unfold enumerate. rewrite Hget.
  split; [reflexivity|]. split; [exact Hnth|]. split.
  - rewrite Forall_forall in *. intros y Hy.
    eapply Fl.leb_trans; [apply Fl.eqb_leb, Hd|auto].
  - intros k' d' Hk Hn.
    assert (Hin' : In d' l) by (eapply nth_error_In; eauto).
    rewrite Forall_forall in Hall.
    assert (H1 : (m <? d')%float = true).
    { apply Fl.leb_neq_ltb; [auto|]. eapply Hlt; eauto. }
    rewrite Fl.ltb_cmp in *. rewrite Fl.eqb_cmp in Hd. unfold Fl.cmp in *.
    destruct (SFcompare (Prim2SF d) (Prim2SF m)) as [[ | | ]|] eqn:E1; try discriminate.
    destruct (SFcompare (Prim2SF m) (Prim2SF d')) as [[ | | ]|] eqn:E2; try discriminate.
    rewrite (@Fl.SFcompare_trans _ _ _ _ _ E1 E2) by discriminate. reflexivity.
Qed.

Lemma lowest_rmsd_index_empty : lowest_rmsd_index [] = Raise IndexError.
Proof. reflexivity. Qed.

(** What one round of the loop appends, on a query with conformers. *)
Lemma match_conf_spec (qmol : Mol Geom) (rmsd_cutoff : float) (ref_conf : Conf Geom) :
  oracle_numeric -> confs qmol <> [] ->
  exists k que_conf,
    nth_error (confs qmol) k = Some que_conf /\
    Forall (fun q => (rmsd ref_conf que_conf <=? rmsd ref_conf q)%float = true) (confs qmol) /\
    (forall k' q, k' < k -> nth_error (confs qmol) k' = Some q ->
                  (rmsd ref_conf que_conf <? rmsd ref_conf q)%float = true) /\
    match_conf OERMSD qmol rmsd_cutoff ref_conf =
      Ok (if (rmsd ref_conf que_conf <=? rmsd_cutoff)%float then Some (Z.of_nat k) else None).
Proof.
  intros Hnum Hne. unfold match_conf. fold (rmsd ref_conf).
  set (ds := map (rmsd ref_conf) (confs qmol)).
  destruct (@lowest_rmsd_index_spec ds) as (k & d & Hk & Hnth & Hall & Hlt).
  { subst ds. destruct (confs qmol); [congruence|discriminate]. }
  { subst ds. rewrite Forall_map, Forall_forall. intros q _. apply Hnum. }
  subst ds. rewrite nth_error_map in Hnth.
  destruct (nth_error (confs qmol) k) as [que_conf|] eqn:Eq; [|discriminate].
  injection Hnth as <-. exists k, que_conf.
  split; [exact Eq|]. split; [|split].
  - rewrite Forall_map in Hall. exact Hall.
  - intros k' q Hk' Hq. apply (Hlt k'); [exact Hk'|].
    rewrite nth_error_map, Hq. reflexivity.
  - rewrite Hk. simpl. unfold get. rewrite nth_error_map, Eq. reflexivity.
Qed.

Lemma match_conf_empty (qmol : Mol Geom) (rmsd_cutoff : float) (ref_conf : Conf Geom) :
  confs qmol = [] -> match_conf OERMSD qmol rmsd_cutoff ref_conf = Raise IndexError.
Proof. intros H. unfold match_conf. rewrite H. reflexivity. Qed.

(** C3. On a query molecule with at least one conformer, an oracle that
    returns numbers and a cutoff that is a number, [compare_two_mols]
    returns one entry per reference conformer. The entry of a reference
    conformer is decided by a query position [k < N]: that conformer's
    distance is least among all the query conformers and every earlier
    query conformer is strictly farther (the lowest index attaining the
    minimum). The entry is [None] exactly when that minimum strictly
    exceeds the cutoff, and otherwise the index [k], so an index is
    always in [0, N) and a distance equal to the cutoff is accepted; with
    cutoff 0 and a distance that is not negative, an accepted distance
    is 0. *)
Theorem compare_two_mols_spec (rmol qmol : Mol Geom) (rmsd_cutoff : float) :
  oracle_numeric -> confs qmol <> [] -> is_nan rmsd_cutoff = false ->
  exists molIndices,
    compare_two_mols OERMSD rmol qmol rmsd_cutoff = Ok molIndices /\
    length molIndices = length (confs rmol) /\
    forall i ref_conf, nth_error (confs rmol) i = Some ref_conf ->
      exists k que_conf,
        nth_error (confs qmol) k = Some que_conf /\
        k < length (confs qmol) /\
        let d := rmsd ref_conf que_conf in
        (forall q, In q (confs qmol) -> (d <=? rmsd ref_conf q)%float = true) /\
        (forall k' q, k' < k -> nth_error (confs qmol) k' = Some q ->
                      (d <? rmsd ref_conf q)%float = true) /\
        (nth_error molIndices i = Some None <-> (rmsd_cutoff <? d)%float = true) /\
        (nth_error molIndices i = Some (Some (Z.of_nat k)) <->
           (d <=? rmsd_cutoff)%float = true) /\
        (rmsd_cutoff = 0%float -> (0 <=? d)%float = true ->
         nth_error molIndices i = Some (Some (Z.of_nat k)) -> (d =? 0)%float = true).
Proof.
  intros Hnum Hne Hcut.
  destruct (@PyFacts.mapM_total _ _ (match_conf OERMSD qmol rmsd_cutoff) (confs rmol))
    as (molIndices & Hok).
  { intros r _. destruct (@match_conf_spec qmol rmsd_cutoff r Hnum Hne)
      as (k & q & _ & _ & _ & H). eauto. }
  exists molIndices. split; [exact Hok|]. split; [apply (@PyFacts.mapM_length _ _ _ _ _ Hok)|].
  intros i ref_conf Hi.
  destruct (@PyFacts.mapM_nth _ _ _ _ _ _ _ Hok Hi) as (b & Hb & Hm).
  destruct (@match_conf_spec qmol rmsd_cutoff ref_conf Hnum Hne)
    as (k & que_conf & Hk & Hall & Hlt & Hres).
  rewrite Hres in Hm. injection Hm as <-.
  exists k, que_conf. split; [exact Hk|].
  split; [apply nth_error_Some; congruence|]. cbv zeta.
  assert (Hd : is_nan (rmsd ref_conf que_conf) = false) by apply Hnum.
  pose proof (Fl.leb_total _ _ Hd Hcut) as T.
  split; [rewrite Forall_forall in Hall; exact Hall|].
  split; [exact Hlt|]. rewrite Hb.
  destruct (rmsd_cutoff <? rmsd ref_conf que_conf)%float; simpl in T; rewrite T.
  - repeat split; intros; try discriminate; reflexivity.
  - repeat split; intros; try discriminate; try reflexivity.
    subst rmsd_cutoff. apply Fl.leb_antisym; assumption.
Qed.

(** C10. [compare_two_mols] needs a query molecule with conformers: on a
    query with none it raises as soon as there is a reference conformer
    to match (element 0 of the empty list of positions attaining the
    minimum does not exist), it does not return [None] entries; on a
    query with at least one conformer, and an oracle that returns
    numbers, it returns a list. *)
Theorem compare_two_mols_needs_query_confs (rmol qmol : Mol Geom) (rmsd_cutoff : float) :
  (confs qmol = [] -> confs rmol <> [] ->
   compare_two_mols OERMSD rmol qmol rmsd_cutoff = Raise IndexError) /\
  (confs qmol <> [] -> oracle_numeric ->
   exists molIndices, compare_two_mols OERMSD rmol qmol rmsd_cutoff = Ok molIndices).
Proof.
  split.
  - intros Hq Hr. unfold compare_two_mols.
    destruct (confs rmol) as [|r rs]; [congruence|]. simpl.
    rewrite match_conf_empty by exact Hq. reflexivity.
  - intros Hne Hnum. apply PyFacts.mapM_total. intros r _.
    destruct (@match_conf_spec qmol rmsd_cutoff r Hnum Hne) as (k & q & _ & _ & _ & H).
    eauto.
Qed.

End GeometryMatcher.

(** ** MatchResolver: [extract_matches] *)

(** The outcome of matching one reference conformer, as the
    specification names the four codes of a conformer index. *)
Inductive MatchOutcome : Type :=
| Matched (queryIndex : nat)
| SelfReference
| MoleculeAbsent
| NoMatchWithinCutoff.

(** The code [match_minima] stores for an outcome. *)
Definition encode (o : MatchOutcome) : option Z :=
  match o with
  | Matched queryIndex => Some (Z.of_nat queryIndex)
  | SelfReference => Some (-1)%Z
  | MoleculeAbsent => Some (-2)%Z
  | NoMatchWithinCutoff => None
  end.

(** The table of the specification, its rows tried in the order listed:
    the matched energy at position [j]. *)
Definition table_entry (rawEnergies : list float) (j : nat) (o : MatchOutcome) : float :=
  match o, rawEnergies with
  | NoMatchWithinCutoff, _ => nan
  | MoleculeAbsent, _ => nan
  | _, [] => nan
  | SelfReference, _ => nth j rawEnergies nan
  | Matched idx, _ => nth idx rawEnergies nan
  end.

(** The position an outcome reads lies within the raw energies. *)
Definition in_range (rawEnergies : list float) (j : nat) (o : MatchOutcome) : Prop :=
  match o with
  | SelfReference => j < length rawEnergies
  | Matched idx => idx < length rawEnergies
  | _ => True
  end.

Lemma getitem_of_nat {A} (l : list A) (j : nat) : getitem l (Z.of_nat j) = get l j.
Proof.
  unfold getitem. destruct (Z.leb_spec 0 (Z.of_nat j)); [|lia].
  rewrite Nat2Z.id. reflexivity.
Qed.

Lemma get_nth (l : list float) (j : nat) : j < length l -> get l j = Ok (nth j l nan).
Proof.
  intros H. unfold get. rewrite (nth_error_nth' l nan H). reflexivity.
Qed.

Lemma get_out (l : list float) (j : nat) : length l <= j -> get l j = Raise IndexError.
Proof.
  intros H. unfold get. apply nth_error_None in H. rewrite H. reflexivity.
Qed.

(** One conformer index: the table's entry when the position read is in
    range, an [IndexError] when it is not. *)
Lemma extract_conf_table (energy_array : list (list float)) (i j : nat)
  (rawEnergies : list float) (o : MatchOutcome) :
  nth_error energy_array i = Some rawEnergies ->
  (rawEnergies <> [] -> in_range rawEnergies j o ->
   extract_conf energy_array i j (encode o) = Ok (table_entry rawEnergies j o)) /\
  (rawEnergies = [] ->
   extract_conf energy_array i j (encode o) = Ok (table_entry rawEnergies j o)) /\
  (rawEnergies <> [] -> ~ in_range rawEnergies j o ->
   extract_conf energy_array i j (encode o) = Raise IndexError).
Proof.
  intros Hraw. unfold extract_conf, get.
  destruct o as [idx| | |]; simpl; rewrite ?Hraw; simpl.
  - destruct (Z.eqb_spec (Z.of_nat idx) (-2)); [lia|].
    destruct (Z.eqb_spec (Z.of_nat idx) (-1)); [lia|].
    rewrite getitem_of_nat.
    destruct rawEnergies as [|x xs]; simpl length; simpl Nat.eqb; cbv iota.
    + repeat split; try congruence.
    + repeat split; try congruence; intros _ H.
      * apply get_nth, H.
      * apply get_out. simpl. lia.
  - rewrite getitem_of_nat.
    destruct rawEnergies as [|x xs]; simpl length; simpl Nat.eqb; cbv iota.
    + repeat split; try congruence.
    + repeat split; try congruence; intros _ H.
      * apply get_nth, H.
      * apply get_out. simpl. lia.
  - destruct rawEnergies; repeat split; try reflexivity; intros _ H; elim H; exact I.
  - destruct rawEnergies; repeat split; try reflexivity; intros _ H; elim H; exact I.
Qed.

Lemma extract_file_from (energy_array : list (list float)) (i : nat)
  (rawEnergies : list float) (outcomes : list MatchOutcome) : forall s : nat,
  nth_error energy_array i = Some rawEnergies ->
  (rawEnergies <> [] ->
   forall j o, nth_error outcomes j = Some o -> in_range rawEnergies (s + j) o) ->
  mapM (fun p => extract_conf energy_array i (fst p) (snd p))
       (combine (seq s (length (map encode outcomes))) (map encode outcomes)) =
  Ok (map (fun p => table_entry rawEnergies (fst p) (snd p))
          (combine (seq s (length outcomes)) outcomes)).
Proof.
  intros s Hraw. revert s.
  induction outcomes as [|o os IH]; intros s Hin; simpl; [reflexivity|].
  destruct (@extract_conf_table energy_array i s rawEnergies o Hraw) as (H1 & H2 & _).
  assert (E : extract_conf energy_array i s (encode o) = Ok (table_entry rawEnergies s o)).
  { destruct rawEnergies as [|x xs]; [apply H2; reflexivity|].
    apply H1; [discriminate|].
    rewrite <- (Nat.add_0_r s). apply Hin; [discriminate|reflexivity]. }
  rewrite E. simpl. rewrite IH; [reflexivity|].
  intros Hne j o' Hj. replace (S s + j) with (s + S j) by lia. apply Hin; assumption.
Qed.

(** C6, as amended. For raw energies that are row [i] of the energy
    array and outcomes whose positions lie within them (each
    [SelfReference] position [j] and each [Matched idx], unless there
    are no raw energies at all), [extract_matches] builds the row of
    matched energies, one per outcome, by the five rows of the table
    taken in order: [NoMatchWithinCutoff] and [MoleculeAbsent] give the
    missing value, then no raw energy at all gives the missing value,
    then [SelfReference] at [j] gives [rawEnergies[j]] and
    [Matched idx] gives [rawEnergies[idx]]. *)
Theorem extract_file_table (energy_array : list (list float)) (i : nat)
  (rawEnergies : list float) (outcomes : list MatchOutcome) :
  nth_error energy_array i = Some rawEnergies ->
  (rawEnergies <> [] ->
   forall j o, nth_error outcomes j = Some o -> in_range rawEnergies j o) ->
  exists matched,
    extract_file energy_array i (map encode outcomes) = Ok matched /\
    length matched = length outcomes /\
    forall j o, nth_error outcomes j = Some o ->
      nth_error matched j = Some (table_entry rawEnergies j o).
Proof.
  intros Hraw Hin. unfold extract_file, enumerate.
  rewrite (@extract_file_from energy_array i rawEnergies outcomes 0 Hraw Hin).
  eexists. split; [reflexivity|]. split.
  - rewrite length_map, length_combine, length_seq. lia.
  - intros j o Hj. rewrite nth_error_map.
    rewrite (PyFacts.nth_error_combine_seq outcomes 0 j Hj). reflexivity.
Qed.

(** With a position out of range the row is not built: the first such
    position raises. *)
Lemma extract_file_out_of_range (energy_array : list (list float)) (i : nat)
  (rawEnergies : list float) (outcomes : list MatchOutcome) (j : nat) (o : MatchOutcome) :
  nth_error energy_array i = Some rawEnergies -> rawEnergies <> [] ->
  nth_error outcomes j = Some o -> ~ in_range rawEnergies j o ->
  extract_file energy_array i (map encode outcomes) = Raise IndexError.
Proof.
  intros Hraw Hne. unfold extract_file, enumerate.
  replace j with (0 + j) at 2 by reflexivity. generalize 0 as s. revert j.
  induction outcomes as [|o' os IH]; intros j s Hj Hout; [destruct j; discriminate|].
  simpl.
  destruct (@extract_conf_table energy_array i s rawEnergies o' Hraw) as (H1 & _ & H3).
  destruct j as [|j]; simpl in Hj.
  - injection Hj as ->. rewrite Nat.add_0_r in Hout. rewrite H3; auto.
  - assert (D : in_range rawEnergies s o' \/ ~ in_range rawEnergies s o').
    { destruct o'; simpl; try (left; exact I); try lia. }
    destruct D as [D|D]; [rewrite H1 by auto|rewrite H3 by auto; reflexivity].
    simpl. rewrite (IH j (S s)); [reflexivity|exact Hj|].
    replace (S s + j) with (s + S j) by lia. exact Hout.
Qed.

(** ** RelativeEnergyCalculator: [calc_rel_ene] *)

(** The number of methods whose matched energy at position [j] is missing. *)
Definition missing_count (mol_array : list (list float)) (j : nat) : nat :=
  length (filter (fun file_enes => is_nan (nth j file_enes 0%float)) mol_array).

(** The rows of a molecule are aligned on a reference row with at least
    one conformer: each has one energy per reference conformer. *)
Definition aligned (mol_array : list (list float)) : Prop :=
  match mol_array with
  | [] => False
  | ref_row :: others =>
      ref_row <> [] /\ Forall (fun row => length row = length ref_row) others
  end.

Module RelFacts.

Lemma get_nth0 (l : list float) (j : nat) :
  j < length l -> get l j = Ok (nth j l 0%float).
Proof.
  intros H. unfold get. rewrite (nth_error_nth' l 0%float H). reflexivity.
Qed.

Lemma map_nth_seq (l : list float) :
  map (fun i => nth i l 0%float) (seq 0 (length l)) = l.
Proof.
  induction l as [|x l IH]; simpl; [reflexivity|].
  rewrite <- seq_shift, map_map. simpl. rewrite IH. reflexivity.
Qed.

Lemma filter_map_length {A B} (f : A -> B) (p : B -> bool) (l : list A) :
  length (filter p (map f l)) = length (filter (fun a => p (f a)) l).
Proof.
  induction l as [|a l IH]; simpl; [reflexivity|].
  destruct (p (f a)); simpl; rewrite IH; reflexivity.
Qed.

Lemma nan_counts_ok (mol_array : list (list float)) (n : nat) :
  Forall (fun row => n <= length row) mol_array ->
  nan_counts mol_array n = Ok (map (missing_count mol_array) (seq 0 n)).
Proof.
  intros H. unfold nan_counts. apply PyFacts.mapM_map.
  intros j Hj. apply in_seq in Hj.
  rewrite (PyFacts.mapM_map _ (fun row => nth j row 0%float)).
  - simpl. unfold Np.count_nan, missing_count. rewrite filter_map_length. reflexivity.
  - intros row Hrow. rewrite Forall_forall in H. apply get_nth0.
    specialize (H row Hrow). lia.
Qed.

Lemma in_combine_seq {A} (l : list A) : forall (s j : nat) (x : A),
  In (j, x) (combine (seq s (length l)) l) <-> s <= j /\ nth_error l (j - s) = Some x.
Proof.
  induction l as [|y l IH]; intros s j x; simpl.
  - split; [contradiction|]. intros [_ H]. destruct (j - s); discriminate.
  - rewrite IH. split.
    + intros [H|[H1 H2]].
      * injection H as <- <-. rewrite Nat.sub_diag. auto.
      * split; [lia|]. replace (j - s) with (S (j - S s)) by lia. exact H2.
    + intros [H1 H2]. destruct (j - s) as [|k] eqn:E.
      * left. injection H2 as <-. f_equal. lia.
      * right. split; [lia|]. replace (j - S s) with k by lia. exact H2.
Qed.

Lemma in_where_eq (a : list nat) (v j : nat) :
  In j (Np.where_eq a v) <-> nth_error a j = Some v.
Proof.
  unfold Np.where_eq, enumerate. rewrite in_map_iff. split.
  - intros ([j' x] & Hj & Hin). simpl in Hj. subst j'.
    apply filter_In in Hin as [Hin Hx]. simpl in Hx. apply Nat.eqb_eq in Hx. subst x.
    apply in_combine_seq in Hin as [_ Hin]. rewrite Nat.sub_0_r in Hin. exact Hin.
  - intros H. exists (j, v). split; [reflexivity|]. apply filter_In. split.
    + apply in_combine_seq. rewrite Nat.sub_0_r. split; [lia|exact H].
    + simpl. apply Nat.eqb_refl.
Qed.

(** The scan of the thresholds [cnt], [cnt + 1], ...: the positions of the
    first threshold that has some, or none when [todo] thresholds have
    none. *)
Lemma scan_counts_spec (nan_cnt : list nat) : forall todo cnt : nat,
  let r := scan_counts nan_cnt todo cnt [] in
  (r = [] /\ forall t, cnt <= t < cnt + todo -> Np.where_eq nan_cnt t = []) \/
  (exists t, cnt <= t < cnt + todo /\ r = Np.where_eq nan_cnt t /\ r <> [] /\
             forall t', cnt <= t' < t -> Np.where_eq nan_cnt t' = []).
Proof.
  induction todo as [|todo IH]; intros cnt; simpl.
  - left. split; [reflexivity|]. intros t Ht. lia.
  - destruct (Np.where_eq nan_cnt cnt) as [|j js] eqn:E.
    + destruct (IH (S cnt)) as [[H1 H2]|(t & Ht & H1 & H2 & H3)].
      * left. split; [exact H1|]. intros t Ht.
        destruct (Nat.eq_dec t cnt) as [->|N]; [exact E|apply H2; lia].
      * right. exists t. split; [lia|]. split; [exact H1|]. split; [exact H2|].
        intros t' Ht'. destruct (Nat.eq_dec t' cnt) as [->|N]; [exact E|apply H3; lia].
    + right. exists cnt. split; [lia|].
      assert (R : scan_counts nan_cnt todo (S cnt) (j :: js) = j :: js)
        by (destruct todo; reflexivity).
      rewrite R, E. split; [reflexivity|]. split; [discriminate|]. intros t' Ht'. lia.
Qed.

(** [np.argmin]: [p] is the part already scanned, all numbers, with its
    least item [mp] first met at [min_ind]. *)
Lemma argmin_scan_spec (l : list float) : forall (p : list float) (mp : float) (min_ind : nat),
  Forall (fun y => is_nan y = false) p ->
  nth_error p min_ind = Some mp ->
  (forall y, In y p -> (mp <=? y)%float = true) ->
  (forall j y, j < min_ind -> nth_error p j = Some y -> (mp <? y)%float = true) ->
  let k := Np.argmin_scan mp min_ind (length p) l in
  exists v, nth_error (p ++ l) k = Some v /\
    (is_nan v = true \/
     (Forall (fun y => is_nan y = false) (p ++ l) /\
      (forall y, In y (p ++ l) -> (v <=? y)%float = true) /\
      (forall j y, j < k -> nth_error (p ++ l) j = Some y -> (v <? y)%float = true))).
Proof.
  induction l as [|x l IH]; intros p mp min_ind Hp Hmp Hle Hlt; simpl.
  - rewrite app_nil_r. exists mp. split; [exact Hmp|]. right. auto.
  - assert (A : (p ++ [x]) ++ l = p ++ x :: l) by (rewrite <- app_assoc; reflexivity).
    assert (L : length (p ++ [x]) = S (length p)) by (rewrite length_app; simpl; lia).
    assert (Hmpn : is_nan mp = false).
    { rewrite Forall_forall in Hp. apply Hp. eapply nth_error_In, Hmp. }
    destruct (mp <=? x)%float eqn:E; simpl.
    + destruct (@Fl.leb_not_nan _ _ E) as [_ Hx].
      rewrite <- A, <- L. apply IH.
      * apply Forall_app. split; [exact Hp|constructor; [exact Hx|constructor]].
      * rewrite nth_error_app1; [exact Hmp|]. apply nth_error_Some. congruence.
      * intros y Hy. apply in_app_or in Hy as [Hy|[<-|[]]]; auto.
      * intros j y Hj Hy. apply (Hlt j); [exact Hj|].
        rewrite nth_error_app1 in Hy; [exact Hy|].
        assert (min_ind < length p) by (apply nth_error_Some; congruence). lia.
    + destruct (is_nan x) eqn:Ex.
      * exists x. split; [|left; exact Ex].
        rewrite nth_error_app2, Nat.sub_diag by lia. reflexivity.
      * assert (Hxm : (x <? mp)%float = true).
        { pose proof (@Fl.leb_total _ _ Hmpn Ex) as T. rewrite E in T.
          destruct (x <? mp)%float; [reflexivity|discriminate]. }
        rewrite <- A, <- L. apply IH.
        -- apply Forall_app. split; [exact Hp|constructor; [exact Ex|constructor]].
        -- rewrite nth_error_app2, Nat.sub_diag by lia. reflexivity.
        -- intros y Hy. apply in_app_or in Hy as [Hy|[<-|[]]].
           ++ apply Fl.ltb_leb. eapply Fl.ltb_leb_trans; [exact Hxm|auto].
           ++ apply Fl.leb_refl, Ex.
        -- intros j y Hj Hy. rewrite nth_error_app1 in Hy by exact Hj.
           eapply Fl.ltb_leb_trans; [exact Hxm|]. apply Hle. eapply nth_error_In, Hy.
Qed.

Lemma argmin_spec (l : list float) :
  l <> [] ->
  exists k v, Np.argmin l = Ok k /\ nth_error l k = Some v /\
    (forall y, In y l -> (y <? v)%float = false) /\
    (Forall (fun y => is_nan y = false) l ->
     (forall y, In y l -> (v <=? y)%float = true) /\
     (forall j y, j < k -> nth_error l j = Some y -> (v <? y)%float = true)).
Proof.
  destruct l as [|x l]; [congruence|]. intros _. simpl.
  destruct (is_nan x) eqn:Ex.
  - exists 0, x. split; [reflexivity|]. split; [reflexivity|]. split.
    + intros y _. apply Fl.ltb_nan_r, Ex.
    + intros H. inversion H; congruence.
  - destruct (@argmin_scan_spec l [x] x 0) as (v & Hv & Hcase).
    + constructor; [exact Ex|constructor].
    + reflexivity.
    + intros y [<-|[]]. apply Fl.leb_refl, Ex.
    + intros j y Hj. lia.
    + simpl in Hv, Hcase. exists (Np.argmin_scan x 0 1 l), v.
      split; [reflexivity|]. split; [exact Hv|].
      destruct Hcase as [Hn|(Hnum & Hle & Hlt)].
      * split; [intros y _; apply Fl.ltb_nan_r, Hn|].
        intros H. rewrite Forall_forall in H.
        rewrite H in Hn by (eapply nth_error_In, Hv). discriminate.
      * split; [intros y Hy; apply Fl.leb_ltb_false, Hle, Hy|]. auto.
Qed.

(** Python's [min] and [index] on the counts. *)
Lemma min_nat_fold (xs : list nat) : forall acc : nat,
  let m := fold_left (fun m y => if y <? m then y else m) xs acc in
  In m (acc :: xs) /\ forall y, In y (acc :: xs) -> m <= y.
Proof.
  induction xs as [|x xs IH]; intros acc; simpl.
  - split; [auto|]. intros y [<-|[]]. lia.
  - destruct (Nat.ltb_spec x acc) as [H|H].
    + destruct (IH x) as [Hin Hle]. split.
      * destruct Hin as [<-|Hin]; auto.
      * intros y [<-|[<-|Hy]]; [|apply Hle; left; reflexivity|apply Hle; right; exact Hy].
        specialize (Hle x (or_introl eq_refl)). lia.
    + destruct (IH acc) as [Hin Hle]. split.
      * destruct Hin as [<-|Hin]; auto.
      * intros y [<-|[<-|Hy]]; [apply Hle; left; reflexivity| |apply Hle; right; exact Hy].
        specialize (Hle acc (or_introl eq_refl)). lia.
Qed.

Lemma index_spec (v : nat) (l : list nat) :
  In v l ->
  exists k, Py.index Nat.eqb v l = Ok k /\ nth_error l k = Some v /\
            forall j y, j < k -> nth_error l j = Some y -> y <> v.
Proof.
  induction l as [|x l IH]; intros Hin; [contradiction|]. simpl.
  destruct (Nat.eqb_spec x v) as [->|N].
  - exists 0. split; [reflexivity|]. split; [reflexivity|]. intros j y Hj. lia.
  - destruct Hin as [->|Hin]; [congruence|].
    destruct (IH Hin) as (k & Hk & Hnth & Hlt). rewrite Hk. simpl.
    exists (S k). split; [reflexivity|]. split; [exact Hnth|].
    intros [|j] y Hj Hy; simpl in Hy.
    + injection Hy as <-. exact N.
    + apply (Hlt j); [lia|exact Hy].
Qed.

End RelFacts.

Module RelOrder.

Lemma increasing_nth (l : list nat) :
  StronglySorted lt l ->
  forall k' k x y, k' < k -> nth_error l k' = Some x -> nth_error l k = Some y -> x < y.
Proof.
  induction 1 as [|a l Hs IH Hall]; intros k' k x y Hk Hx Hy.
  - destruct k; discriminate.
  - destruct k as [|k]; [lia|]. simpl in Hy. destruct k' as [|k']; simpl in Hx.
    + injection Hx as <-. rewrite Forall_forall in Hall. apply Hall.
      eapply nth_error_In, Hy.
    + apply (IH k' k); [lia|exact Hx|exact Hy].
Qed.

Lemma filter_seq_increasing {A} (f : nat * A -> bool) (a : list A) : forall s : nat,
  StronglySorted lt (map fst (filter f (combine (seq s (length a)) a))).
Proof.
  induction a as [|x a IH]; intros s; simpl; [constructor|].
  destruct (f (s, x)); simpl; [|apply IH].
  constructor; [apply IH|]. apply Forall_forall. intros j Hj.
  apply in_map_iff in Hj as ([j' y] & <- & Hin). apply filter_In in Hin as [Hin _].
  apply in_combine_l, in_seq in Hin. simpl. lia.
Qed.

(** The positions [np.where] returns come in increasing order. *)
Lemma where_eq_increasing (a : list nat) (v : nat) :
  forall k' k x y, k' < k ->
    nth_error (Np.where_eq a v) k' = Some x -> nth_error (Np.where_eq a v) k = Some y ->
    x < y.
Proof. apply increasing_nth. unfold Np.where_eq, enumerate. apply filter_seq_increasing. Qed.

End RelOrder.

(** What [lowest_conf] computes for an aligned molecule, by the round
    of the threshold scan that decides it. *)
Lemma lowest_conf_cases (ref_row : list float) (others : list (list float)) :
  let mol_array := ref_row :: others in
  let n := length ref_row in
  aligned mol_array ->
  exists z, lowest_conf mol_array = Ok z /\ z < n /\
    ((exists t, t < n /\ missing_count mol_array z = t /\
        (forall t' j, t' < t -> j < n -> missing_count mol_array j <> t') /\
        (forall j, j < n -> missing_count mol_array j = t ->
           (nth j ref_row 0 <? nth z ref_row 0)%float = false) /\
        ((forall j, j < n -> missing_count mol_array j = t ->
            is_nan (nth j ref_row 0%float) = false) ->
         forall j, j < n -> missing_count mol_array j = t ->
           (nth z ref_row 0 <=? nth j ref_row 0)%float = true /\
           (j < z -> (nth z ref_row 0 <? nth j ref_row 0)%float = true))) \/
     ((forall t j, t < n -> j < n -> missing_count mol_array j <> t) /\
      (forall j, j < n -> missing_count mol_array z <= missing_count mol_array j) /\
      (forall j, j < z -> missing_count mol_array z < missing_count mol_array j))).
Proof.
  intros mol_array n [Hne Hal].
  set (nc := map (missing_count mol_array) (seq 0 n)).
  assert (Hlen : length nc = n) by (subst nc; rewrite length_map, length_seq; reflexivity).
  assert (Hnc : forall j, j < n -> nth_error nc j = Some (missing_count mol_array j)).
  { intros j Hj. subst nc. rewrite nth_error_map, nth_error_seq.
    destruct (Nat.ltb_spec j n); [reflexivity|lia]. }
  assert (Hnc' : forall j c, nth_error nc j = Some c -> j < n /\ missing_count mol_array j = c).
  { intros j c Hj. assert (j < n) by (rewrite <- Hlen; apply nth_error_Some; congruence).
    rewrite Hnc in Hj by assumption. injection Hj as <-. auto. }
  assert (Hcounts : nan_counts mol_array n = Ok nc).
  { apply RelFacts.nan_counts_ok. constructor; [subst n; lia|].
    eapply Forall_impl; [|exact Hal]. simpl. intros row ->. subst n. lia. }
  assert (Hn : 0 < n) by (subst n; destruct ref_row; [congruence|simpl; lia]).
  unfold lowest_conf. simpl get. simpl bind. fold n. rewrite Hcounts. simpl bind.
  destruct (RelFacts.scan_counts_spec nc n 0) as [[Hr Hnone]|(t0 & Ht0 & Hr & Hrne & Hfirst)].
  - (* no threshold below [n] has a position *)
    rewrite Hr.
    assert (Hnone' : forall t j, t < n -> j < n -> missing_count mol_array j <> t).
    { intros t j Ht Hj E. specialize (Hnone t ltac:(lia)).
      assert (In j (Np.where_eq nc t)) by (apply RelFacts.in_where_eq; rewrite Hnc; congruence).
      rewrite Hnone in H. contradiction. }
    destruct nc as [|c0 cs] eqn:Enc; [simpl in Hlen; lia|].
    simpl bind.
    destruct (RelFacts.min_nat_fold cs c0) as [Hin Hle].
    set (m := fold_left (fun m y => if y <? m then y else m) cs c0) in *.
    destruct (RelFacts.index_spec m (c0 :: cs) Hin) as (z & Hz & Hnth & Hlt).
    exists z. split; [exact Hz|].
    destruct (Hnc' z m Hnth) as [Hzn Hzm].
    split; [exact Hzn|]. right. split; [exact Hnone'|]. split.
    + intros j Hj. rewrite Hzm. apply Hle. eapply nth_error_In. apply Hnc, Hj.
    + intros j Hj. rewrite Hzm.
      assert (Hjn : j < n) by lia.
      assert (missing_count mol_array j <> m) by (apply (Hlt j); [exact Hj|apply Hnc, Hjn]).
      assert (m <= missing_count mol_array j)
        by (apply Hle; eapply nth_error_In; apply Hnc, Hjn).
      lia.
  - (* [t0] is the first threshold with positions *)
    set (r := scan_counts nc n 0 []) in *.
    assert (Hin_r : forall j, In j r <-> j < n /\ missing_count mol_array j = t0).
    { intros j. rewrite Hr, RelFacts.in_where_eq. split.
      - apply Hnc'.
      - intros [Hj <-]. apply Hnc, Hj. }
    destruct r as [|j0 js] eqn:Er; [congruence|]. rewrite <- Er in *.
    assert (Htake : Np.take ref_row r = Ok (map (fun j => nth j ref_row 0%float) r)).
    { apply PyFacts.mapM_map. intros j Hj. apply RelFacts.get_nth0.
      apply Hin_r in Hj. fold n. tauto. }
    rewrite Htake. simpl bind.
    destruct (@RelFacts.argmin_spec (map (fun j => nth j ref_row 0%float) r))
      as (k & v & Hk & Hv & Hlow & Hnum).
    { rewrite Er. discriminate. }
    rewrite Hk. simpl bind. rewrite nth_error_map in Hv.
    destruct (nth_error r k) as [z|] eqn:Ez; [|discriminate]. injection Hv as <-.
    exists z. split; [unfold get; rewrite Ez; reflexivity|].
    assert (Hz : j0 :: js = r) by (symmetry; exact Er).
    destruct (proj1 (Hin_r z) (nth_error_In _ _ Ez)) as [Hzn Hzt].
    split; [exact Hzn|]. left. exists t0. split; [lia|]. split; [exact Hzt|]. split.
    + intros t' j Ht' Hj E.
      assert (In j (Np.where_eq nc t')) by (apply RelFacts.in_where_eq; rewrite Hnc; congruence).
      rewrite Hfirst in H by lia. contradiction.
    + split.
      * intros j Hj Hjt. apply Hlow. apply in_map_iff. exists j.
        split; [reflexivity|]. apply Hin_r. auto.
      * intros Hnn j Hj Hjt.
        destruct Hnum as [Hle Hlt].
        { apply Forall_map, Forall_forall. intros x Hx. apply Hin_r in Hx as [? ?]. auto. }
        assert (Hjr : In j r) by (apply Hin_r; auto).
        split; [apply Hle, in_map_iff; exists j; auto|].
        intros Hjz. apply In_nth_error in Hjr as (k' & Hk').
        apply (Hlt k'); [|rewrite nth_error_map, Hk'; reflexivity].
        destruct (Nat.lt_trichotomy k' k) as [L|[E|L]]; [exact L| |].
        -- subst k'. rewrite Ez in Hk'. injection Hk' as ->. lia.
        -- rewrite Hr in Ez, Hk'.
           pose proof (RelOrder.where_eq_increasing _ _ L Ez Hk'). lia.
Qed.

(** C4. For a molecule whose rows are aligned on a reference row of
    [n >= 1] conformers, [calc_rel_ene] selects the position [z < n] by
    the two stages. Stage one: when some threshold [t] among
    [0, 1, ..., n - 1] is the missing-count of a position and no smaller
    threshold is, [z] is a position with missing-count [t] and no
    position with missing-count [t] has a lower energy in the reference
    row (when they are numbers the reference energy of [z] is below or
    equal to each of theirs, and strictly below those of the candidates
    before [z]). Fallback: when no threshold among
    [0, ..., n - 1] is the missing-count of a position, [z] is the first
    position with the least missing-count, whatever the energies. *)
Theorem lowest_conf_two_stage (ref_row : list float) (others : list (list float)) :
  let mol_array := ref_row :: others in
  let n := length ref_row in
  aligned mol_array ->
  exists z, lowest_conf mol_array = Ok z /\ z < n /\
    (forall t, t < n ->
       (exists j, j < n /\ missing_count mol_array j = t) ->
       (forall t' j, t' < t -> j < n -> missing_count mol_array j <> t') ->
       missing_count mol_array z = t /\
       (forall j, j < n -> missing_count mol_array j = t ->
          (nth j ref_row 0 <? nth z ref_row 0)%float = false) /\
       ((forall j, j < n -> missing_count mol_array j = t ->
           is_nan (nth j ref_row 0%float) = false) ->
        forall j, j < n -> missing_count mol_array j = t ->
          (nth z ref_row 0 <=? nth j ref_row 0)%float = true /\
          (j < z -> (nth z ref_row 0 <? nth j ref_row 0)%float = true))) /\
    ((forall t j, t < n -> j < n -> missing_count mol_array j <> t) ->
     (forall j, j < n -> missing_count mol_array z <= missing_count mol_array j) /\
     (forall j, j < z -> missing_count mol_array z < missing_count mol_array j)).
Proof.
  intros mol_array n Hal.
  destruct (@lowest_conf_cases ref_row others Hal) as (z & Hz & Hzn & Hcase).
  fold mol_array n in Hz, Hzn, Hcase.
  exists z. split; [exact Hz|]. split; [exact Hzn|].
  destruct Hcase as [(t0 & Ht0 & Hzt & Hmin & Hlow & Hnum)|(Hnone & Hle & Hlt)].
  - split.
    + intros t Ht (j & Hj & Hjt) Hfirst.
      assert (Et : t = t0).
      { destruct (Nat.lt_trichotomy t t0) as [L|[E|L]]; [|exact E|].
        - exfalso. apply (Hmin t j L Hj Hjt).
        - exfalso. apply (Hfirst t0 z L Hzn Hzt). }
      rewrite Et. split; [exact Hzt|split; [exact Hlow|exact Hnum]].
    + intros Hnone. exfalso. apply (Hnone t0 z Ht0 Hzn Hzt).
  - split.
    + intros t Ht (j & Hj & Hjt) _. exfalso. apply (Hnone t j Ht Hj Hjt).
    + intros _. split; assumption.
Qed.

Module RelEne.

Lemma mapM_Forall2 {A B} (f : A -> result B) (l : list A) : forall bs,
  mapM f l = Ok bs -> Forall2 (fun a b => f a = Ok b) l bs.
Proof.
  induction l as [|a l IH]; simpl; intros bs H.
  - injection H as <-. constructor.
  - apply PyFacts.bind_ok in H as (b & Hb & H).
    apply PyFacts.bind_ok in H as (bs' & H' & H). injection H as <-.
    constructor; [exact Hb|apply IH, H'].
Qed.

Lemma Forall2_nth {A B} (R : A -> B -> Prop) (l : list A) (l' : list B) :
  Forall2 R l l' -> forall i a, nth_error l i = Some a ->
  exists b, nth_error l' i = Some b /\ nth_error (combine l' l) i = Some (b, a) /\ R a b.
Proof.
  induction 1 as [|x y l l' Hxy _ IH]; intros [|i] a Hi; simpl in *; try discriminate.
  - injection Hi as <-. eauto.
  - apply IH, Hi.
Qed.

Lemma Forall2_in_combine {A B} (R : A -> B -> Prop) (l : list A) (l' : list B) :
  Forall2 R l l' -> forall a b, In (b, a) (combine l' l) -> In a l /\ R a b.
Proof.
  induction 1 as [|x y l l' Hxy _ IH]; intros a b Hin; simpl in *; [contradiction|].
  destruct Hin as [E|Hin].
  - injection E as <- <-. auto.
  - destruct (IH a b Hin). auto.
Qed.

Lemma rel_file_ok (z : nat) (fileE : list float) :
  z < length fileE ->
  rel_file z fileE = Ok (map (fun a => (a - nth z fileE 0)%float) fileE).
Proof.
  intros Hz. unfold rel_file.
  rewrite (PyFacts.mapM_map _ (fun i => (nth i fileE 0 - nth z fileE 0)%float)).
  - f_equal.
    transitivity (map (fun a => (a - nth z fileE 0)%float)
                      (map (fun i => nth i fileE 0%float) (seq 0 (length fileE)))).
    + rewrite map_map. reflexivity.
    + rewrite RelFacts.map_nth_seq. reflexivity.
  - intros i Hi. apply in_seq in Hi.
    rewrite !RelFacts.get_nth0 by lia. reflexivity.
Qed.

Lemma aligned_rows (mol_array : list (list float)) (z : nat) :
  aligned mol_array -> lowest_conf mol_array = Ok z ->
  forall fileE, In fileE mol_array -> z < length fileE.
Proof.
  destruct mol_array as [|ref_row others]; [contradiction|]. intros Hal Hz.
  destruct (@lowest_conf_cases ref_row others Hal) as (z' & Hz' & Hlt & _).
  rewrite Hz in Hz'. injection Hz' as <-.
  destruct Hal as [_ Hal]. rewrite Forall_forall in Hal.
  intros fileE [<-|Hin]; [exact Hlt|]. rewrite (Hal _ Hin). exact Hlt.
Qed.

Lemma sub_self_not_finite (x : float) :
  is_finite x = false -> is_nan (x - x) = true.
Proof.
  unfold is_finite. intros H. apply negb_false_iff, orb_true_iff in H as [H|H].
  - apply Fl.sub_nan_l, H.
  - rewrite Fl.is_infinity_spec in H. rewrite Fl.is_nan_spec, sub_spec.
    destruct (Prim2SF x) as [s|s| |s m e]; try discriminate. destruct s; reflexivity.
Qed.

Lemma sub_self_finite (x : float) : is_finite x = true -> (x - x)%float = 0%float.
Proof.
  unfold is_finite. intros H. apply negb_true_iff, orb_false_iff in H as [H1 H2].
  apply Fl.sub_self; assumption.
Qed.

End RelEne.

(** C1, as amended. For molecules whose rows are aligned,
    [calc_rel_ene] returns the relative energies and the reference
    position [z] of each molecule, and in every method's row the
    relative energy at [z] is exactly 0 when the matched energy of that
    row at [z] is a finite number; when it is the missing value (or is
    not finite) the relative energy at [z] is the missing value. *)
Theorem calc_rel_ene_reference_zero (matched_enes : list (list (list float))) :
  Forall aligned matched_enes ->
  exists rel_energies lowest_conf_indices,
    calc_rel_ene matched_enes = Ok (rel_energies, lowest_conf_indices) /\
    forall i molE, nth_error matched_enes i = Some molE ->
    exists z relE,
      nth_error lowest_conf_indices i = Some z /\
      nth_error rel_energies i = Some relE /\
      forall m fileE, nth_error molE m = Some fileE ->
      exists x relFile,
        nth_error fileE z = Some x /\
        nth_error relE m = Some relFile /\
        (is_finite x = true -> nth_error relFile z = Some 0%float) /\
        (is_finite x = false ->
         exists r, nth_error relFile z = Some r /\ is_nan r = true).
Proof.
  intros Hal. unfold calc_rel_ene.
  destruct (@PyFacts.mapM_total _ _ lowest_conf matched_enes) as (zs & Hzs).
  { intros molE Hin. rewrite Forall_forall in Hal. specialize (Hal molE Hin).
    destruct molE as [|ref_row others]; [contradiction|].
    destruct (@lowest_conf_cases ref_row others Hal) as (z & Hz & _). eauto. }
  rewrite Hzs. simpl bind.
  pose proof (RelEne.mapM_Forall2 _ _ Hzs) as F2.
  set (rel := fun p : nat * list (list float) =>
                map (fun fileE => map (fun a => (a - nth (fst p) fileE 0)%float) fileE) (snd p)).
  rewrite (PyFacts.mapM_map _ rel).
  2:{ intros [z molE] Hin. simpl.
      destruct (RelEne.Forall2_in_combine F2 _ _ Hin) as [HinM Hz].
      apply PyFacts.mapM_map. intros fileE HfE. apply RelEne.rel_file_ok.
      rewrite Forall_forall in Hal. eapply RelEne.aligned_rows; eauto. }
  simpl bind. eexists _, zs. split; [reflexivity|].
  intros i molE Hi.
  destruct (RelEne.Forall2_nth F2 _ Hi) as (z & Hzi & Hcomb & Hz).
  exists z, (rel (z, molE)). split; [exact Hzi|].
  split; [rewrite nth_error_map, Hcomb; reflexivity|].
  intros m fileE Hm.
  assert (Hlt : z < length fileE).
  { rewrite Forall_forall in Hal. eapply RelEne.aligned_rows; eauto.
    - apply Hal. eapply nth_error_In, Hi.
    - eapply nth_error_In, Hm. }
  exists (nth z fileE 0%float), (map (fun a => (a - nth z fileE 0)%float) fileE).
  split; [apply nth_error_nth', Hlt|].
  split; [unfold rel; simpl; rewrite nth_error_map, Hm; reflexivity|].
  rewrite nth_error_map, (nth_error_nth' fileE 0%float Hlt). simpl. split.
  - intros Hf. rewrite RelEne.sub_self_finite by exact Hf. reflexivity.
  - intros Hf. eexists. split; [reflexivity|]. apply RelEne.sub_self_not_finite, Hf.
Qed.

(** ** ErrorAnalyzer: [calc_rms_error] *)

(** The pairs (method value, reference value) the specification keeps:
    those at a position other than [z] where neither value is missing. *)
Definition included (z : nat) (row ref_row : list float) : list (float * float) :=
  map snd
      (filter (fun p : nat * (float * float) =>
                 negb (fst p =? z) && negb (is_nan (fst (snd p)))
                 && negb (is_nan (snd (snd p))))
              (enumerate (combine row ref_row))).

Definition sq_err (p : float * float) : float :=
  ((fst p - snd p) * (fst p - snd p))%float.

(** The RMS error in the specification's words: the root of the mean of
    the squared differences over the included positions, the mean
    dividing their sum by their number.  The sum of floating-point
    numbers depends on the order of the additions: it is the sum of
    [np.sum], in the order of the positions. *)
Definition rms_spec (z : nat) (row ref_row : list float) : float :=
  let sqs := map sq_err (included z row ref_row) in
  sqrt (Np.sum sqs / Np.float_of_count (length sqs)).

(** The items of a row at the positions other than [z]. *)
Definition others_than (z : nat) (row : list float) : list float :=
  firstn z row ++ skipn (S z) row.

Module RmsFacts.

Lemma filter_all {A} (f : A -> bool) (l : list A) :
  (forall a, In a l -> f a = true) -> filter f l = l.
Proof.
  induction l as [|a l IH]; simpl; intros H; [reflexivity|].
  rewrite H by auto. rewrite IH by auto. reflexivity.
Qed.

Lemma filter_map_comm {A B} (f : A -> B) (p : B -> bool) (l : list A) :
  filter p (map f l) = map f (filter (fun a => p (f a)) l).
Proof.
  induction l as [|a l IH]; simpl; [reflexivity|].
  destruct (p (f a)); simpl; rewrite IH; reflexivity.
Qed.

Lemma filter_filter {A} (p q : A -> bool) (l : list A) :
  filter q (filter p l) = filter (fun a => p a && q a) l.
Proof.
  induction l as [|a l IH]; simpl; [reflexivity|].
  destruct (p a); simpl; [destruct (q a)|]; rewrite IH; reflexivity.
Qed.

Lemma map_snd_combine_seq {A} (l : list A) : forall s : nat,
  map snd (combine (seq s (length l)) l) = l.
Proof.
  induction l as [|x l IH]; intros s; simpl; [reflexivity|]. rewrite IH. reflexivity.
Qed.

(** Deleting position [z] is keeping the positions that are not [z]. *)
Lemma delete_as_filter {A} (l : list A) : forall s z : nat,
  firstn z l ++ skipn (S z) l =
  map snd (filter (fun p : nat * A => negb (fst p =? s + z)) (combine (seq s (length l)) l)).
Proof.
  induction l as [|x l IH]; intros s z.
  - destruct z; reflexivity.
  - destruct z as [|z].
    + simpl. rewrite Nat.add_0_r, Nat.eqb_refl. simpl.
      rewrite filter_all; [rewrite map_snd_combine_seq; reflexivity|].
      intros [j a] Hin. apply in_combine_l, in_seq in Hin. simpl.
      destruct (Nat.eqb_spec j s); [lia|reflexivity].
    + change (firstn (S z) (x :: l) ++ skipn (S (S z)) (x :: l))
        with (x :: (firstn z l ++ skipn (S z) l)).
      rewrite (IH (S s) z). replace (S s + z) with (s + S z) by lia.
      simpl. destruct (Nat.eqb_spec s (s + S z)); [lia|]. reflexivity.
Qed.

Lemma is_nan_sub (a b : float) :
  is_infinity a = false -> is_infinity b = false ->
  is_nan (a - b) = is_nan a || is_nan b.
Proof.
  intros Ha Hb. destruct (is_nan a) eqn:Ea; [apply Fl.sub_nan_l, Ea|].
  destruct (is_nan b) eqn:Eb; [apply Fl.sub_nan_r, Eb|].
  apply Fl.sub_not_nan; auto.
Qed.

Lemma combine_self {A} (l : list A) : combine l l = map (fun x => (x, x)) l.
Proof. induction l as [|a l IH]; simpl; [reflexivity|]. rewrite IH. reflexivity. Qed.

End RmsFacts.

Lemma delete_ok (a : list float) (z : nat) :
  z < length a -> Np.delete a z = Ok (others_than z a).
Proof.
  intros H. unfold Np.delete. destruct (Nat.ltb_spec z (length a)); [reflexivity|lia].
Qed.

(** The squares [calc_rms_error] averages are those of the included
    pairs, when no value is infinite. *)
Lemma kept_squares (z : nat) (row ref_row : list float) :
  Forall (fun x => is_infinity x = false) row ->
  Forall (fun x => is_infinity x = false) ref_row ->
  Np.drop_nan
    (others_than z (Np.square (map (fun p => (fst p - snd p)%float) (combine row ref_row)))) =
  map sq_err (included z row ref_row).
Proof.
  intros Hrow Href. unfold Np.square, Np.drop_nan, others_than, included, enumerate.
  rewrite map_map.
  rewrite (RmsFacts.delete_as_filter (map _ (combine row ref_row)) 0 z).
  rewrite length_map. simpl plus.
  set (L := combine row ref_row).
  assert (E : combine (seq 0 (length L)) (map sq_err L) =
              map (fun p => (fst p, sq_err (snd p))) (combine (seq 0 (length L)) L)).
  { generalize 0. induction L as [|p L IH]; intros s; simpl; [reflexivity|].
    rewrite IH. reflexivity. }
  change (fun x : float * float => ((fst x - snd x) * (fst x - snd x))%float) with sq_err.
  rewrite E, RmsFacts.filter_map_comm, RmsFacts.filter_filter, RmsFacts.filter_map_comm.
  rewrite !map_map. simpl.
  f_equal. apply filter_ext_in. intros [j [a b]] Hin. simpl.
  apply in_combine_r in Hin. subst L.
  rewrite Forall_forall in Hrow, Href.
  pose proof (Hrow a (in_combine_l _ _ _ _ Hin)).
  pose proof (Href b (in_combine_r _ _ _ _ Hin)).
  unfold sq_err. simpl. rewrite Fl.mul_self_is_nan, RmsFacts.is_nan_sub by assumption.
  rewrite negb_orb, andb_assoc. reflexivity.
Qed.

(** One row against the reference row: the RMS error is the one the
    specification states. *)
Lemma rms_file_ok (lowest_conf_indices : list nat) (i : nat)
  (mol_array : list (list float)) (filelist ref_row : list float) (z : nat) :
  nth_error mol_array 0 = Some ref_row ->
  nth_error lowest_conf_indices i = Some z ->
  length filelist = length ref_row -> z < length ref_row ->
  Forall (fun x => is_infinity x = false) filelist ->
  Forall (fun x => is_infinity x = false) ref_row ->
  rms_file lowest_conf_indices i mol_array filelist = Ok (rms_spec z filelist ref_row) /\
  (included z filelist ref_row = [] -> rms_spec z filelist ref_row = nan).
Proof.
  intros Href Hz Hlen Hzlt Hf Hr. split.
  - unfold rms_file, get. rewrite Href. simpl bind.
    unfold Np.sub. rewrite Hlen, Nat.eqb_refl. simpl bind. rewrite Hz. simpl bind.
    rewrite delete_ok
      by (unfold Np.square; rewrite !length_map, length_combine; lia).
    simpl bind.
    rewrite kept_squares by assumption. reflexivity.
  - intros E. unfold rms_spec. rewrite E. reflexivity.
Qed.

(** What [calc_rms_error] is given for one molecule: relative energies
    aligned on the reference row, none infinite, and a reference
    position [z] in that row. *)
Definition rms_input (mol_array : list (list float)) (z : nat) : Prop :=
  aligned mol_array /\
  Forall (Forall (fun x => is_infinity x = false)) mol_array /\
  z < length (hd [] mol_array).

(** C5. For molecules whose relative energies are aligned on the
    reference row and hold no infinite value, each with its reference
    position [z], [calc_rms_error] returns for every molecule and every
    method row the root of the mean of
    [(relative_method[j] - relative_reference[j])^2] over the positions
    [j <> z] where neither value is missing, the mean being the sum
    divided by the number of included positions (the population mean);
    with no included position the result is the missing marker [nan]. *)
Theorem calc_rms_error_spec (rel_energies : list (list (list float)))
  (lowest_conf_indices : list nat) :
  Forall2 rms_input rel_energies lowest_conf_indices ->
  exists rms_array,
    calc_rms_error rel_energies lowest_conf_indices = Ok rms_array /\
    forall i mol_array ref_row j filelist,
      nth_error rel_energies i = Some mol_array ->
      nth_error mol_array 0 = Some ref_row ->
      nth_error mol_array j = Some filelist ->
      exists z mol_rmses,
        nth_error lowest_conf_indices i = Some z /\
        nth_error rms_array i = Some mol_rmses /\
        nth_error mol_rmses j = Some (rms_spec z filelist ref_row) /\
        (included z filelist ref_row = [] -> rms_spec z filelist ref_row = nan).
Proof.
  intros Hin. unfold calc_rms_error.
  set (g := fun p : nat * list (list float) =>
              map (fun filelist =>
                     rms_spec (nth (fst p) lowest_conf_indices 0) filelist (hd [] (snd p)))
                  (snd p)).
  assert (Hrow : forall i mol_array, nth_error rel_energies i = Some mol_array ->
            exists z ref_row,
              nth_error lowest_conf_indices i = Some z /\
              nth i lowest_conf_indices 0 = z /\
              nth_error mol_array 0 = Some ref_row /\ hd [] mol_array = ref_row /\
              forall filelist, In filelist mol_array ->
                rms_file lowest_conf_indices i mol_array filelist =
                  Ok (rms_spec z filelist ref_row) /\
                (included z filelist ref_row = [] -> rms_spec z filelist ref_row = nan)).
  { intros i mol_array Hi.
    destruct (RelEne.Forall2_nth Hin _ Hi) as (z & Hz & _ & (Hal & Hnum & Hlt)).
    destruct mol_array as [|ref_row others]; [contradiction|].
    exists z, ref_row. split; [exact Hz|].
    split; [apply nth_error_nth, Hz|]. split; [reflexivity|]. split; [reflexivity|].
    intros filelist Hf. simpl in Hlt.
    rewrite Forall_forall in Hnum.
    apply rms_file_ok; auto.
    - destruct Hal as [_ Hal]. destruct Hf as [<-|Hf]; [reflexivity|].
      rewrite Forall_forall in Hal. auto.
    - apply Hnum. left. reflexivity. }
  rewrite (PyFacts.mapM_map _ g).
  2:{ intros [i mol_array] Hp. simpl.
      apply RelFacts.in_combine_seq in Hp as [_ Hp]. rewrite Nat.sub_0_r in Hp.
      destruct (Hrow i mol_array Hp) as (z & ref_row & _ & Hz & _ & Hhd & Hfile).
      apply PyFacts.mapM_map. intros filelist Hf. unfold g. simpl.
      rewrite Hz, Hhd. apply Hfile, Hf. }
  eexists. split; [reflexivity|].
  intros i mol_array ref_row j filelist Hi Href Hj.
  destruct (Hrow i mol_array Hi) as (z & ref_row' & Hz & Hz' & Href' & Hhd & Hfile).
  rewrite Href in Href'. injection Href' as <-.
  exists z, (g (i, mol_array)). split; [exact Hz|].
  split; [rewrite nth_error_map, (PyFacts.nth_error_enumerate _ _ Hi); reflexivity|].
  split.
  - unfold g. simpl. rewrite nth_error_map, Hj, Hz', Hhd. reflexivity.
  - apply (Hfile filelist). eapply nth_error_In, Hj.
Qed.

(** The squares of a row against itself: a zero per finite value. *)
Lemma kept_squares_self (z : nat) (row : list float) :
  Np.drop_nan
    (others_than z (Np.square (map (fun p => (fst p - snd p)%float) (combine row row)))) =
  map (fun _ => 0%float) (filter is_finite (others_than z row)).
Proof.
  assert (E : Np.square (map (fun p => (fst p - snd p)%float) (combine row row)) =
              map (fun x => ((x - x) * (x - x))%float) row).
  { unfold Np.square. rewrite RmsFacts.combine_self, !map_map. reflexivity. }
  rewrite E. unfold others_than, Np.drop_nan.
  rewrite firstn_map, skipn_map, <- map_app.
  induction (firstn z row ++ skipn (S z) row) as [|x l IH]; simpl; [reflexivity|].
  rewrite Fl.mul_self_is_nan. destruct (is_finite x) eqn:F.
  - rewrite (RelEne.sub_self_finite _ F). simpl. rewrite IH. reflexivity.
  - rewrite (RelEne.sub_self_not_finite _ F). simpl. exact IH.
Qed.

(** C8, as amended. For a molecule of two conformers or more, the RMS
    error of a row compared against that same row (the reference method
    against itself) is exactly 0 when some position other than [z]
    holds a finite value, and the missing marker [nan] when none does.
    The row has fewer than [2^63] items, as every Python list has. *)
Theorem rms_file_self (lowest_conf_indices : list nat) (i : nat)
  (mol_array : list (list float)) (row : list float) (z : nat) :
  nth_error mol_array 0 = Some row ->
  nth_error lowest_conf_indices i = Some z ->
  1 < length row ->
  z < length row -> (Z.of_nat (length row) < Uint63.wB)%Z ->
  rms_file lowest_conf_indices i mol_array row =
    Ok (if existsb is_finite (others_than z row) then 0%float else nan).
Proof.
  intros Href Hz _ Hzlt Hsize.
  unfold rms_file, get. rewrite Href. simpl bind.
  unfold Np.sub. rewrite Nat.eqb_refl. simpl bind. rewrite Hz. simpl bind.
  rewrite delete_ok
    by (unfold Np.square; rewrite !length_map, length_combine; lia).
  simpl bind.
  rewrite kept_squares_self. f_equal.
  assert (Hlen : length (filter is_finite (others_than z row)) <= length row).
  { etransitivity; [apply filter_length_le|]. unfold others_than.
    rewrite length_app, length_firstn, length_skipn. lia. }
  destruct (filter is_finite (others_than z row)) as [|x xs] eqn:E.
  - assert (X : existsb is_finite (others_than z row) = false).
    { destruct (existsb is_finite (others_than z row)) eqn:X; [|reflexivity].
      apply existsb_exists in X as (y & Hy & Fy).
      assert (Hin : In y (filter is_finite (others_than z row))) by (apply filter_In; auto).
      rewrite E in Hin. contradiction. }
    rewrite X. reflexivity.
  - assert (X : existsb is_finite (others_than z row) = true).
    { apply existsb_exists. exists x.
      apply filter_In. rewrite E. left. reflexivity. }
    rewrite X. unfold Np.mean.
    rewrite NpFacts.sum_zeros by (apply Forall_map, Forall_forall; reflexivity).
    rewrite Fl.div_zero_positive; [reflexivity|].
    apply Fl.of_count_positive. rewrite length_map. simpl length in *. lia.
Qed.

(** ** MatchOrchestrator: [match_minima] *)

Module DictFacts.

Lemma foldM_invariant {A S} (P : S -> Prop) (f : S -> A -> result S) (l : list A) :
  (forall s a s', In a l -> P s -> f s a = Ok s' -> P s') ->
  forall s s', P s -> foldM f l s = Ok s' -> P s'.
Proof.
  induction l as [|a l IH]; simpl; intros Hstep s s' Hs H.
  - injection H as <-. exact Hs.
  - apply PyFacts.bind_ok in H as (s1 & H1 & H2).
    apply (IH (fun s a s' Hin => Hstep s a s' (or_intror Hin)) s1 s'); [|exact H2].
    eapply Hstep; eauto.
Qed.

End DictFacts.

Section Orchestrator.

Variable Geom : Type.
Variable OERMSD : Geom -> Geom -> bool -> bool -> bool -> float.
Variable read_mols : string -> list (Mol Geom).
Variable py_float : string -> result float.

(** A conformer index [compare_two_mols] stores codes an outcome. *)
Lemma compare_two_mols_codes (rmol qmol : Mol Geom) (rmsd_cutoff : float)
  (molIndices : list (option Z)) :
  compare_two_mols OERMSD rmol qmol rmsd_cutoff = Ok molIndices ->
  exists outcomes, molIndices = map encode outcomes /\
                   length outcomes = length (confs rmol).
Proof.
  unfold compare_two_mols. revert molIndices.
  induction (confs rmol) as [|r rs IH]; simpl; intros molIndices H.
  - injection H as <-. exists []. auto.
  - apply PyFacts.bind_ok in H as (c & Hc & H).
    apply PyFacts.bind_ok in H as (cs & Hcs & H). injection H as <-.
    destruct (IH cs Hcs) as (os & -> & Hlen).
    unfold match_conf in Hc.
    apply PyFacts.bind_ok in Hc as (k & _ & Hc).
    apply PyFacts.bind_ok in Hc as (dist & _ & Hc). injection Hc as <-.
    destruct (dist <=? rmsd_cutoff)%float.
    + exists (Matched k :: os). simpl. auto.
    + exists (NoMatchWithinCutoff :: os). simpl. auto.
Qed.

Lemma repeat_encode (o : MatchOutcome) (n : nat) :
  repeat (encode o) n = map encode (repeat o n).
Proof. induction n as [|n IH]; simpl; [reflexivity|]. rewrite IH. reflexivity. Qed.

End Orchestrator.

(** *** What the scan of the query generator finds *)

Lemma scan_query_found {Geom : Type} (mol_name : string) (mols_query : list (Mol Geom))
  (qmol : Mol Geom) (rest : list (Mol Geom)) :
  scan_query mol_name mols_query = (Some qmol, rest) <->
  exists skipped,
    mols_query = skipped ++ qmol :: rest /\ title qmol = mol_name /\
    Forall (fun m => title m <> mol_name) skipped.
Proof.
  split.
  - revert qmol rest. induction mols_query as [|m ms IH]; simpl; intros qmol rest H.
    + discriminate.
    + destruct (String.eqb_spec mol_name (title m)) as [E|N].
      * injection H as <- <-. exists []. auto.
      * destruct (IH _ _ H) as (sk & -> & Ht & Hsk).
        exists (m :: sk). split; [reflexivity|]. split; [exact Ht|].
        constructor; [congruence|exact Hsk].
  - intros (sk & -> & Ht & Hsk). induction Hsk as [|m sk Hm _ IH]; simpl.
    + rewrite Ht, String.eqb_refl. reflexivity.
    + destruct (String.eqb_spec mol_name (title m)); [congruence|exact IH].
Qed.

Lemma scan_query_missed {Geom : Type} (mol_name : string) (mols_query : list (Mol Geom))
  (rest : list (Mol Geom)) :
  scan_query mol_name mols_query = (None, rest) <->
  rest = [] /\ Forall (fun m => title m <> mol_name) mols_query.
Proof.
  split.
  - induction mols_query as [|m ms IH]; simpl; intros H.
    + injection H as <-. auto.
    + destruct (String.eqb_spec mol_name (title m)) as [E|N]; [discriminate|].
      destruct (IH H) as [-> Hall]. split; [reflexivity|].
      constructor; [congruence|exact Hall].
  - intros [-> Hall]. induction Hall as [|m ms Hm _ IH]; simpl; [reflexivity|].
    destruct (String.eqb_spec mol_name (title m)); [congruence|exact IH].
Qed.

(** *** What [get_sd_list] returns when every conformer has the tag *)

Lemma get_sd_list_all_tagged {Geom : Type} (mol : Mol Geom) (taglabel : string) :
  Forall (fun conf => exists x, find (tag_matches taglabel) (sd_pairs conf) = Some x)
         (confs mol) ->
  length (get_sd_list mol taglabel) = length (confs mol) /\
  forall j conf, nth_error (confs mol) j = Some conf ->
    exists x, find (tag_matches taglabel) (sd_pairs conf) = Some x /\
              nth_error (get_sd_list mol taglabel) j = Some (snd x).
Proof.
  unfold get_sd_list. induction 1 as [|c cs (x & Hx) _ [IH1 IH2]]; simpl.
  - split; [reflexivity|]. intros [|j] conf H; discriminate.
  - unfold conf_sd at 1 3. rewrite Hx. simpl. split; [f_equal; exact IH1|].
    intros [|j] conf H; simpl in H.
    + injection H as <-. eauto.
    + apply IH2, H.
Qed.

(** *** When [match_minima] returns *)

Section OrchestratorTotal.

Variable Geom : Type.
Variable OERMSD : Geom -> Geom -> bool -> bool -> bool -> float.
Variable read_mols : string -> list (Mol Geom).
Variable py_float : string -> result float.

(** A query file a method can be matched on: every molecule has a
    conformer and every energy tag value parses. *)
Definition readable (ff : string * Method) : Prop :=
  forall qmol, In qmol (read_mols (sdfile (snd ff))) ->
    confs qmol <> [] /\
    forall v, In v (get_sd_list qmol (sdtag (snd ff))) -> exists x, py_float v = Ok x.

Lemma foldM_total {A S} (P : S -> Prop) (f : S -> A -> result S) (l : list A) :
  (forall s a, In a l -> P s -> exists s', f s a = Ok s' /\ P s') ->
  forall s, P s -> exists s', foldM f l s = Ok s' /\ P s'.
Proof.
  induction l as [|a l IH]; simpl; intros Hstep s Hs; [eauto|].
  destruct (Hstep s a (or_introl eq_refl) Hs) as (s1 & H1 & P1). rewrite H1. simpl.
  apply IH; [|exact P1]. intros s0 a0 Hin. apply Hstep. right. exact Hin.
Qed.

Lemma match_rmol_total (sdf_ref : string) (ff : string * Method) (rmsd_cutoff : float)
  (st : mol_dict * list (Mol Geom)) (rmol : Mol Geom) :
  oracle_numeric OERMSD -> readable ff ->
  incl (snd st) (read_mols (sdfile (snd ff))) ->
  exists st',
    match_rmol OERMSD read_mols py_float sdf_ref (sdfile (snd ff)) (sdtag (snd ff))
               rmsd_cutoff st rmol = Ok st' /\
    incl (snd st') (read_mols (sdfile (snd ff))).
Proof.
  intros Hnum Hread Hincl. unfold match_rmol.
  destruct (scan_query (title rmol) (snd st)) as [[qmol|] rest] eqn:E.
  - apply scan_query_found in E as (skipped & Hq & _ & _).
    assert (Hin : In qmol (read_mols (sdfile (snd ff)))).
    { apply Hincl. rewrite Hq. apply in_or_app. right. left. reflexivity. }
    assert (Hrest : incl rest (read_mols (sdfile (snd ff)))).
    { intros m Hm. apply Hincl. rewrite Hq. apply in_or_app. right. right. exact Hm. }
    destruct (Hread qmol Hin) as [Hconfs Hvals].
    destruct (PyFacts.mapM_total py_float _ Hvals) as (enes & Henes).
    rewrite Henes. simpl bind.
    destruct (String.eqb (sdfile (snd ff)) sdf_ref); [eauto|].
    destruct (@PyFacts.mapM_total _ _ (match_conf OERMSD qmol rmsd_cutoff) (confs rmol))
      as (molIndices & Hm).
    { intros r _.
      destruct (@match_conf_spec _ OERMSD qmol rmsd_cutoff r Hnum Hconfs)
        as (k & q & _ & _ & _ & H). eauto. }
    unfold compare_two_mols. rewrite Hm. simpl. eauto.
  - eexists. split; [reflexivity|]. simpl. apply incl_refl.
Qed.

(** With at least one method, an oracle that returns numbers and
    readable files, [match_minima] returns a dictionary. *)
Lemma match_minima_total (in_dict : list (string * Method)) (rmsd_cutoff : float) :
  in_dict <> [] -> oracle_numeric OERMSD -> Forall readable in_dict ->
  exists d, match_minima OERMSD read_mols py_float in_dict rmsd_cutoff = Ok d.
Proof.
  intros Hne Hnum Hread. unfold match_minima.
  destruct in_dict as [|ref rest]; [congruence|]. simpl get. simpl bind.
  set (l := ref :: rest) in *.
  destruct (@foldM_total _ _ (fun _ : mol_dict => True)
              (match_method OERMSD read_mols py_float (sdfile (snd ref)) rmsd_cutoff) l)
    with (s := @nil (string * MolEntry)) as (d & Hd & _); [|exact I|eauto].
  intros d ff Hff _. unfold match_method.
  rewrite Forall_forall in Hread.
  destruct (@foldM_total _ _
              (fun st : mol_dict * list (Mol Geom) =>
                 incl (snd st) (read_mols (sdfile (snd ff))))
              (match_rmol OERMSD read_mols py_float (sdfile (snd ref))
                          (sdfile (snd ff)) (sdtag (snd ff)) rmsd_cutoff)
              (read_mols (sdfile (snd ref))))
    with (s := (d, read_mols (sdfile (snd ff)))) as (st & Hst & _).
  - intros st rmol _ Hincl. apply match_rmol_total; auto.
  - apply incl_refl.
  - rewrite Hst. simpl. eauto.
Qed.

End OrchestratorTotal.

(** ** A run on small files *)

Module Run.

(** Conformers on a line: the geometry is an abscissa, the distance 0
    between equal abscissas and 1 otherwise. *)
Definition toy_rmsd (a b : nat) (_ _ _ : bool) : float :=
  if a =? b then 0%float else 1%float.

Lemma toy_rmsd_numeric : oracle_numeric toy_rmsd.
Proof. intros r q a h o. unfold toy_rmsd. destruct (r =? q); reflexivity. Qed.

(** [float()] on the few strings the files hold. *)
Definition toy_float (s : string) : result float :=
  if String.eqb s "0.0" then Ok 0%float
  else if String.eqb s "1.0" then Ok 1%float
  else if String.eqb s "2.0" then Ok 2%float
  else if String.eqb s "10.0" then Ok 10%float
  else if String.eqb s "11.0" then Ok 11%float
  else if String.eqb s "12.0" then Ok 12%float
  else Raise ValueError.

Definition conf_at (x : nat) (energy : string) : Conf nat :=
  {| geom := x; sd_pairs := [("SMILES", "CCO"); ("Energy FFXML", energy)]%string |}.

(** A conformer whose SD data lack the energy tag. *)
Definition untagged (x : nat) : Conf nat :=
  {| geom := x; sd_pairs := [("SMILES", "CCO")]%string |}.

Definition molA : Mol nat :=
  {| title := "A"; confs := [conf_at 0 "0.0"; conf_at 1 "1.0"; conf_at 2 "2.0"] |}.
Definition molB : Mol nat :=
  {| title := "B"; confs := [conf_at 0 "0.0"; conf_at 5 "1.0"] |}.

(** The same molecules by a second method: conformers in another order. *)
Definition molA' : Mol nat :=
  {| title := "A"; confs := [conf_at 1 "10.0"; conf_at 2 "11.0"; conf_at 0 "12.0"] |}.
Definition molB' : Mol nat :=
  {| title := "B"; confs := [conf_at 5 "11.0"; conf_at 7 "12.0"] |}.

Definition toy_files (infile : string) : list (Mol nat) :=
  if String.eqb infile "ref.sdf" then [molA; molB]
  else if String.eqb infile "same_order.sdf" then [molA'; molB']
  else if String.eqb infile "other_order.sdf" then [molB'; molA']
  else [].

Definition method (f : string) : Method := {| sdfile := f; sdtag := "energy" |}.

Definition run (query : string) : result mol_dict :=
  match_minima toy_rmsd toy_files toy_float
               [("ref", method "ref.sdf"); ("ff", method query)]%string 0.5%float.

End Run.

(** ** The theorems on concrete inputs *)

Module Checks.

Import Run.

(** The example of the specification: three reference conformers, a
    second method matched as [Matched 2; Matched 0; Matched 1]. *)
Definition ex_energies : list (list float) :=
  [[0; 1; 2]; [10; 11; 12]]%float.
Definition ex_matched : list (list float) :=
  [[0; 1; 2]; [12; 10; 11]]%float.
Definition ex_relative : list (list float) :=
  [[0; 1; 2]; [0; -2; -1]]%float.

(** The whole pipeline on the two methods: for molecule A the numbers of
    the specification's example shifted by the energies of the files,
    for molecule B a conformer without a match within the cutoff. *)
Example analysis_same_order :
  (d <- run "same_order.sdf" ;; analysis d) =
  Ok ([[[0; 1; 2]; [0; -2; -1]]; [[-1; 0]; [nan; 0]]]%float,
      [0; 1],
      [[0; 3]; [0; nan]]%float).
Proof. vm_compute. reflexivity. Qed.

(** C1: a second method with no energy at the only conformer. *)
Lemma calc_rel_ene_missing_reference_not_zero :
  calc_rel_ene [[[1]; [nan]]]%float = Ok ([[[0]; [nan]]]%float, [0]) /\
  (nan =? 0)%float = false.
Proof. split; reflexivity. Qed.

(** C1: the matched energies of the example, where no value is missing. *)
Lemma calc_rel_ene_reference_zero_witness :
  Forall aligned [ex_matched] /\
  exists rel_energies lowest_conf_indices,
    calc_rel_ene [ex_matched] = Ok (rel_energies, lowest_conf_indices) /\
    nth_error lowest_conf_indices 0 = Some 0 /\
    nth_error rel_energies 0 = Some ex_relative.
Proof.
  assert (H : Forall aligned [ex_matched]).
  { constructor; [|constructor]. split; [discriminate|].
    constructor; [reflexivity|constructor]. }
  split; [exact H|].
  destruct (@calc_rel_ene_reference_zero [ex_matched] H) as (rel & zs & Hrun & _).
  exists rel, zs. split; [exact Hrun|].
  vm_compute in Hrun. injection Hrun as <- <-. split; reflexivity.
Defined.

(** C3: the conformers of [molA] against those of [molA']. *)
Lemma compare_two_mols_spec_witness :
  oracle_numeric toy_rmsd /\ confs molA' <> [] /\ is_nan 0.5%float = false /\
  exists molIndices,
    compare_two_mols toy_rmsd molA molA' 0.5 = Ok molIndices /\
    length molIndices = 3.
Proof.
  assert (Hq : confs molA' <> []) by discriminate.
  assert (Hc : is_nan 0.5%float = false) by reflexivity.
  split; [exact toy_rmsd_numeric|]. split; [exact Hq|]. split; [exact Hc|].
  destruct (@compare_two_mols_spec nat toy_rmsd molA molA' 0.5%float toy_rmsd_numeric Hq Hc)
    as (mi & Hrun & Hlen & _).
  exists mi. split; [exact Hrun|exact Hlen].
Defined.

(** C4: the matched energies of the example. *)
Lemma lowest_conf_two_stage_witness :
  aligned ex_matched /\
  exists z, lowest_conf ex_matched = Ok z /\ z < 3.
Proof.
  assert (H : aligned ex_matched).
  { split; [discriminate|]. constructor; [reflexivity|constructor]. }
  split; [exact H|].
  destruct (@lowest_conf_two_stage [0; 1; 2]%float [[12; 10; 11]%float] H)
    as (z & Hz & Hlt & _).
  exists z. split; [exact Hz|exact Hlt].
Defined.

(** The order of the additions shows from 8 items on: the eight partial
    sums of [np.sum] keep the ones that adding one by one to [2^53]
    loses. *)
Example sum_pairwise_from_eight :
  let a := [9007199254740992; 1; 1; 1; 1; 1; 1; 1]%float in
  Np.sum a = 9007199254740998%float /\
  fold_left (fun res x => (res + x)%float) a 0%float = 9007199254740992%float /\
  Np.sum (firstn 7 a) = 9007199254740992%float.
Proof. repeat split; reflexivity. Qed.

(** A tag with an accented capital (201, 233 in small) matches as the
    tag in small letters does. *)
Example tag_matches_accented_capital :
  lower (String "201" "NERGIE") = String "233" "nergie" /\
  tag_matches (String "233" "nergie") (String "201" "nergie FF", "1.0"%string) = true.
Proof. split; reflexivity. Qed.

(** Ten conformers and so nine squares kept: with the relative energies
    0, 0.5, 1.0, ... 4.5 of the reference and 0, 1.2, 1.6, 2.0, 2.4,
    2.8, 3.2, 3.6, 4.7, 5.1 of a method, [calc_rms_error] returns 0.5,
    the root of the mean under the eight partial sums of [np.mean];
    the squares added one by one give 0.49999999999999994. *)
Example calc_rms_error_nine_squares :
  let ref_row := [0; 0.5; 1; 1.5; 2; 2.5; 3; 3.5; 4; 4.5]%float in
  let row := [0; 0x1.3333333333333p+0; 0x1.999999999999ap+0; 2;
              0x1.3333333333333p+1; 0x1.6666666666666p+1;
              0x1.999999999999ap+1; 0x1.ccccccccccccdp+1;
              0x1.2cccccccccccdp+2; 0x1.4666666666666p+2]%float in
  let sqs := map sq_err (included 0 row ref_row) in
  calc_rms_error [[ref_row; row]] [0] = Ok [[0; 0.5]]%float /\
  rms_spec 0 row ref_row = 0.5%float /\
  length sqs = 9 /\
  sqrt (fold_left (fun res x => (res + x)%float) sqs 0 / 9)%float
    = 0x1.fffffffffffffp-2%float.
Proof. repeat split; reflexivity. Qed.

(** C5: the second method of the example against the reference: 3.0. *)
Lemma calc_rms_error_spec_witness :
  Forall2 rms_input [ex_relative] [0] /\
  calc_rms_error [ex_relative] [0] = Ok [[0; 3]]%float /\
  rms_spec 0 [0; -2; -1]%float [0; 1; 2]%float = 3%float.
Proof.
  assert (H : Forall2 rms_input [ex_relative] [0]).
  { constructor; [|constructor]. split; [|split].
    - split; [discriminate|]. constructor; [reflexivity|constructor].
    - repeat constructor.
    - simpl. lia. }
  split; [exact H|]. split; [|reflexivity].
  destruct (@calc_rms_error_spec [ex_relative] [0] H) as (rms & Hrun & _).
  rewrite Hrun. vm_compute in Hrun. injection Hrun as <-. reflexivity.
Defined.

(** C6: an index beyond the raw energies. *)
Lemma extract_file_index_out_of_range :
  extract_file [[5]]%float 0 (map encode [Matched 1]) = Raise IndexError /\
  ~ exists matched, extract_file [[5]]%float 0 (map encode [Matched 1]) = Ok matched.
Proof.
  split; [reflexivity|]. intros (matched & H). discriminate.
Qed.

(** C6: the second method of the example, matched as 2, 0, 1. *)
Lemma extract_file_table_witness :
  exists matched,
    extract_file ex_energies 1 (map encode [Matched 2; Matched 0; Matched 1]) = Ok matched /\
    matched = [12; 10; 11]%float.
Proof.
  assert (Hin : [10; 11; 12]%float <> [] ->
                forall j o, nth_error [Matched 2; Matched 0; Matched 1] j = Some o ->
                            in_range [10; 11; 12]%float j o).
  { intros _ [|[|[|j]]] o H; simpl in H; try (injection H as <-; simpl; lia).
    destruct j; discriminate. }
  destruct (@extract_file_table ex_energies 1 [10; 11; 12]%float
                                [Matched 2; Matched 0; Matched 1] eq_refl Hin)
    as (matched & Hrun & _).
  exists matched. split; [exact Hrun|].
  vm_compute in Hrun. injection Hrun as <-. reflexivity.
Defined.

(** C8: a molecule of two conformers whose reference method has no
    energy for the second: once the reference position is left out, no
    value remains to compare. *)
Lemma calc_rms_error_missing_values_not_zero :
  calc_rel_ene [[[1; nan]]]%float = Ok ([[[0; nan]]]%float, [0]) /\
  calc_rms_error [[[0; nan]]]%float [0] = Ok [[nan]] /\
  (nan =? 0)%float = false.
Proof. repeat split; reflexivity. Qed.

(** C8: the reference row of the example against itself. *)
Lemma rms_file_self_witness :
  1 < length [0; 1; 2]%float /\
  rms_file [0] 0 ex_relative [0; 1; 2]%float = Ok 0%float.
Proof.
  assert (H : 1 < length [0; 1; 2]%float) by (simpl; lia).
  split; [exact H|].
  refine (@rms_file_self [0] 0 ex_relative [0; 1; 2]%float 0 eq_refl eq_refl H _ _).
  - simpl. lia.
  - reflexivity.
Defined.

(** C2: the query file lists the molecules as B, A. The scan for A
    passes over B; the generator is then at its end, and B, which the
    file holds, is recorded as absent. *)
Theorem match_minima_misses_reordered_molecule :
  exists d eB,
    run "other_order.sdf" = Ok d /\
    In molB' (toy_files "other_order.sdf") /\ title molB' = title molB /\
    dict_get "B" d = Some eB /\
    nth_error (indices eB) 1 = Some (map encode [MoleculeAbsent; MoleculeAbsent]) /\
    nth_error (energies eB) 1 = Some [nan; nan].
Proof.
  eexists. eexists. split; [vm_compute; reflexivity|].
  split; [left; reflexivity|]. split; [reflexivity|].
  split; [reflexivity|]. split; reflexivity.
Qed.

(** C7: a molecule of two conformers, the first without the tag: one
    value is extracted, and it is the second conformer's. *)
Theorem get_sd_list_skips_untagged_conformer :
  let mol := {| title := "A"; confs := [untagged 0; conf_at 1 "1.0"] |} in
  length (confs mol) = 2 /\
  get_sd_list mol "energy" = ["1.0"%string] /\
  nth_error (get_sd_list mol "energy") 0 =
    option_map (fun x => snd x)
               (find (tag_matches "energy") (sd_pairs (conf_at 1 "1.0"))).
Proof. repeat split; reflexivity. Qed.

End Checks.


(** * Further properties of the code

    What the functions above do beyond the statements of the
    specification, and the functions it leaves to the interfaces:
    [read_mols] with a slice and [read_check_input]. *)

(** ** The scan of the query generator and the tag lookup *)

(** X1. The scan of [match_minima] for a title breaks at the first
    molecule of the generator with that title and leaves the generator
    just after it; it finds none exactly when no molecule left in the
    generator has the title, and then leaves the generator at its end. *)
Theorem scan_query_first_match {Geom : Type} (mol_name : string)
  (mols_query : list (Mol Geom)) :
  (forall qmol rest,
     scan_query mol_name mols_query = (Some qmol, rest) <->
     exists skipped,
       mols_query = skipped ++ qmol :: rest /\ title qmol = mol_name /\
       Forall (fun m => title m <> mol_name) skipped) /\
  (forall rest,
     scan_query mol_name mols_query = (None, rest) <->
     rest = [] /\ Forall (fun m => title m <> mol_name) mols_query).
Proof.
  split; intros; [apply scan_query_found|apply scan_query_missed].
Qed.

(** X2. When every conformer of a molecule has a pair whose tag matches
    (the tag in lower case contains the label in lower case),
    [get_sd_list] returns one value per conformer, in the order of the
    conformers, each the value of the conformer's first matching pair. *)
Theorem get_sd_list_one_value_per_conformer {Geom : Type} (mol : Mol Geom)
  (taglabel : string) :
  Forall (fun conf => existsb (tag_matches taglabel) (sd_pairs conf) = true) (confs mol) ->
  exists first_pair : Conf Geom -> string * string,
    get_sd_list mol taglabel = map (fun conf => snd (first_pair conf)) (confs mol) /\
    forall conf, In conf (confs mol) ->
      exists before after,
        sd_pairs conf = before ++ first_pair conf :: after /\
        tag_matches taglabel (first_pair conf) = true /\
        Forall (fun x => tag_matches taglabel x = false) before.
Proof.
  intros H.
  exists (fun conf => match find (tag_matches taglabel) (sd_pairs conf) with
                      | Some x => x
                      | None => (EmptyString, EmptyString)
                      end).
  assert (F : forall conf, In conf (confs mol) ->
            exists x, find (tag_matches taglabel) (sd_pairs conf) = Some x).
  { intros conf Hin. rewrite Forall_forall in H. specialize (H conf Hin).
    apply existsb_exists in H as (x & Hx & Hm).
    destruct (find (tag_matches taglabel) (sd_pairs conf)) eqn:E; [eauto|].
    rewrite (find_none _ _ E x Hx) in Hm. discriminate. }
  split.
  - unfold get_sd_list. clear H. induction (confs mol) as [|c cs IH]; [reflexivity|].
    simpl. destruct (F c (or_introl eq_refl)) as (x & Hx).
    unfold conf_sd at 1. rewrite Hx. simpl. f_equal.
    apply IH. intros conf Hin. apply F. right. exact Hin.
  - intros conf Hin. destruct (F conf Hin) as (x & Hx). rewrite Hx.
    clear - Hx. induction (sd_pairs conf) as [|y ys IH]; [discriminate|].
    simpl in Hx. destruct (tag_matches taglabel y) eqn:E.
    + injection Hx as <-. exists [], ys. auto.
    + destruct (IH Hx) as (before & after & -> & Hm & Hb).
      exists (y :: before), after. auto.
Qed.

(** ** The resolver on whole rows *)

Lemma extract_file_map (energy_array : list (list float)) (i : nat)
  (g : nat -> option Z -> float) (file_indices : list (option Z)) :
  (forall j c, nth_error file_indices j = Some c ->
               extract_conf energy_array i j c = Ok (g j c)) ->
  extract_file energy_array i file_indices =
    Ok (map (fun p => g (fst p) (snd p)) (enumerate file_indices)).
Proof.
  intros H. unfold extract_file. apply PyFacts.mapM_map.
  intros [j c] Hin. simpl. apply H.
  apply RelFacts.in_combine_seq in Hin as [_ Hin]. rewrite Nat.sub_0_r in Hin. exact Hin.
Qed.

Lemma skipn_cons_nth (l : list float) : forall s : nat,
  s < length l -> skipn s l = nth s l nan :: skipn (S s) l.
Proof.
  induction l as [|y l IH]; intros s Hs; [simpl in Hs; lia|].
  destruct s as [|s]; [reflexivity|]. simpl. apply IH. simpl in Hs. lia.
Qed.

Lemma self_reference_rows (raw : list float) (n : nat) : forall s : nat,
  s + n <= length raw ->
  map (fun p : nat * MatchOutcome => table_entry raw (fst p) (snd p))
      (combine (seq s n) (repeat SelfReference n)) =
  firstn n (skipn s raw).
Proof.
  induction n as [|n IH]; intros s Hn; simpl; [reflexivity|].
  rewrite (skipn_cons_nth raw) by lia. simpl. rewrite IH by lia.
  destruct raw; [simpl in Hn; lia|reflexivity].
Qed.

(** X3. For the reference method the resolver is the identity: with the
    index [-1] at each of the first [n] positions, the matched energies
    are the first [n] raw energies of the method, position for
    position (all of them when there are [n]). *)
Theorem extract_file_self_reference (energy_array : list (list float)) (i : nat)
  (rawEnergies : list float) (n : nat) :
  nth_error energy_array i = Some rawEnergies -> n <= length rawEnergies ->
  extract_file energy_array i (repeat (Some (-1)%Z) n) = Ok (firstn n rawEnergies).
Proof.
  intros Hraw Hn. unfold extract_file, enumerate.
  change (Some (-1)%Z) with (encode SelfReference). rewrite repeat_encode.
  rewrite (@extract_file_from energy_array i rawEnergies (repeat SelfReference n) 0 Hraw).
  - rewrite repeat_length, self_reference_rows by (simpl; lia). reflexivity.
  - intros _ j o Hj.
    assert (Hlt : j < n).
    { rewrite <- (repeat_length SelfReference n). apply nth_error_Some. congruence. }
    apply nth_error_In, repeat_spec in Hj. subst o. simpl. lia.
Qed.

(** X4. Where the index row holds only [None] and [-2], the matched
    energies are all the missing value and the raw energies are not
    read: the row is built whatever the energy array holds. *)
Theorem extract_file_unmatched (energy_array : list (list float)) (i : nat)
  (file_indices : list (option Z)) :
  Forall (fun c => c = None \/ c = Some (-2)%Z) file_indices ->
  extract_file energy_array i file_indices = Ok (repeat nan (length file_indices)).
Proof.
  intros H. rewrite (@extract_file_map energy_array i (fun _ _ => nan)).
  - unfold enumerate. clear H. f_equal. generalize 0.
    induction file_indices as [|c cs IH]; intros s; simpl; [reflexivity|].
    f_equal. apply IH.
  - intros j c Hj. rewrite Forall_forall in H.
    destruct (H c (nth_error_In _ _ Hj)) as [->| ->]; reflexivity.
Qed.

Lemma mapM_raises {A B} (f : A -> result B) (x : exn) (l : list A) :
  (forall a e, In a l -> f a = Raise e -> e = x) ->
  (exists a, In a l /\ f a = Raise x) ->
  mapM f l = Raise x.
Proof.
  induction l as [|a l IH]; intros Hall (b & Hin & Hb); [contradiction|]. simpl.
  destruct (f a) as [v|e] eqn:E.
  - simpl. rewrite IH; [reflexivity|intros a' e' Ha'; apply Hall; right; exact Ha'|].
    destruct Hin as [->|Hin]; [congruence|eauto].
  - rewrite (Hall a e (or_introl eq_refl) E). reflexivity.
Qed.

Lemma extract_conf_raises (energy_array : list (list float)) (i j : nat)
  (c : option Z) (e : exn) :
  extract_conf energy_array i j c = Raise e -> e = IndexError.
Proof.
  unfold extract_conf, getitem, get. intros H.
  repeat match type of H with
         | context [match ?x with _ => _ end] => destruct x; simpl in H
         end; congruence.
Qed.

Lemma extract_file_raises (energy_array : list (list float)) (i : nat)
  (file_indices : list (option Z)) (e : exn) :
  extract_file energy_array i file_indices = Raise e -> e = IndexError.
Proof.
  unfold extract_file. generalize (enumerate file_indices).
  induction l as [|p l IH]; simpl; [discriminate|].
  destruct (extract_conf energy_array i (fst p) (snd p)) eqn:E.
  - simpl. destruct (mapM _ l); simpl; [discriminate|].
    intros H. injection H as <-. apply IH. reflexivity.
  - simpl. intros H. injection H as <-. eapply extract_conf_raises, E.
Qed.

Lemma extract_mol_raises (m : MolEntry) (e : exn) :
  extract_mol m = Raise e -> e = IndexError.
Proof.
  unfold extract_mol. generalize (enumerate (indices m)).
  induction l as [|p l IH]; simpl; [discriminate|].
  destruct (extract_file (energies m) (fst p) (snd p)) eqn:E.
  - simpl. destruct (mapM _ l) eqn:El; simpl.
    + discriminate.
    + intros H. injection H as <-. apply IH. simpl. reflexivity.
  - simpl. intros H. injection H as <-. eapply extract_file_raises, E.
Qed.

(** X5. [extract_matches] raises [IndexError] for the whole dictionary
    as soon as one molecule has, for one method, a conformer index that
    points outside that method's non-empty raw energies. *)
Theorem extract_matches_raises_out_of_range (d : mol_dict) (mol_name : string)
  (m : MolEntry) (i : nat) (rawEnergies : list float) (outcomes : list MatchOutcome)
  (j : nat) (o : MatchOutcome) :
  In (mol_name, m) d ->
  nth_error (indices m) i = Some (map encode outcomes) ->
  nth_error (energies m) i = Some rawEnergies -> rawEnergies <> [] ->
  nth_error outcomes j = Some o -> ~ in_range rawEnergies j o ->
  extract_matches d = Raise IndexError.
Proof.
  intros Hin Hi Hraw Hne Hj Hout. unfold extract_matches.
  apply mapM_raises.
  - intros kv e _ H. destruct (extract_mol (snd kv)) eqn:E; [discriminate|].
    injection H as <-. eapply extract_mol_raises, E.
  - exists (mol_name, m). split; [exact Hin|]. simpl.
    assert (E : extract_mol m = Raise IndexError); [|rewrite E; reflexivity].
    unfold extract_mol.
    rewrite (@mapM_raises _ _ _ IndexError); [reflexivity| |].
    + intros p e _ H. eapply extract_file_raises, H.
    + exists (i, map encode outcomes). split.
      * apply RelFacts.in_combine_seq. rewrite Nat.sub_0_r. split; [lia|exact Hi].
      * simpl. eapply extract_file_out_of_range; eauto.
Qed.


(** X6. [extract_matches] keeps the molecules, their order and what
    [match_minima] stored for them; it adds to each the matched
    energies, one row per index row and one energy per conformer index. *)
Theorem extract_matches_shape (d d' : mol_dict) :
  extract_matches d = Ok d' ->
  Forall2 (fun kv kv' : string * MolEntry =>
             fst kv' = fst kv /\
             energies (snd kv') = energies (snd kv) /\
             indices (snd kv') = indices (snd kv) /\
             ref_nconfs (snd kv') = ref_nconfs (snd kv) /\
             exists updated,
               energies_matched (snd kv') = Some updated /\
               Forall2 (fun file_indices fileData =>
                          length fileData = length file_indices)
                       (indices (snd kv)) updated)
          d d'.
Proof.
  intros H. apply RelEne.mapM_Forall2 in H.
  eapply Forall2_impl; [|exact H]. clear H. intros [k m] [k' m'] H. simpl in *.
  apply PyFacts.bind_ok in H as (m1 & Hm & H). injection H as <- <-.
  unfold extract_mol in Hm. apply PyFacts.bind_ok in Hm as (updated & Hu & Hm).
  injection Hm as <-. simpl. repeat split. exists updated. split; [reflexivity|].
  apply RelEne.mapM_Forall2 in Hu. unfold enumerate in Hu.
  revert Hu. generalize 0. generalize (energies m). generalize updated.
  induction (indices m) as [|row rows IH]; intros u ea s Hu; simpl in Hu.
  - inversion Hu. constructor.
  - inversion Hu as [|p fileData ps u' Hp Hrest]; subst. constructor.
    + simpl in Hp. unfold extract_file in Hp.
      rewrite (@PyFacts.mapM_length _ _ _ _ _ Hp). unfold enumerate.
      rewrite length_combine, length_seq. lia.
    + eapply IH, Hrest.
Qed.


(** ** The cutoff of the geometry matcher *)

Section Cutoff.

Variable Geom : Type.
Variable OERMSD : Geom -> Geom -> bool -> bool -> bool -> float.

Lemma match_conf_cutoffs (qmol : Mol Geom) (c c' : float) (ref_conf : Conf Geom)
  (b b' : option Z) :
  match_conf OERMSD qmol c ref_conf = Ok b ->
  match_conf OERMSD qmol c' ref_conf = Ok b' ->
  exists (k : nat) (d : float),
    b = (if (d <=? c)%float then Some (Z.of_nat k) else None) /\
    b' = (if (d <=? c')%float then Some (Z.of_nat k) else None).
Proof.
  unfold match_conf. intros H H'.
  apply PyFacts.bind_ok in H as (k & Hk & H). rewrite Hk in H'. simpl in H'.
  apply PyFacts.bind_ok in H as (d & Hd & H). rewrite Hd in H'. simpl in H'.
  injection H as <-. injection H' as <-. eauto.
Qed.

(** X7. The cutoff decides only whether a match is accepted, never
    which query conformer is matched: when [compare_two_mols] is run
    with a larger cutoff, every index it returned under the smaller one
    is returned again at the same position, and a position that now
    holds an index held the same index or [None] before. *)
Theorem compare_two_mols_cutoff_monotone (rmol qmol : Mol Geom) (c c' : float)
  (molIndices molIndices' : list (option Z)) :
  (c <=? c')%float = true ->
  compare_two_mols OERMSD rmol qmol c = Ok molIndices ->
  compare_two_mols OERMSD rmol qmol c' = Ok molIndices' ->
  forall i k,
    (nth_error molIndices i = Some (Some k) -> nth_error molIndices' i = Some (Some k)) /\
    (nth_error molIndices' i = Some (Some k) ->
     nth_error molIndices i = Some (Some k) \/ nth_error molIndices i = Some None).
Proof.
  intros Hc H H' i k. unfold compare_two_mols in *.
  destruct (nth_error (confs rmol) i) as [ref_conf|] eqn:Er.
  - destruct (@PyFacts.mapM_nth _ _ _ _ _ _ _ H Er) as (b & Hb & Hm).
    destruct (@PyFacts.mapM_nth _ _ _ _ _ _ _ H' Er) as (b' & Hb' & Hm').
    destruct (match_conf_cutoffs _ _ _ _ Hm Hm') as (k0 & d & -> & ->).
    rewrite Hb, Hb'. split.
    + destruct (d <=? c)%float eqn:E; [|discriminate].
      rewrite (@Fl.leb_trans _ _ _ E Hc). auto.
    + destruct (d <=? c')%float; [|discriminate].
      destruct (d <=? c)%float; auto.
  - apply nth_error_None in Er.
    rewrite <- (@PyFacts.mapM_length _ _ _ _ _ H) in Er.
    pose proof Er as Er'. rewrite (@PyFacts.mapM_length _ _ _ _ _ H) in Er'.
    rewrite <- (@PyFacts.mapM_length _ _ _ _ _ H') in Er'.
    apply nth_error_None in Er, Er'. rewrite Er, Er'. split; discriminate.
Qed.

End Cutoff.

(** ** Relative energies: shape and missing values *)

Module RelShape.

Lemma rel_file_nth (z : nat) (fileE relFile : list float) :
  rel_file z fileE = Ok relFile ->
  length relFile = length fileE /\
  (fileE <> [] -> z < length fileE) /\
  forall j x, nth_error fileE j = Some x ->
    nth_error relFile j = Some (x - nth z fileE 0)%float.
Proof.
  intros H.
  assert (Hz : fileE <> [] -> z < length fileE).
  { intros Hne. destruct (Nat.lt_ge_cases z (length fileE)) as [L|L]; [exact L|].
    exfalso.
    assert (R : get fileE z = Raise IndexError).
    { unfold get. rewrite (proj2 (nth_error_None _ _) L). reflexivity. }
    unfold rel_file in H. destruct fileE as [|x0 l0]; [congruence|].
    change (seq 0 (length (x0 :: l0))) with (0 :: seq 1 (length l0)) in H.
    cbn [mapM] in H. change (get (x0 :: l0) 0) with (@Ok float x0) in H.
    cbn [bind] in H. rewrite R in H. discriminate. }
  destruct fileE as [|x0 l0] eqn:El.
  - injection H as <-. split; [reflexivity|]. split; [exact Hz|].
    intros [|j] x; discriminate.
  - rewrite <- El in *. assert (Hlt : z < length fileE) by (apply Hz; congruence).
    rewrite (RelEne.rel_file_ok _ Hlt) in H. injection H as <-.
    split; [apply length_map|]. split; [exact Hz|].
    intros j x Hj. rewrite nth_error_map, Hj. reflexivity.
Qed.

End RelShape.

(** X8. [calc_rel_ene] returns relative energies of the shape of the
    matched energies it is given, molecule by molecule, method by
    method and conformer by conformer, with one reference position per
    molecule that is a position of every non-empty row of the molecule. *)
Theorem calc_rel_ene_shape (matched_enes rel_energies : list (list (list float)))
  (lowest_conf_indices : list nat) :
  calc_rel_ene matched_enes = Ok (rel_energies, lowest_conf_indices) ->
  length lowest_conf_indices = length matched_enes /\
  Forall2 (fun molE relE =>
             Forall2 (fun fileE relFile => length relFile = length fileE) molE relE)
          matched_enes rel_energies /\
  forall i molE z fileE,
    nth_error matched_enes i = Some molE -> nth_error lowest_conf_indices i = Some z ->
    In fileE molE -> fileE <> [] -> z < length fileE.
Proof.
  unfold calc_rel_ene. intros H.
  apply PyFacts.bind_ok in H as (zs & Hzs & H).
  apply PyFacts.bind_ok in H as (rel & Hrel & H). injection H as <- <-.
  pose proof (RelEne.mapM_Forall2 _ _ Hzs) as F.
  pose proof (RelEne.mapM_Forall2 _ _ Hrel) as G.
  split; [apply (@PyFacts.mapM_length _ _ _ _ _ Hzs)|].
  assert (K : Forall2 (fun molE relE =>
                exists z, mapM (rel_file z) molE = Ok relE) matched_enes rel).
  { clear Hzs Hrel. revert rel G. induction F as [|molE z ms zs' _ _ IH]; intros rel G.
    - inversion G. constructor.
    - simpl in G. inversion G as [|p relE ps rs Hp Hrest]; subst.
      constructor; [exists z; exact Hp|apply IH, Hrest]. }
  split.
  - eapply Forall2_impl; [|exact K]. intros molE relE (z & Hz).
    apply RelEne.mapM_Forall2 in Hz. eapply Forall2_impl; [|exact Hz].
    intros fileE relFile Hf. apply (RelShape.rel_file_nth _ _ Hf).
  - intros i molE z fileE Hi Hz Hin Hne.
    destruct (RelEne.Forall2_nth F _ Hi) as (z' & Hz' & Hc & _).
    rewrite Hz in Hz'. injection Hz' as <-.
    destruct (@PyFacts.mapM_nth _ _ _ _ _ _ _ Hrel Hc) as (relE & _ & Hm). simpl in Hm.
    apply In_nth_error in Hin as (m & Hm').
    destruct (@PyFacts.mapM_nth _ _ _ _ _ _ _ Hm Hm') as (relFile & _ & Hf).
    apply (RelShape.rel_file_nth _ _ Hf), Hne.
Qed.

(** X9. A missing value stays missing in the relative energies, and a
    method whose matched energy is missing at the reference position
    loses its whole row: every relative energy of that row is the
    missing value. *)
Theorem calc_rel_ene_missing (matched_enes rel_energies : list (list (list float)))
  (lowest_conf_indices : list nat) :
  calc_rel_ene matched_enes = Ok (rel_energies, lowest_conf_indices) ->
  forall i molE relE z m fileE relFile,
    nth_error matched_enes i = Some molE -> nth_error rel_energies i = Some relE ->
    nth_error lowest_conf_indices i = Some z ->
    nth_error molE m = Some fileE -> nth_error relE m = Some relFile ->
    (forall j x r, nth_error fileE j = Some x -> nth_error relFile j = Some r ->
                   is_nan x = true -> is_nan r = true) /\
    (is_nan (nth z fileE 0%float) = true -> Forall (fun r => is_nan r = true) relFile).
Proof.
  unfold calc_rel_ene. intros H.
  apply PyFacts.bind_ok in H as (zs & Hzs & H).
  apply PyFacts.bind_ok in H as (rel & Hrel & H). injection H as <- <-.
  pose proof (RelEne.mapM_Forall2 _ _ Hzs) as F.
  intros i molE relE z m fileE relFile Hi Hr Hz Hm Hrf.
  destruct (RelEne.Forall2_nth F _ Hi) as (z' & Hz' & Hc & _).
  rewrite Hz in Hz'. injection Hz' as <-.
  destruct (@PyFacts.mapM_nth _ _ _ _ _ _ _ Hrel Hc) as (relE' & Hr' & Hmol). simpl in Hmol.
  rewrite Hr in Hr'. injection Hr' as <-.
  destruct (@PyFacts.mapM_nth _ _ _ _ _ _ _ Hmol Hm) as (relFile' & Hrf' & Hf).
  rewrite Hrf in Hrf'. injection Hrf' as <-.
  destruct (RelShape.rel_file_nth _ _ Hf) as (Hlen & _ & Hnth). split.
  - intros j x r Hj Hrj Hx. rewrite (Hnth j x Hj) in Hrj. injection Hrj as <-.
    apply Fl.sub_nan_l, Hx.
  - intros Hzn. apply Forall_forall. intros r Hin.
    apply In_nth_error in Hin as (j & Hj).
    assert (Hjl : j < length fileE) by (rewrite <- Hlen; apply nth_error_Some; congruence).
    rewrite (Hnth j _ (nth_error_nth' fileE 0%float Hjl)) in Hj. injection Hj as <-.
    apply Fl.sub_nan_r, Hzn.
Qed.

(** X10. The first molecule on which the search of the reference
    position raises is a molecule without any method row, or one whose
    reference row has no conformer: [calc_rel_ene] then raises for the
    whole list of molecules, [IndexError] in the first case and
    [ValueError] in the second, whatever the molecules after it. *)
Theorem calc_rel_ene_raises_on_empty_molecule
  (before after : list (list (list float))) (molE : list (list float)) :
  Forall (fun m => exists z, lowest_conf m = Ok z) before ->
  molE = [] \/ (exists others, molE = [] :: others) ->
  calc_rel_ene (before ++ molE :: after)
  = Raise (match molE with [] => IndexError | _ => ValueError end).
Proof.
  intros Hb Hm. unfold calc_rel_ene.
  assert (E : mapM lowest_conf (before ++ molE :: after)
              = Raise (match molE with [] => IndexError | _ => ValueError end)).
  { induction Hb as [|m before (z & Hz) _ IH]; simpl.
    - destruct Hm as [->|(others & ->)]; reflexivity.
    - rewrite Hz, IH. reflexivity. }
  rewrite E. reflexivity.
Qed.

(** ** RMS errors: missing rows, shape and sign *)

Module RmsMore.

(** Rounding a mantissa that is not negative keeps the sign it is given. *)
Lemma binary_round_aux_sign (s : bool) (m e : Z) (l : location) :
  (0 <= m)%Z ->
  match binary_round_aux prec emax s m e l with
  | S754_zero s' | S754_infinity s' | S754_finite s' _ _ => s' = s
  | S754_nan => False
  end.
Proof.
  intros Hm. unfold binary_round_aux.
  destruct (Fl.shr_fexp_m e l Hm) as [H1 _].
  destruct (shr_fexp prec emax m e l) as [mrs' e'] eqn:E1. simpl in H1.
  pose proof (Fl.round_nearest_even_bounds (shr_m mrs') (loc_of_shr_record mrs')) as B.
  assert (H0 : (0 <= shr_m mrs')%Z) by (rewrite H1, Z.shiftr_nonneg; exact Hm).
  set (m2 := round_nearest_even (shr_m mrs') (loc_of_shr_record mrs')) in *.
  assert (Hm2 : (0 <= m2)%Z) by lia.
  destruct (Fl.shr_fexp_m e' loc_Exact Hm2) as [H2 _].
  destruct (shr_fexp prec emax m2 e' loc_Exact) as [mrs'' e''] eqn:E2. simpl in H2.
  assert (H3 : (0 <= shr_m mrs'')%Z) by (rewrite H2, Z.shiftr_nonneg; exact Hm2).
  destruct (shr_m mrs'') as [|q|q]; [reflexivity| |lia].
  destruct (e'' <=? emax - prec)%Z; reflexivity.
Qed.

(** A square root is the missing value or is not negative. *)
Lemma sqrt_sign (x : float) : is_nan (sqrt x) = true \/ (0 <=? sqrt x)%float = true.
Proof.
  rewrite Fl.is_nan_spec, leb_spec, sqrt_spec.
  change (Prim2SF 0) with (S754_zero false).
  unfold SF64sqrt, SFsqrt.
  destruct (Prim2SF x) as [s|s| |s m e]; auto.
  - destruct s; auto.
  - destruct s; [auto|].
    destruct (SFsqrt_core_binary prec emax (Z.pos m) e) as [[mz ez] lz] eqn:E.
    assert (Hmz : (0 <= mz)%Z).
    { unfold SFsqrt_core_binary in E.
      destruct (Z.sqrtrem _) as [q r] eqn:Eq in E. injection E as <- _ _.
      change q with (fst (q, r)). rewrite <- Eq, Z.sqrtrem_sqrt. apply Z.sqrt_nonneg. }
    pose proof (binary_round_aux_sign false ez lz Hmz) as S.
    destruct (binary_round_aux prec emax false mz ez lz) as [s'|s'| |s' m' e'];
      try contradiction; subst s'; auto.
Qed.

Lemma drop_nan_all_missing (l : list float) :
  Forall (fun x => is_nan x = true) l -> Np.drop_nan l = [].
Proof.
  unfold Np.drop_nan. induction 1 as [|x l Hx _ IH]; simpl; [reflexivity|].
  rewrite Hx. exact IH.
Qed.

Lemma Forall_others_than (P : float -> Prop) (l : list float) (z : nat) :
  Forall P l -> Forall P (others_than z l).
Proof.
  unfold others_than. intros H. revert z.
  induction H as [|x l Hx H IH]; intros [|z]; simpl; auto.
Qed.

End RmsMore.

(** ** The zero a sum starts from

    numpy adds the items of an array to a zero.  Whether that zero is
    0 or -0 does not show on items that are not negative, as the
    squares [calc_rms_error] sums are. *)

Module SumStart.

(** A number or infinity that is not negative and not -0. *)
Definition nonneg_sf (x : spec_float) : Prop :=
  match x with
  | S754_zero false | S754_infinity false | S754_finite false _ _ => True
  | _ => False
  end.

Definition nonneg (x : float) : Prop := nonneg_sf (Prim2SF x).

Definition zero (x : float) : Prop := x = 0%float \/ x = neg_zero.

Lemma add_zero_l (s x : float) : zero s -> nonneg x -> (s + x)%float = x.
Proof.
  intros Hs Hx. apply Prim2SF_inj. rewrite add_spec.
  unfold nonneg in Hx.
  destruct Hs as [-> | ->];
    [change (Prim2SF 0) with (S754_zero false)
    |change (Prim2SF neg_zero) with (S754_zero true)];
    destruct (Prim2SF x) as [[|]|[|]| |[|] m e]; try contradiction; reflexivity.
Qed.

Lemma binary_normalize_nonneg (m e : Z) :
  (0 <= m)%Z -> nonneg_sf (binary_normalize prec emax m e false).
Proof.
  intros Hm. destruct m as [|p|p]; [exact I| |lia].
  unfold binary_normalize, binary_round.
  destruct (shl_align p e (fexp prec emax (Z.pos (digits2_pos p) + e))) as [mz ez].
  pose proof (@RmsMore.binary_round_aux_sign false (Zpos mz) ez loc_Exact ltac:(lia)) as S.
  destruct (binary_round_aux prec emax false (Zpos mz) ez loc_Exact) as [s|s| |s m' e'];
    try contradiction; subst s; exact I.
Qed.

Lemma add_nonneg (x y : float) : nonneg x -> nonneg y -> nonneg (x + y)%float.
Proof.
  unfold nonneg. rewrite add_spec. unfold SF64add, SFadd.
  destruct (Prim2SF x) as [[|]|[|]| |[|] mx ex]; try contradiction;
    destruct (Prim2SF y) as [[|]|[|]| |[|] my ey]; try contradiction;
    intros _ _; try exact I.
  apply binary_normalize_nonneg. simpl. lia.
Qed.

Lemma mul_self_nonneg (x : float) : is_nan (x * x) = false -> nonneg (x * x)%float.
Proof.
  rewrite Fl.is_nan_spec. unfold nonneg. rewrite mul_spec. unfold SF64mul, SFmul.
  destruct (Prim2SF x) as [[|]|[|]| |s m e]; try discriminate; intros _; try exact I.
  replace (xorb s s) with false by (destruct s; reflexivity).
  pose proof (@RmsMore.binary_round_aux_sign false (Zpos (m * m)) (e + e) loc_Exact
                ltac:(lia)) as S.
  destruct (binary_round_aux prec emax false (Zpos (m * m)) (e + e) loc_Exact)
    as [s'|s'| |s' m' e']; try contradiction; subst s'; exact I.
Qed.

Lemma fold_nonneg (a : list float) : forall acc : float,
  nonneg acc -> Forall nonneg a ->
  nonneg (fold_left (fun res x => (res + x)%float) a acc).
Proof.
  induction a as [|x a IH]; intros acc Hacc Ha; [exact Hacc|].
  inversion Ha; subst. simpl. apply IH; [apply add_nonneg|]; assumption.
Qed.

Lemma fold_start (s : float) (a : list float) :
  zero s -> a <> [] -> Forall nonneg a ->
  fold_left (fun res x => (res + x)%float) a s
  = fold_left (fun res x => (res + x)%float) a 0%float /\
  nonneg (fold_left (fun res x => (res + x)%float) a 0%float).
Proof.
  intros Hs Hne Ha. destruct a as [|x a]; [contradiction|].
  inversion Ha; subst. simpl.
  rewrite (@add_zero_l s x Hs) by assumption.
  rewrite (@add_zero_l 0%float x) by (try left; auto).
  split; [reflexivity|]. apply fold_nonneg; assumption.
Qed.

Lemma accumulate_nonneg (n : nat) :
  forall (a : list float) (r0 r1 r2 r3 r4 r5 r6 r7 : float),
  length a <= n ->
  nonneg r0 -> nonneg r1 -> nonneg r2 -> nonneg r3 ->
  nonneg r4 -> nonneg r5 -> nonneg r6 -> nonneg r7 ->
  Forall nonneg a ->
  nonneg (Np.accumulate r0 r1 r2 r3 r4 r5 r6 r7 a).
Proof.
  induction n as [|n IH]; intros a r0 r1 r2 r3 r4 r5 r6 r7 Hlen H0 H1 H2 H3 H4 H5 H6 H7 Ha.
  - destruct a; [|simpl in Hlen; lia]. simpl. repeat apply add_nonneg; assumption.
  - destruct a as [|x0 [|x1 [|x2 [|x3 [|x4 [|x5 [|x6 [|x7 a']]]]]]]];
      NpFacts.zeros; cbn [Np.accumulate];
      try (apply fold_nonneg;
           [repeat apply add_nonneg; assumption|repeat constructor; assumption]).
    apply IH; try (apply add_nonneg; assumption); [simpl in Hlen; lia|assumption].
Qed.

Lemma block_sum_start (s : float) (a : list float) :
  zero s -> a <> [] -> Forall nonneg a ->
  Np.block_sum s a = Np.block_sum 0 a /\ nonneg (Np.block_sum 0 a).
Proof.
  intros Hs Hne Ha.
  destruct a as [|x0 [|x1 [|x2 [|x3 [|x4 [|x5 [|x6 [|x7 a']]]]]]]];
    try (apply fold_start; assumption).
  cbn [Np.block_sum]. split; [reflexivity|].
  NpFacts.zeros. apply (@accumulate_nonneg (length a')); auto.
Qed.

Lemma pairwise_sum_start (s : float) (fuel : nat) : forall a : list float,
  zero s -> a <> [] -> Forall nonneg a ->
  Np.pairwise_sum s fuel a = Np.pairwise_sum 0 fuel a /\
  nonneg (Np.pairwise_sum 0 fuel a).
Proof.
  induction fuel as [|fuel IH]; intros a Hs Hne Ha; cbn [Np.pairwise_sum];
    destruct (Nat.leb_spec (length a) 128) as [Hl|Hl];
    try (apply block_sum_start; assumption).
  destruct (NpFacts.cut_bounds Hl) as [Hc1 Hc2].
  set (n2 := length a / 2 - (length a / 2) mod 8) in *.
  assert (N1 : firstn n2 a <> []).
  { intros E. apply (f_equal (@length float)) in E.
    rewrite length_firstn in E. simpl in E. lia. }
  assert (N2 : skipn n2 a <> []).
  { intros E. apply (f_equal (@length float)) in E.
    rewrite length_skipn in E. simpl in E. lia. }
  destruct (IH (firstn n2 a) Hs N1 (NpFacts.Forall_firstn n2 Ha)) as [E1 P1].
  destruct (IH (skipn n2 a) Hs N2 (NpFacts.Forall_skipn n2 Ha)) as [E2 P2].
  rewrite E1, E2. split; [reflexivity|apply add_nonneg; assumption].
Qed.

(** On items that are not negative, the sum does not depend on the
    zeros it starts from. *)
Lemma sum_from_nonneg (init start : float) (a : list float) :
  zero init -> zero start -> a <> [] -> Forall nonneg a ->
  Np.sum_from init start a = Np.sum a.
Proof.
  intros Hi Hs Hne Ha. unfold Np.sum, Np.sum_from.
  destruct (@pairwise_sum_start start (length a) a Hs Hne Ha) as [E P].
  rewrite E, (@add_zero_l init _ Hi P), (@add_zero_l 0%float _ (or_introl eq_refl) P).
  reflexivity.
Qed.

(** Nor does the mean, which is [nan] on no item. *)
Lemma mean_from_nonneg (init start : float) (a : list float) :
  zero init -> zero start -> Forall nonneg a ->
  (Np.sum_from init start a / Np.float_of_count (length a))%float = Np.mean a.
Proof.
  intros Hi Hs Ha. destruct a as [|x a].
  - destruct Hi as [-> | ->], Hs as [-> | ->]; reflexivity.
  - unfold Np.mean. rewrite (@sum_from_nonneg init start (x :: a) Hi Hs) by (assumption || discriminate).
    reflexivity.
Qed.

(** The squares [calc_rms_error] keeps are not negative. *)
Lemma kept_squares_nonneg (errs sqrs : list float) (z : nat) :
  Np.delete (Np.square errs) z = Ok sqrs -> Forall nonneg (Np.drop_nan sqrs).
Proof.
  unfold Np.delete. destruct (z <? length (Np.square errs)); [|discriminate].
  intros H. injection H as <-.
  assert (Hsq : Forall (fun x => is_nan x = false -> nonneg x) (Np.square errs)).
  { unfold Np.square. rewrite Forall_map, Forall_forall.
    intros e _. apply mul_self_nonneg. }
  apply (RmsMore.Forall_others_than z) in Hsq. unfold others_than in Hsq.
  unfold Np.drop_nan. rewrite Forall_forall in *. intros x Hx.
  apply filter_In in Hx as [Hin Hnan]. apply Hsq; [exact Hin|].
  destruct (is_nan x); [discriminate|reflexivity].
Qed.

(** So the sum and the mean [calc_rms_error] takes are the same from
    either zero. *)
Theorem sum_from_squares (init start : float) (errs sqrs : list float) (z : nat) :
  zero init -> zero start ->
  Np.delete (Np.square errs) z = Ok sqrs -> Np.drop_nan sqrs <> [] ->
  Np.sum_from init start (Np.drop_nan sqrs) = Np.sum (Np.drop_nan sqrs).
Proof.
  intros Hi Hs Hd Hne.
  apply sum_from_nonneg; try assumption. eapply kept_squares_nonneg, Hd.
Qed.

Theorem mean_from_squares (init start : float) (errs sqrs : list float) (z : nat) :
  zero init -> zero start ->
  Np.delete (Np.square errs) z = Ok sqrs ->
  (Np.sum_from init start (Np.drop_nan sqrs)
   / Np.float_of_count (length (Np.drop_nan sqrs)))%float
  = Np.mean (Np.drop_nan sqrs).
Proof.
  intros Hi Hs Hd.
  apply mean_from_nonneg; try assumption. eapply kept_squares_nonneg, Hd.
Qed.

(** The sign of a zero sum is all the two zeros change. *)
Example sum_from_negative_zero :
  Np.sum_from neg_zero neg_zero [neg_zero] = neg_zero /\
  Np.sum [neg_zero] = 0%float /\
  Np.sum_from neg_zero neg_zero [neg_zero; 2; 3]%float = Np.sum [neg_zero; 2; 3]%float.
Proof. repeat split; reflexivity. Qed.

End SumStart.

(** X11. A method row that is missing at every position, as the row of
    a molecule absent from the method's file is, has the missing marker
    [nan] as its RMS error, whatever the reference row holds. *)
Theorem rms_file_all_missing (lowest_conf_indices : list nat) (i : nat)
  (mol_array : list (list float)) (filelist ref_row : list float) (z : nat) :
  nth_error mol_array 0 = Some ref_row ->
  nth_error lowest_conf_indices i = Some z ->
  length filelist = length ref_row -> z < length ref_row ->
  Forall (fun x => is_nan x = true) filelist ->
  rms_file lowest_conf_indices i mol_array filelist = Ok nan.
Proof.
  intros Href Hz Hlen Hzlt Hnan.
  unfold rms_file, get. rewrite Href. simpl bind.
  unfold Np.sub. rewrite Hlen, Nat.eqb_refl. simpl bind. rewrite Hz. simpl bind.
  rewrite delete_ok by (unfold Np.square; rewrite !length_map, length_combine; lia).
  simpl bind. rewrite RmsMore.drop_nan_all_missing; [reflexivity|].
  apply RmsMore.Forall_others_than.
  unfold Np.square. rewrite map_map. apply Forall_map.
  apply Forall_forall. intros [a b] Hin. simpl. rewrite Fl.mul_self_is_nan.
  apply Fl.sub_nan_l. rewrite Forall_forall in Hnan. apply Hnan.
  eapply in_combine_l, Hin.
Qed.

(** X12. [calc_rms_error] returns one RMS error per molecule and per
    method row, and each is the missing marker [nan] or a number that is
    not negative. *)
Theorem calc_rms_error_shape_sign (rel_energies : list (list (list float)))
  (lowest_conf_indices : list nat) (rms_array : list (list float)) :
  calc_rms_error rel_energies lowest_conf_indices = Ok rms_array ->
  Forall2 (fun mol_array mol_rmses =>
             length mol_rmses = length mol_array /\
             Forall (fun rmse => is_nan rmse = true \/ (0 <=? rmse)%float = true)
                    mol_rmses)
          rel_energies rms_array.
Proof.
  unfold calc_rms_error, enumerate. generalize 0. revert rms_array.
  induction rel_energies as [|mol_array rest IH]; intros rms_array s H; simpl in H.
  - injection H as <-. constructor.
  - apply PyFacts.bind_ok in H as (mol_rmses & Hm & H).
    apply PyFacts.bind_ok in H as (rmss & Hr & H). injection H as <-.
    constructor; [|eapply IH, Hr]. simpl in Hm.
    split; [apply (@PyFacts.mapM_length _ _ _ _ _ Hm)|].
    apply Forall_forall. intros rmse Hin. apply In_nth_error in Hin as (j & Hj).
    assert (Hjl : j < length mol_array).
    { rewrite <- (@PyFacts.mapM_length _ _ _ _ _ Hm). apply nth_error_Some. congruence. }
    destruct (nth_error mol_array j) as [filelist|] eqn:Ef;
      [|apply nth_error_None in Ef; lia].
    destruct (@PyFacts.mapM_nth _ _ _ _ _ _ _ Hm Ef) as (r & Hr' & Hf).
    rewrite Hj in Hr'. injection Hr' as <-.
    unfold rms_file in Hf.
    apply PyFacts.bind_ok in Hf as (ref_row & _ & Hf).
    apply PyFacts.bind_ok in Hf as (errs & _ & Hf).
    apply PyFacts.bind_ok in Hf as (z & _ & Hf).
    apply PyFacts.bind_ok in Hf as (sqrs & _ & Hf). injection Hf as <-.
    apply RmsMore.sqrt_sign.
Qed.


(** ** The dictionary [match_minima] builds *)

Module DictMore.

(** [d.get(k, new_entry)]: how the loop body sees the entry of [k]. *)
Definition entry_of (d : mol_dict) (k : string) : MolEntry :=
  match dict_get k d with
  | Some e => e
  | None => new_entry
  end.

(** The keys after [if k not in d: d[k] = ...]. *)
Definition key_step (ks : list string) (t : string) : list string :=
  if in_dec string_dec t ks then ks else ks ++ [t].

Lemma dict_mem_keys (k : string) (d : mol_dict) :
  dict_mem k d = true <-> In k (map fst d).
Proof.
  induction d as [|[k' e] d IH]; simpl.
  - split; [discriminate|contradiction].
  - destruct (String.eqb_spec k k') as [->|N]; simpl.
    + split; auto.
    + rewrite IH. split; [auto|]. intros [E|H]; [congruence|exact H].
Qed.

Lemma dict_mem_get (k : string) (d : mol_dict) :
  dict_mem k d = match dict_get k d with Some _ => true | None => false end.
Proof.
  induction d as [|[k' e] d IH]; simpl; [reflexivity|].
  destruct (String.eqb k k'); simpl; [reflexivity|exact IH].
Qed.

Lemma keys_update (k : string) (f : MolEntry -> MolEntry) (d : mol_dict) :
  map fst (dict_update k f d) = map fst d.
Proof.
  induction d as [|[k' e] d IH]; simpl; [reflexivity|].
  destruct (String.eqb k k'); simpl; [reflexivity|]. rewrite IH. reflexivity.
Qed.

Lemma keys_setdefault (k : string) (d : mol_dict) :
  map fst (dict_setdefault k d) = key_step (map fst d) k.
Proof.
  unfold dict_setdefault, key_step.
  destruct (in_dec string_dec k (map fst d)) as [H|H].
  - apply dict_mem_keys in H. rewrite H. reflexivity.
  - destruct (dict_mem k d) eqn:E; [apply dict_mem_keys in E; contradiction|].
    rewrite map_app. reflexivity.
Qed.

Lemma dict_get_update (k : string) (f : MolEntry -> MolEntry) (d : mol_dict) (k' : string) :
  dict_get k' (dict_update k f d)
  = if String.eqb k' k then option_map f (dict_get k' d) else dict_get k' d.
Proof.
  induction d as [|[k0 e] d IH]; simpl; [destruct (String.eqb k' k); reflexivity|].
  destruct (String.eqb_spec k k0) as [E|N]; simpl.
  - subst k0. destruct (String.eqb_spec k' k) as [E'|N']; reflexivity.
  - rewrite IH. destruct (String.eqb_spec k' k) as [E'|N']; [|reflexivity].
    subst k'. destruct (String.eqb_spec k k0); [contradiction|reflexivity].
Qed.

Lemma dict_get_app (d1 d2 : mol_dict) (k : string) :
  dict_get k (d1 ++ d2)
  = match dict_get k d1 with Some e => Some e | None => dict_get k d2 end.
Proof.
  induction d1 as [|[k0 e] d1 IH]; simpl; [reflexivity|].
  destruct (String.eqb k k0); [reflexivity|exact IH].
Qed.

Lemma dict_get_setdefault (k : string) (d : mol_dict) (k' : string) :
  dict_get k' (dict_setdefault k d)
  = if String.eqb k' k then Some (entry_of d k) else dict_get k' d.
Proof.
  unfold dict_setdefault, entry_of. rewrite dict_mem_get.
  destruct (String.eqb_spec k' k) as [->|N].
  - destruct (dict_get k d) as [e|] eqn:E; [exact E|].
    rewrite dict_get_app, E. simpl. rewrite String.eqb_refl. reflexivity.
  - destruct (dict_get k d) as [e|] eqn:E; [reflexivity|].
    rewrite dict_get_app. simpl.
    destruct (String.eqb_spec k' k); [contradiction|].
    destruct (dict_get k' d); reflexivity.
Qed.

(** The entry of [k'] after one pass of the loop body on the title [k]. *)
Lemma entry_of_step (k : string) (F : MolEntry -> MolEntry) (d : mol_dict) (k' : string) :
  entry_of (dict_update k F (dict_setdefault k d)) k'
  = if String.eqb k' k then F (entry_of d k) else entry_of d k'.
Proof.
  unfold entry_of at 1. rewrite dict_get_update, dict_get_setdefault.
  destruct (String.eqb_spec k' k) as [->|N]; reflexivity.
Qed.

Lemma in_dict_get (k : string) (e : MolEntry) (d : mol_dict) :
  NoDup (map fst d) -> In (k, e) d -> dict_get k d = Some e.
Proof.
  induction d as [|[k0 e0] d IH]; simpl; intros Hnd Hin; [contradiction|].
  inversion Hnd as [|? ? Hk0 Hnd']; subst.
  destruct Hin as [E|Hin].
  - injection E as -> ->. rewrite String.eqb_refl. reflexivity.
  - destruct (String.eqb_spec k k0) as [->|N]; [|apply IH; assumption].
    exfalso. apply Hk0. apply (in_map fst) in Hin. exact Hin.
Qed.

Lemma in_entry_of (k : string) (e : MolEntry) (d : mol_dict) :
  NoDup (map fst d) -> In (k, e) d -> entry_of d k = e.
Proof. intros Hnd Hin. unfold entry_of. rewrite (@in_dict_get k e d Hnd Hin). reflexivity. Qed.

Lemma dict_update_twice (k : string) (f g : MolEntry -> MolEntry) (d : mol_dict) :
  dict_update k f (dict_update k g d) = dict_update k (fun e => f (g e)) d.
Proof.
  induction d as [|[k0 e] d IH]; simpl; [reflexivity|].
  destruct (String.eqb k k0) eqn:E; simpl; rewrite E; [reflexivity|].
  rewrite IH. reflexivity.
Qed.

Lemma key_fold_in (ts : list string) : forall (ks : list string) (k : string),
  In k (fold_left key_step ts ks) <-> In k ks \/ In k ts.
Proof.
  induction ts as [|t ts IH]; simpl; intros ks k; [tauto|].
  rewrite IH. unfold key_step. destruct (in_dec string_dec t ks) as [H|H].
  - split; [tauto|]. intros [H'|[<-|H']]; auto.
  - rewrite in_app_iff. simpl. tauto.
Qed.

Lemma key_fold_nodup (ts : list string) : forall ks : list string,
  NoDup ks -> NoDup (fold_left key_step ts ks).
Proof.
  induction ts as [|t ts IH]; simpl; intros ks H; [exact H|].
  apply IH. unfold key_step. destruct (in_dec string_dec t ks) as [Hin|Hin]; [exact H|].
  apply NoDup_app; [exact H|repeat constructor; intros []|].
  intros x Hx [<-|[]]. contradiction.
Qed.

Lemma key_fold_fixed (ts ks : list string) :
  incl ts ks -> fold_left key_step ts ks = ks.
Proof.
  induction ts as [|t ts IH]; simpl; intros H; [reflexivity|].
  unfold key_step at 2. destruct (in_dec string_dec t ks) as [Hin|Hin].
  - apply IH. intros x Hx. apply H. right. exact Hx.
  - exfalso. apply Hin, H. left. reflexivity.
Qed.

Lemma key_fold_fresh (ts : list string) : forall ks : list string,
  NoDup (ks ++ ts) -> fold_left key_step ts ks = ks ++ ts.
Proof.
  induction ts as [|t ts IH]; simpl; intros ks H; [rewrite app_nil_r; reflexivity|].
  unfold key_step at 2. destruct (in_dec string_dec t ks) as [Hin|Hin].
  - exfalso. apply NoDup_remove_2 in H. apply H, in_or_app. left. exact Hin.
  - rewrite IH; rewrite <- app_assoc; [reflexivity|exact H].
Qed.

(** A loop seen through what holds after each prefix of its items. *)
Lemma foldM_prefix {A S} (Q : list A -> S -> Prop) (f : S -> A -> result S) (l : list A) :
  (forall pre a post s s',
     l = pre ++ a :: post -> Q pre s -> f s a = Ok s' -> Q (pre ++ [a]) s') ->
  forall s s', Q [] s -> foldM f l s = Ok s' -> Q l s'.
Proof.
  intros Hstep.
  assert (G : forall post pre s s',
             l = pre ++ post -> Q pre s -> foldM f post s = Ok s' -> Q l s').
  { induction post as [|a post IH]; simpl; intros pre s s' El Hs H.
    - injection H as <-. rewrite El, app_nil_r. exact Hs.
    - apply PyFacts.bind_ok in H as (s1 & H1 & H2).
      apply (IH (pre ++ [a]) s1 s'); [rewrite <- app_assoc; exact El| |exact H2].
      eapply Hstep; eauto. }
  intros s s' Hs H. exact (G l [] s s' eq_refl Hs H).
Qed.

End DictMore.

Section DictionaryShape.

Variable Geom : Type.
Variable OERMSD : Geom -> Geom -> bool -> bool -> bool -> float.
Variable read_mols : string -> list (Mol Geom).
Variable py_float : string -> result float.

(** The geometry matcher stores a position or [None], never a code. *)
Lemma compare_two_mols_positions (rmol qmol : Mol Geom) (rmsd_cutoff : float)
  (molIndices : list (option Z)) :
  compare_two_mols OERMSD rmol qmol rmsd_cutoff = Ok molIndices ->
  Forall (fun c => forall k, c = Some k -> (0 <= k)%Z) molIndices.
Proof.
  unfold compare_two_mols. revert molIndices.
  induction (confs rmol) as [|r rs IH]; simpl; intros molIndices H.
  - injection H as <-. constructor.
  - apply PyFacts.bind_ok in H as (c & Hc & H).
    apply PyFacts.bind_ok in H as (cs & Hcs & H). injection H as <-.
    constructor; [|apply IH, Hcs].
    unfold match_conf in Hc.
    apply PyFacts.bind_ok in Hc as (k & _ & Hc).
    apply PyFacts.bind_ok in Hc as (dist & _ & Hc). injection Hc as <-.
    intros k' E. destruct (dist <=? rmsd_cutoff)%float; [|discriminate].
    injection E as <-. lia.
Qed.

(** The row pair one pass of the loop body stores for [rmol], from the
    query generator [gen], and the generator it leaves. *)
Definition row_of (sdf_ref sdf_query sdf_tag : string) (rmsd_cutoff : float)
  (gen : list (Mol Geom)) (rmol : Mol Geom) (erow : list float) (irow : list (option Z))
  (gen' : list (Mol Geom)) : Prop :=
  let n := length (confs rmol) in
  (fst (scan_query (title rmol) gen) = None /\
   irow = repeat (Some (-2)%Z) n /\ erow = repeat nan n /\ gen' = read_mols sdf_query) \/
  (exists qmol,
     scan_query (title rmol) gen = (Some qmol, gen') /\
     mapM py_float (get_sd_list qmol sdf_tag) = Ok erow /\
     ((sdf_query = sdf_ref /\ irow = repeat (Some (-1)%Z) n) \/
      (sdf_query <> sdf_ref /\ compare_two_mols OERMSD rmol qmol rmsd_cutoff = Ok irow))).

(** One pass of the loop body: the entry of the title of [rmol] gets one
    more row of energies and one more row of indices, nothing else
    changes. *)
Lemma match_rmol_step (sdf_ref sdf_query sdf_tag : string) (rmsd_cutoff : float)
  (st st' : mol_dict * list (Mol Geom)) (rmol : Mol Geom) :
  match_rmol OERMSD read_mols py_float sdf_ref sdf_query sdf_tag rmsd_cutoff st rmol = Ok st' ->
  exists F erow irow,
    fst st' = dict_update (title rmol) F (dict_setdefault (title rmol) (fst st)) /\
    (forall e, energies (F e) = energies e ++ [erow] /\
               indices (F e) = indices e ++ [irow]) /\
    row_of sdf_ref sdf_query sdf_tag rmsd_cutoff (snd st) rmol erow irow (snd st').
Proof.
  unfold match_rmol, row_of.
  destruct (scan_query (title rmol) (snd st)) as [[qmol|] mols_query] eqn:Es.
  - intros H. apply PyFacts.bind_ok in H as (enes & He & H).
    destruct (String.eqb_spec sdf_query sdf_ref) as [E|N].
    + injection H as <-. rewrite DictMore.dict_update_twice.
      eexists _, enes, _. split; [reflexivity|]. split; [intros e; split; reflexivity|].
      right. exists qmol. simpl. auto.
    + apply PyFacts.bind_ok in H as (molIndices & Hm & H). injection H as <-.
      rewrite DictMore.dict_update_twice.
      eexists _, enes, molIndices. split; [reflexivity|].
      split; [intros e; split; reflexivity|].
      right. exists qmol. simpl. auto.
  - intros H. injection H as <-. rewrite !DictMore.dict_update_twice.
    eexists _, _, _. split; [reflexivity|]. split; [intros e; split; reflexivity|].
    left. simpl. auto.
Qed.

(** The keys after a method: those before, then the new titles. *)
Lemma match_method_keys (sdf_ref : string) (rmsd_cutoff : float) (d d' : mol_dict)
  (ff : string * Method) :
  match_method OERMSD read_mols py_float sdf_ref rmsd_cutoff d ff = Ok d' ->
  map fst d' = fold_left DictMore.key_step (map (@title Geom) (read_mols sdf_ref)) (map fst d).
Proof.
  unfold match_method. intros H.
  apply PyFacts.bind_ok in H as (st & Hst & H). injection H as <-.
  refine (@DictMore.foldM_prefix _ _
            (fun pre (s : mol_dict * list (Mol Geom)) =>
               map fst (fst s) = fold_left DictMore.key_step (map (@title Geom) pre) (map fst d))
            _ _ _ _ _ _ Hst); [|reflexivity].
  intros pre rmol post s s' _ Hs Hstep.
  apply match_rmol_step in Hstep as (F & erow & irow & -> & _ & _).
  rewrite DictMore.keys_update, DictMore.keys_setdefault, Hs.
  rewrite map_app, fold_left_app. reflexivity.
Qed.

Lemma match_minima_keys_fold (in_dict : list (string * Method)) (rmsd_cutoff : float)
  (d : mol_dict) :
  match_minima OERMSD read_mols py_float in_dict rmsd_cutoff = Ok d ->
  exists ref,
    nth_error in_dict 0 = Some ref /\
    map fst d = fold_left DictMore.key_step (map (@title Geom) (read_mols (sdfile (snd ref)))) [].
Proof.
  unfold match_minima. intros H.
  apply PyFacts.bind_ok in H as (ref & Href & H). apply PyFacts.get_ok in Href.
  exists ref. split; [exact Href|].
  set (titles := map (@title Geom) (read_mols (sdfile (snd ref)))).
  assert (Q : (in_dict = [] /\ map fst d = []) \/
              (in_dict <> [] /\ map fst d = fold_left DictMore.key_step titles [])).
  { refine (@DictMore.foldM_prefix _ _
              (fun pre (s : mol_dict) =>
                 (pre = [] /\ map fst s = []) \/
                 (pre <> [] /\ map fst s = fold_left DictMore.key_step titles []))
              _ _ _ _ _ _ H); [|auto].
    intros pre ff post s s' _ Hs Hstep. right.
    split; [intros E; apply app_eq_nil in E as [_ E]; discriminate|].
    apply match_method_keys in Hstep. fold titles in Hstep. rewrite Hstep.
    destruct Hs as [[_ ->]|[_ ->]]; [reflexivity|].
    apply DictMore.key_fold_fixed. intros t Ht.
    apply DictMore.key_fold_in. right. exact Ht. }
  destruct Q as [[-> _]|[_ Q]]; [discriminate|exact Q].
Qed.

Lemma match_minima_keys_nodup (in_dict : list (string * Method)) (rmsd_cutoff : float)
  (d : mol_dict) :
  match_minima OERMSD read_mols py_float in_dict rmsd_cutoff = Ok d -> NoDup (map fst d).
Proof.
  intros H. destruct (@match_minima_keys_fold _ _ _ H) as (ref & _ & ->).
  apply DictMore.key_fold_nodup. constructor.
Qed.

(** X13. The dictionary [match_minima] returns has exactly one entry per
    distinct title of the reference file, whatever the other files
    hold; when the reference titles are all different, the entries are
    in the order of the reference file. *)
Theorem match_minima_keys (in_dict : list (string * Method)) (rmsd_cutoff : float)
  (d : mol_dict) :
  match_minima OERMSD read_mols py_float in_dict rmsd_cutoff = Ok d ->
  exists ref,
    nth_error in_dict 0 = Some ref /\
    NoDup (map fst d) /\
    (forall mol_name,
       In mol_name (map fst d) <->
       exists rmol, In rmol (read_mols (sdfile (snd ref))) /\ title rmol = mol_name) /\
    (NoDup (map (@title Geom) (read_mols (sdfile (snd ref)))) ->
     map fst d = map (@title Geom) (read_mols (sdfile (snd ref)))).
Proof.
  intros H. destruct (@match_minima_keys_fold _ _ _ H) as (ref & Href & E).
  exists ref. split; [exact Href|]. split; [eapply match_minima_keys_nodup, H|].
  split.
  - intros mol_name. rewrite E, DictMore.key_fold_in, in_map_iff.
    split.
    + intros [[]|(rmol & Ht & Hin)]. exists rmol. auto.
    + intros (rmol & Hin & Ht). right. exists rmol. auto.
  - intros Hnd. rewrite E. apply (DictMore.key_fold_fresh _ []). exact Hnd.
Qed.

(** X14. In the dictionary [match_minima] returns, an entry has as many
    rows of energies as rows of indices: one of each per method and per
    reference molecule of its title, so one per method when the
    reference titles are all different. *)
Theorem match_minima_row_counts (in_dict : list (string * Method)) (rmsd_cutoff : float)
  (d : mol_dict) :
  match_minima OERMSD read_mols py_float in_dict rmsd_cutoff = Ok d ->
  exists ref,
    nth_error in_dict 0 = Some ref /\
    forall mol_name e, In (mol_name, e) d ->
      length (energies e) = length (indices e) /\
      length (indices e)
      = length in_dict
        * count_occ string_dec (map (@title Geom) (read_mols (sdfile (snd ref)))) mol_name.
Proof.
  intros H. pose proof (@match_minima_keys_nodup _ _ _ H) as Hnd.
  unfold match_minima in H.
  apply PyFacts.bind_ok in H as (ref & Href & H). apply PyFacts.get_ok in Href.
  exists ref. split; [exact Href|].
  set (mols_ref := read_mols (sdfile (snd ref))) in *.
  assert (Q : forall k,
             length (energies (DictMore.entry_of d k))
             = length in_dict * count_occ string_dec (map (@title Geom) mols_ref) k /\
             length (indices (DictMore.entry_of d k))
             = length in_dict * count_occ string_dec (map (@title Geom) mols_ref) k).
  { refine (@DictMore.foldM_prefix _ _
              (fun pre (s : mol_dict) => forall k,
                 length (energies (DictMore.entry_of s k))
                 = length pre * count_occ string_dec (map (@title Geom) mols_ref) k /\
                 length (indices (DictMore.entry_of s k))
                 = length pre * count_occ string_dec (map (@title Geom) mols_ref) k)
              _ _ _ _ _ _ H); [|intros k; split; reflexivity].
    intros pre ff post s s' _ Hs Hstep k. unfold match_method in Hstep.
    apply PyFacts.bind_ok in Hstep as (st & Hst & Hstep). injection Hstep as <-.
    fold mols_ref in Hst.
    assert (R : length (energies (DictMore.entry_of (fst st) k))
                = length (energies (DictMore.entry_of s k))
                  + count_occ string_dec (map (@title Geom) mols_ref) k /\
                length (indices (DictMore.entry_of (fst st) k))
                = length (indices (DictMore.entry_of s k))
                  + count_occ string_dec (map (@title Geom) mols_ref) k).
    { refine (@DictMore.foldM_prefix _ _
                (fun pre' (s0 : mol_dict * list (Mol Geom)) =>
                   length (energies (DictMore.entry_of (fst s0) k))
                   = length (energies (DictMore.entry_of s k))
                     + count_occ string_dec (map (@title Geom) pre') k /\
                   length (indices (DictMore.entry_of (fst s0) k))
                   = length (indices (DictMore.entry_of s k))
                     + count_occ string_dec (map (@title Geom) pre') k)
                _ _ _ _ _ _ Hst); [|simpl; lia].
      intros pre' rmol post' s0 s1 _ [Hs1 Hs2] Hstep.
      apply match_rmol_step in Hstep as (F & erow & irow & -> & HF & _).
      rewrite DictMore.entry_of_step, map_app, count_occ_app. simpl.
      destruct (String.eqb_spec k (title rmol)) as [->|N].
      - destruct (HF (DictMore.entry_of (fst s0) (title rmol))) as [-> ->].
        rewrite !length_app. simpl.
        destruct (string_dec (title rmol) (title rmol)); [lia|contradiction].
      - destruct (string_dec (title rmol) k); [congruence|lia]. }
    destruct (Hs k) as [Hs1 Hs2]. rewrite length_app. simpl. lia. }
  intros mol_name e Hin. rewrite <- (@DictMore.in_entry_of _ _ _ Hnd Hin).
  destruct (Q mol_name) as [Q1 Q2]. lia.
Qed.

(** What every pass of the loop body keeps true of an entry is true of
    every entry of the dictionary [match_minima] returns. *)
Lemma match_minima_entries (I : MolEntry -> Prop) (in_dict : list (string * Method))
  (rmsd_cutoff : float) (d : mol_dict) :
  I new_entry ->
  (forall sdf_ref sdf_query sdf_tag gen rmol erow irow gen' F e,
     row_of sdf_ref sdf_query sdf_tag rmsd_cutoff gen rmol erow irow gen' ->
     (forall e, energies (F e) = energies e ++ [erow] /\
                indices (F e) = indices e ++ [irow]) ->
     I e -> I (F e)) ->
  match_minima OERMSD read_mols py_float in_dict rmsd_cutoff = Ok d ->
  forall mol_name e, In (mol_name, e) d -> I e.
Proof.
  intros Hnew Hrow H. pose proof (@match_minima_keys_nodup _ _ _ H) as Hnd.
  unfold match_minima in H.
  apply PyFacts.bind_ok in H as (ref & _ & H).
  assert (Q : forall k, I (DictMore.entry_of d k)).
  { refine (DictFacts.foldM_invariant (fun s => forall k, I (DictMore.entry_of s k))
              _ _ _ _ _ H); [|intros k; exact Hnew].
    intros s ff s' _ Hs Hstep. unfold match_method in Hstep.
    apply PyFacts.bind_ok in Hstep as (st & Hst & Hstep). injection Hstep as <-.
    refine (DictFacts.foldM_invariant
              (fun s0 : mol_dict * list (Mol Geom) =>
                 forall k, I (DictMore.entry_of (fst s0) k)) _ _ _ _ _ Hst); [|exact Hs].
    intros s0 rmol s1 _ Hs0 Hstep k.
    apply match_rmol_step in Hstep as (F & erow & irow & -> & HF & Hr).
    rewrite DictMore.entry_of_step.
    destruct (String.eqb k (title rmol)); [|apply Hs0].
    eapply Hrow; eauto. }
  intros mol_name e Hin. rewrite <- (@DictMore.in_entry_of _ _ _ Hnd Hin). apply Q.
Qed.

(** X15. In the dictionary [match_minima] returns, the rows of energies
    and of indices of an entry pair up, and a row of indices that holds
    the code [-2] of an absent molecule holds nothing else and is paired
    with a row of as many [nan]s. *)
Theorem match_minima_absent_rows (in_dict : list (string * Method)) (rmsd_cutoff : float)
  (d : mol_dict) (mol_name : string) (e : MolEntry) :
  match_minima OERMSD read_mols py_float in_dict rmsd_cutoff = Ok d ->
  In (mol_name, e) d ->
  Forall2 (fun erow irow =>
             In (Some (-2)%Z) irow ->
             irow = repeat (Some (-2)%Z) (length irow) /\
             erow = repeat nan (length irow))
          (energies e) (indices e).
Proof.
  intros H. revert mol_name e.
  apply (@match_minima_entries
           (fun e => Forall2 (fun erow irow =>
                                In (Some (-2)%Z) irow ->
                                irow = repeat (Some (-2)%Z) (length irow) /\
                                erow = repeat nan (length irow))
                             (energies e) (indices e))
           in_dict rmsd_cutoff d); [constructor| |exact H].
  intros sdf_ref sdf_query sdf_tag gen rmol erow irow gen' F e Hr HF He.
  destruct (HF e) as [-> ->]. apply Forall2_app; [exact He|].
  constructor; [|constructor]. intros Hin.
  destruct Hr as [(_ & -> & -> & _)|(qmol & _ & _ & [[_ ->]|[_ Hc]])].
  - rewrite repeat_length. auto.
  - apply repeat_spec in Hin. discriminate.
  - apply compare_two_mols_positions in Hc. rewrite Forall_forall in Hc.
    specialize (Hc _ Hin (-2)%Z eq_refl). lia.
Qed.

End DictionaryShape.


(** ** Which row of an entry comes from which method and molecule *)

Section RowProvenance.

Variable Geom : Type.
Variable OERMSD : Geom -> Geom -> bool -> bool -> bool -> float.
Variable read_mols : string -> list (Mol Geom).
Variable py_float : string -> result float.

(** The row pairs one method stores, one per reference molecule, with
    the query generator threaded from one molecule to the next. *)
Fixpoint rows_of_method (sdf_ref sdf_query sdf_tag : string) (rmsd_cutoff : float)
  (mols_ref gen : list (Mol Geom)) (rows : list (list float * list (option Z))) : Prop :=
  match mols_ref, rows with
  | [], [] => True
  | rmol :: mols', row :: rows' =>
      exists gen',
        row_of OERMSD read_mols py_float sdf_ref sdf_query sdf_tag rmsd_cutoff
               gen rmol (fst row) (snd row) gen' /\
        rows_of_method sdf_ref sdf_query sdf_tag rmsd_cutoff mols' gen' rows'
  | _, _ => False
  end.

(** One method, reference titles all different: the entry of the
    molecule at position [j] gets the row pair at position [j]. *)
Lemma foldM_match_rmol_rows (sdf_ref sdf_query sdf_tag : string) (rmsd_cutoff : float)
  (mols : list (Mol Geom)) :
  NoDup (map (@title Geom) mols) ->
  forall (d : mol_dict) (gen : list (Mol Geom)) (st' : mol_dict * list (Mol Geom)),
  foldM (match_rmol OERMSD read_mols py_float sdf_ref sdf_query sdf_tag rmsd_cutoff)
        mols (d, gen) = Ok st' ->
  exists rows,
    rows_of_method sdf_ref sdf_query sdf_tag rmsd_cutoff mols gen rows /\
    (forall k, ~ In k (map (@title Geom) mols) ->
               DictMore.entry_of (fst st') k = DictMore.entry_of d k) /\
    (forall j rmol, nth_error mols j = Some rmol ->
       exists row,
         nth_error rows j = Some row /\
         energies (DictMore.entry_of (fst st') (title rmol))
         = energies (DictMore.entry_of d (title rmol)) ++ [fst row] /\
         indices (DictMore.entry_of (fst st') (title rmol))
         = indices (DictMore.entry_of d (title rmol)) ++ [snd row]).
Proof.
  induction mols as [|rmol mols IH]; intros Hnd d gen st' H; simpl in H.
  - injection H as <-. exists []. simpl. split; [exact I|]. split; [reflexivity|].
    intros [|j] r Hj; discriminate.
  - apply PyFacts.bind_ok in H as ([d1 gen1] & H1 & H2).
    simpl in Hnd. inversion Hnd as [|? ? Hfresh Hnd']; subst.
    destruct (@match_rmol_step _ OERMSD read_mols py_float _ _ _ _ _ _ _ H1)
      as (F & erow & irow & Ed1 & HF & Hrow).
    simpl in Ed1, Hrow.
    destruct (IH Hnd' d1 gen1 st' H2) as (rows & Hrows & Hout & Hin).
    assert (Eother : forall k, k <> title rmol ->
                       DictMore.entry_of d1 k = DictMore.entry_of d k).
    { intros k N. rewrite Ed1, DictMore.entry_of_step.
      destruct (String.eqb_spec k (title rmol)); [contradiction|reflexivity]. }
    exists ((erow, irow) :: rows). split; [|split].
    + simpl. exists gen1. auto.
    + intros k Hk. simpl in Hk. rewrite Hout by tauto. apply Eother.
      intros E. apply Hk. left. symmetry. exact E.
    + intros [|j] r Hj; simpl in Hj.
      * injection Hj as <-. exists (erow, irow). split; [reflexivity|].
        rewrite (Hout _ Hfresh), Ed1, DictMore.entry_of_step, String.eqb_refl. simpl.
        apply HF.
      * destruct (Hin j r Hj) as (row & Hr & He & Hi).
        exists row. split; [exact Hr|].
        rewrite He, Hi, Eother; [auto|].
        intros E. apply Hfresh. rewrite <- E.
        apply in_map, (nth_error_In _ _ Hj).
Qed.

(** All methods: the entry of the molecule at position [j] of the
    reference file has one row pair per method, in the order of the
    methods. *)
Lemma foldM_match_method_rows (sdf_ref : string) (rmsd_cutoff : float)
  (j : nat) (rmol : Mol Geom) (in_dict : list (string * Method)) :
  NoDup (map (@title Geom) (read_mols sdf_ref)) ->
  nth_error (read_mols sdf_ref) j = Some rmol ->
  forall d0 d : mol_dict,
  foldM (match_method OERMSD read_mols py_float sdf_ref rmsd_cutoff) in_dict d0 = Ok d ->
  exists rws : list (list float * list (option Z)),
    Forall2 (fun (ff : string * Method) row =>
               exists rows,
                 rows_of_method sdf_ref (sdfile (snd ff)) (sdtag (snd ff)) rmsd_cutoff
                                (read_mols sdf_ref) (read_mols (sdfile (snd ff))) rows /\
                 nth_error rows j = Some row)
            in_dict rws /\
    energies (DictMore.entry_of d (title rmol))
    = energies (DictMore.entry_of d0 (title rmol)) ++ map fst rws /\
    indices (DictMore.entry_of d (title rmol))
    = indices (DictMore.entry_of d0 (title rmol)) ++ map snd rws.
Proof.
  intros Hnd Hj. induction in_dict as [|ff in_dict IH]; intros d0 d H; simpl in H.
  - injection H as <-. exists []. rewrite !app_nil_r. auto.
  - apply PyFacts.bind_ok in H as (d1 & H1 & H2). unfold match_method in H1.
    apply PyFacts.bind_ok in H1 as (st & Hst & H1). injection H1 as <-.
    destruct (@foldM_match_rmol_rows _ _ _ _ _ Hnd _ _ _ Hst) as (rows & Hrows & _ & Hin).
    destruct (Hin j rmol Hj) as (row & Hr & He & Hi).
    destruct (IH _ _ H2) as (rws & Hall & He' & Hi').
    exists (row :: rws). split; [constructor; [eauto|exact Hall]|].
    rewrite He', Hi', He, Hi, <- !app_assoc. auto.
Qed.

(** The row pair of method [i] in the entry of the reference molecule
    at position [j]. *)
Lemma match_minima_row (in_dict : list (string * Method)) (rmsd_cutoff : float)
  (d : mol_dict) (ref ff : string * Method) (i j : nat) (rmol : Mol Geom) :
  match_minima OERMSD read_mols py_float in_dict rmsd_cutoff = Ok d ->
  nth_error in_dict 0 = Some ref ->
  NoDup (map (@title Geom) (read_mols (sdfile (snd ref)))) ->
  nth_error in_dict i = Some ff ->
  nth_error (read_mols (sdfile (snd ref))) j = Some rmol ->
  exists e rows row,
    In (title rmol, e) d /\
    (forall e', In (title rmol, e') d -> e' = e) /\
    rows_of_method (sdfile (snd ref)) (sdfile (snd ff)) (sdtag (snd ff)) rmsd_cutoff
                   (read_mols (sdfile (snd ref))) (read_mols (sdfile (snd ff))) rows /\
    nth_error rows j = Some row /\
    nth_error (energies e) i = Some (fst row) /\
    nth_error (indices e) i = Some (snd row).
Proof.
  intros H Href Hnd Hi Hj.
  pose proof (@match_minima_keys_nodup _ OERMSD read_mols py_float _ _ _ H) as Hkeys.
  assert (Hk : In (title rmol) (map fst d)).
  { destruct (@match_minima_keys_fold _ OERMSD read_mols py_float _ _ _ H)
      as (ref' & Href' & ->).
    rewrite Href in Href'. injection Href' as <-.
    apply DictMore.key_fold_in. right. apply in_map, (nth_error_In _ _ Hj). }
  apply in_map_iff in Hk as ([k e] & Ek & Hin). simpl in Ek. subst k.
  unfold match_minima in H. unfold get in H. rewrite Href in H. simpl in H.
  destruct (@foldM_match_method_rows _ _ _ _ _ Hnd Hj _ _ H) as (rws & Hall & He & Hix).
  rewrite (@DictMore.in_entry_of _ _ _ Hkeys Hin) in He, Hix. simpl in He, Hix.
  destruct (@RelEne.Forall2_nth _ _ _ _ _ Hall _ _ Hi) as (row & Hrow & _ & rows & Hrows & Hr).
  exists e, rows, row. split; [exact Hin|]. split.
  { intros e' Hin'. rewrite <- (@DictMore.in_entry_of _ _ _ Hkeys Hin').
    apply (@DictMore.in_entry_of _ _ _ Hkeys Hin). }
  split; [exact Hrows|]. split; [exact Hr|].
  rewrite He, Hix. split; apply map_nth_error, Hrow.
Qed.

(** A molecule no query molecule is titled like gets the absent rows,
    wherever the query generator stands. *)
Lemma rows_of_method_absent (sdf_ref sdf_query sdf_tag : string) (rmsd_cutoff : float)
  (mols : list (Mol Geom)) :
  forall (gen : list (Mol Geom)) (rows : list (list float * list (option Z)))
         (j : nat) (rmol : Mol Geom) (row : list float * list (option Z)),
  rows_of_method sdf_ref sdf_query sdf_tag rmsd_cutoff mols gen rows ->
  incl gen (read_mols sdf_query) ->
  nth_error mols j = Some rmol -> nth_error rows j = Some row ->
  (forall qmol, In qmol (read_mols sdf_query) -> title qmol <> title rmol) ->
  row = (repeat nan (length (confs rmol)), repeat (Some (-2)%Z) (length (confs rmol))).
Proof.
  induction mols as [|r mols IH]; intros gen [|row0 rows] j rmol row Hrows Hincl Hj Hr Habs;
    simpl in Hrows; try contradiction; [destruct j; discriminate|].
  destruct Hrows as (gen' & Hrow & Hrows).
  assert (Hincl' : incl gen' (read_mols sdf_query)).
  { destruct Hrow as [(_ & _ & _ & ->)|(qmol & Hs & _)]; [apply incl_refl|].
    apply scan_query_found in Hs as (skipped & -> & _ & _).
    intros m Hm. apply Hincl, in_or_app. right. right. exact Hm. }
  destruct j as [|j]; simpl in Hj, Hr.
  - injection Hj as ->. injection Hr as ->.
    destruct Hrow as [(_ & Ei & Ee & _)|(qmol & Hs & _)].
    + destruct row as [erow irow]. simpl in Ei, Ee. subst. reflexivity.
    + apply scan_query_found in Hs as (skipped & -> & Ht & _).
      exfalso. apply (Habs qmol); [|exact Ht].
      apply Hincl, in_or_app. right. left. reflexivity.
  - eapply IH; eauto.
Qed.

(** X16. Reference titles all different: a reference molecule that no
    molecule of a method's file is titled like has, at the position of
    that method, the row of [-2] codes and the row of [nan] energies,
    one per conformer of the reference molecule. *)
Theorem match_minima_flags_absent_molecule (in_dict : list (string * Method))
  (rmsd_cutoff : float) (d : mol_dict) (ref ff : string * Method) (i : nat)
  (rmol : Mol Geom) :
  match_minima OERMSD read_mols py_float in_dict rmsd_cutoff = Ok d ->
  nth_error in_dict 0 = Some ref ->
  NoDup (map (@title Geom) (read_mols (sdfile (snd ref)))) ->
  nth_error in_dict i = Some ff ->
  In rmol (read_mols (sdfile (snd ref))) ->
  (forall qmol, In qmol (read_mols (sdfile (snd ff))) -> title qmol <> title rmol) ->
  exists e,
    In (title rmol, e) d /\
    nth_error (indices e) i = Some (repeat (Some (-2)%Z) (length (confs rmol))) /\
    nth_error (energies e) i = Some (repeat nan (length (confs rmol))).
Proof.
  intros H Href Hnd Hi Hin Habs.
  apply In_nth_error in Hin as (j & Hj).
  destruct (@match_minima_row _ _ _ _ _ _ _ _ H Href Hnd Hi Hj)
    as (e & rows & row & He & _ & Hrows & Hr & Hen & Hix).
  exists e. split; [exact He|].
  rewrite (@rows_of_method_absent _ _ _ _ _ _ _ _ _ _ Hrows (incl_refl _) Hj Hr Habs) in Hen, Hix.
  auto.
Qed.

(** *** Molecules that are found *)

(** [t] is the title of a molecule of [mols]. *)
Definition listed (mols : list (Mol Geom)) (t : string) : bool :=
  existsb (fun m => String.eqb t (title m)) mols.

(** The titles two files share come in the same order in both. *)
Definition same_relative_order (mols_ref file : list (Mol Geom)) : Prop :=
  map (@title Geom) (filter (fun q => listed mols_ref (title q)) file)
  = map (@title Geom) (filter (fun r => listed file (title r)) mols_ref).

Lemma listed_in (mols : list (Mol Geom)) (t : string) :
  listed mols t = true <-> In t (map (@title Geom) mols).
Proof.
  unfold listed. rewrite existsb_exists, in_map_iff.
  split; intros (m & H1 & H2); exists m.
  - apply String.eqb_eq in H2. auto.
  - split; [tauto|]. apply String.eqb_eq. symmetry. tauto.
Qed.

Lemma listed_false (mols : list (Mol Geom)) (t : string) :
  listed mols t = false <-> ~ In t (map (@title Geom) mols).
Proof.
  rewrite <- listed_in. destruct (listed mols t); split; congruence.
Qed.

Lemma same_title_same_mol (l : list (Mol Geom)) (a b : Mol Geom) :
  NoDup (map (@title Geom) l) -> In a l -> In b l -> title a = title b -> a = b.
Proof.
  induction l as [|x l IH]; simpl; intros Hnd Ha Hb E; [contradiction|].
  inversion Hnd as [|? ? Hx Hnd']; subst.
  destruct Ha as [->|Ha], Hb as [->|Hb]; auto.
  - exfalso. apply Hx. rewrite E. apply in_map, Hb.
  - exfalso. apply Hx. rewrite <- E. apply in_map, Ha.
Qed.

Lemma filter_head_split {A} (p : A -> bool) (l : list A) : forall (x : A) (rest : list A),
  filter p l = x :: rest ->
  exists skipped l',
    l = skipped ++ x :: l' /\ Forall (fun y => p y = false) skipped /\
    filter p l' = rest.
Proof.
  induction l as [|a l IH]; simpl; intros x rest H; [discriminate|].
  destruct (p a) eqn:Ea.
  - injection H as <- <-. exists [], l. auto.
  - destruct (IH _ _ H) as (sk & l' & -> & Hsk & Hl').
    exists (a :: sk), l'. auto.
Qed.

(** Dropping the first reference molecule keeps the shared titles in
    the same order. *)
Lemma same_relative_order_tail (r : Mol Geom) (post file : list (Mol Geom)) :
  NoDup (map (@title Geom) (r :: post)) ->
  same_relative_order (r :: post) file -> same_relative_order post file.
Proof.
  unfold same_relative_order. intros Hnd H.
  simpl in Hnd. inversion Hnd as [|? ? Hr Hnd']; subst.
  apply (f_equal (filter (fun t => negb (String.eqb t (title r))))) in H.
  rewrite !RmsFacts.filter_map_comm, !RmsFacts.filter_filter in H.
  rewrite (filter_ext (fun a => listed (r :: post) (title a)
                                && negb (String.eqb (title a) (title r)))
                      (fun q => listed post (title q))) in H.
  2:{ intros q. unfold listed at 1. simpl. fold (listed post (title q)).
      destruct (String.eqb_spec (title q) (title r)) as [E|N]; simpl.
      - symmetry. apply listed_false. rewrite E. exact Hr.
      - rewrite andb_true_r. reflexivity. }
  rewrite H. f_equal. simpl.
  assert (F : forall l : list (Mol Geom),
             (forall m, In m l -> In m post) ->
             filter (fun a => listed file (title a) && negb (String.eqb (title a) (title r))) l
             = filter (fun r0 => listed file (title r0)) l).
  { intros l Hl. apply filter_ext_in. intros m Hm.
    destruct (String.eqb_spec (title m) (title r)) as [E|N]; simpl.
    - exfalso. apply Hr. rewrite <- E. apply in_map, Hl, Hm.
    - apply andb_true_r. }
  destruct (listed file (title r)); simpl.
  - rewrite String.eqb_refl. simpl.
    rewrite <- (F post) by auto. rewrite <- RmsFacts.filter_filter. reflexivity.
  - rewrite <- (F post) by auto. rewrite <- RmsFacts.filter_filter. reflexivity.
Qed.

(** The namesakes in [file] of the molecules of [post] are all still
    to come in the generator [gen], in the order of [post]. *)
Definition ahead (post file gen : list (Mol Geom)) : Prop :=
  map (@title Geom) (filter (fun q => listed post (title q)) gen)
  = map (@title Geom) (filter (fun r => listed file (title r)) post).

(** With the shared titles in the same order and no title twice, the
    scan of the query generator finds the namesake of every reference
    molecule that has one. *)
Lemma rows_of_method_present (sdf_ref sdf_query sdf_tag : string) (rmsd_cutoff : float)
  (qmol : Mol Geom) (post : list (Mol Geom)) :
  NoDup (map (@title Geom) (read_mols sdf_query)) ->
  In qmol (read_mols sdf_query) ->
  forall (gen : list (Mol Geom)) (rows : list (list float * list (option Z)))
         (j : nat) (rmol : Mol Geom) (row : list float * list (option Z)),
  rows_of_method sdf_ref sdf_query sdf_tag rmsd_cutoff post gen rows ->
  NoDup (map (@title Geom) post) ->
  same_relative_order post (read_mols sdf_query) ->
  NoDup (map (@title Geom) gen) -> incl gen (read_mols sdf_query) ->
  ahead post (read_mols sdf_query) gen ->
  nth_error post j = Some rmol -> nth_error rows j = Some row ->
  title qmol = title rmol ->
  mapM py_float (get_sd_list qmol sdf_tag) = Ok (fst row) /\
  ((sdf_query = sdf_ref /\ snd row = repeat (Some (-1)%Z) (length (confs rmol))) \/
   (sdf_query <> sdf_ref /\
    compare_two_mols OERMSD rmol qmol rmsd_cutoff = Ok (snd row))).
Proof.
  intros Hfile Hq.
  induction post as [|r post IH];
    intros gen [|row0 rows] j rmol row Hrows Hnd Hord Hgnd Hincl Hgen Hj Hr Ht;
    simpl in Hrows; try contradiction; [destruct j; discriminate|].
  destruct Hrows as (gen' & Hrow & Hrows).
  pose proof (@same_relative_order_tail _ _ _ Hnd Hord) as Hord'.
  assert (Hnd' : NoDup (map (@title Geom) post)) by (inversion Hnd; assumption).
  destruct (listed (read_mols sdf_query) (title r)) eqn:El.
  - (* the file has a molecule titled like [r]: it is the next one listed *)
    unfold ahead in Hgen. cbn [filter] in Hgen. rewrite El in Hgen.
    destruct (filter (fun q => listed (r :: post) (title q)) gen) as [|q rest'] eqn:Ef;
      cbn [map] in Hgen; [discriminate|].
    injection Hgen as Eq Erest.
    destruct (@filter_head_split _ _ _ _ _ Ef) as (skipped & g' & Egen & Hsk & Hg').
    assert (Hs : scan_query (title r) gen = (Some q, g')).
    { apply scan_query_found. exists skipped. split; [exact Egen|]. split; [exact Eq|].
      eapply Forall_impl; [|exact Hsk]. intros m Hm Em. simpl in Hm.
      unfold listed in Hm. simpl in Hm. rewrite Em, String.eqb_refl in Hm. discriminate. }
    destruct Hrow as [(Hnone & _)|(qmol' & Hs' & Hen & Hcase)];
      [rewrite Hs in Hnone; discriminate|].
    rewrite Hs in Hs'. injection Hs' as <- <-.
    assert (Hqin : In q gen) by (rewrite Egen; apply in_or_app; right; left; reflexivity).
    destruct j as [|j]; simpl in Hj, Hr.
    + injection Hj as <-. injection Hr as <-.
      assert (E : q = qmol).
      { apply (@same_title_same_mol _ _ _ Hfile); [apply Hincl, Hqin|exact Hq|congruence]. }
      subst q. auto.
    + assert (Hgnd' : NoDup (map (@title Geom) (q :: g'))).
      { rewrite Egen, map_app in Hgnd. apply NoDup_app_remove_l in Hgnd. exact Hgnd. }
      simpl in Hgnd'. inversion Hgnd' as [|? ? Hqf Hg'nd]; subst.
      apply (IH g' rows j rmol row); auto.
      * intros m Hm. apply Hincl. apply in_or_app. right. right. exact Hm.
      * unfold ahead. rewrite <- Erest. f_equal. apply filter_ext_in. intros m Hm.
        unfold listed at 2. simpl. fold (listed post (title m)).
        destruct (String.eqb_spec (title m) (title r)) as [E|N]; [|reflexivity].
        exfalso. apply Hqf. rewrite Eq, <- E. apply in_map, Hm.
  - (* no molecule of the file is titled like [r]: the scan ends and is reset *)
    assert (Hno : forall m, In m (read_mols sdf_query) -> title m <> title r).
    { intros m Hm E. apply listed_false in El. apply El. rewrite <- E. apply in_map, Hm. }
    destruct Hrow as [(_ & _ & _ & ->)|(qmol' & Hs' & _)].
    + destruct j as [|j]; simpl in Hj, Hr.
      * injection Hj as <-. exfalso. apply (Hno qmol Hq Ht).
      * apply (IH (read_mols sdf_query) rows j rmol row); auto. apply incl_refl.
    + apply scan_query_found in Hs' as (skipped & Egen & Et & _).
      exfalso. apply (Hno qmol'); [|exact Et].
      apply Hincl. rewrite Egen. apply in_or_app. right. left. reflexivity.
Qed.

(** X17. Reference titles all different, the titles of a method's file
    all different, and the titles the two files share in the same order
    in both: a reference molecule that has a namesake in the method's
    file gets, at the position of that method, the energies read from
    the namesake and the conformer indices of the comparison with the
    namesake ([-1] codes when the method's file is the reference file),
    whichever molecules either file has besides. *)
Theorem match_minima_finds_present_molecule (in_dict : list (string * Method))
  (rmsd_cutoff : float) (d : mol_dict) (ref ff : string * Method) (i : nat)
  (rmol qmol : Mol Geom) :
  match_minima OERMSD read_mols py_float in_dict rmsd_cutoff = Ok d ->
  nth_error in_dict 0 = Some ref ->
  NoDup (map (@title Geom) (read_mols (sdfile (snd ref)))) ->
  nth_error in_dict i = Some ff ->
  NoDup (map (@title Geom) (read_mols (sdfile (snd ff)))) ->
  same_relative_order (read_mols (sdfile (snd ref))) (read_mols (sdfile (snd ff))) ->
  In rmol (read_mols (sdfile (snd ref))) ->
  In qmol (read_mols (sdfile (snd ff))) ->
  title qmol = title rmol ->
  exists e erow irow,
    In (title rmol, e) d /\
    nth_error (energies e) i = Some erow /\
    nth_error (indices e) i = Some irow /\
    mapM py_float (get_sd_list qmol (sdtag (snd ff))) = Ok erow /\
    ((sdfile (snd ff) = sdfile (snd ref) /\
      irow = repeat (Some (-1)%Z) (length (confs rmol))) \/
     (sdfile (snd ff) <> sdfile (snd ref) /\
      compare_two_mols OERMSD rmol qmol rmsd_cutoff = Ok irow)).
Proof.
  intros H Href Hnd Hi Hfile Hord Hin Hq Ht.
  apply In_nth_error in Hin as (j & Hj).
  destruct (@match_minima_row _ _ _ _ _ _ _ _ H Href Hnd Hi Hj)
    as (e & rows & row & He & _ & Hrows & Hr & Hen & Hix).
  exists e, (fst row), (snd row). split; [exact He|]. split; [exact Hen|].
  split; [exact Hix|].
  apply (@rows_of_method_present _ _ _ _ qmol _ Hfile Hq _ _ _ _ _ Hrows Hnd Hord Hfile
           (incl_refl _) Hord Hj Hr Ht).
Qed.

(** X18. Reference titles all different: in the entry of every
    reference molecule, the first row of indices, that of the reference
    method itself, holds the code [-1] once per conformer, and the
    first row of energies holds the values read from the reference
    molecule's own tag. *)
Theorem match_minima_reference_rows (in_dict : list (string * Method))
  (rmsd_cutoff : float) (d : mol_dict) (ref : string * Method) (rmol : Mol Geom) :
  match_minima OERMSD read_mols py_float in_dict rmsd_cutoff = Ok d ->
  nth_error in_dict 0 = Some ref ->
  NoDup (map (@title Geom) (read_mols (sdfile (snd ref)))) ->
  In rmol (read_mols (sdfile (snd ref))) ->
  exists e erow,
    In (title rmol, e) d /\
    nth_error (indices e) 0 = Some (repeat (Some (-1)%Z) (length (confs rmol))) /\
    nth_error (energies e) 0 = Some erow /\
    mapM py_float (get_sd_list rmol (sdtag (snd ref))) = Ok erow.
Proof.
  intros H Href Hnd Hin.
  pose proof Hin as Hin'. apply In_nth_error in Hin' as (j & Hj).
  destruct (@match_minima_row _ _ _ _ _ _ _ _ H Href Hnd Href Hj)
    as (e & rows & row & He & _ & Hrows & Hr & Hen & Hix).
  destruct (@rows_of_method_present _ _ _ _ rmol _ Hnd Hin _ _ _ _ _ Hrows Hnd
              (eq_refl : same_relative_order _ _) Hnd (incl_refl _)
              (eq_refl : ahead _ _ _) Hj Hr eq_refl)
    as (Herow & [[_ Eirow]|[N _]]); [|contradiction].
  exists e, (fst row). rewrite <- Eirow. auto.
Qed.

End RowProvenance.

(** ** The index rows of every molecule and method *)

Section IndexRows.

Variable Geom : Type.
Variable OERMSD : Geom -> Geom -> bool -> bool -> bool -> float.
Variable read_mols : string -> list (Mol Geom).
Variable py_float : string -> result float.

(** An index row of a reference molecule: the code of one outcome per
    conformer of the molecule. *)
Definition index_row (rmol : Mol Geom) (row : list (option Z)) : Prop :=
  exists outcomes, row = map encode outcomes /\ length row = length (confs rmol).

(** The reference molecules of a title, in the order of the file. *)
Definition titled (mol_name : string) (mols_ref : list (Mol Geom)) : list (Mol Geom) :=
  filter (fun rmol => String.eqb mol_name (title rmol)) mols_ref.

(** The row pairs stored under a title by one method. *)
Definition rows_for (mol_name : string) (mols : list (Mol Geom))
  (rows : list (list float * list (option Z))) : list (list float * list (option Z)) :=
  map snd (filter (fun p => String.eqb mol_name (title (fst p))) (combine mols rows)).

(** Every row pair a method stores holds an index row of its molecule. *)
Lemma rows_of_method_index_rows (sdf_ref sdf_query sdf_tag : string) (rmsd_cutoff : float)
  (mols : list (Mol Geom)) :
  forall (gen : list (Mol Geom)) (rows : list (list float * list (option Z))),
  rows_of_method OERMSD read_mols py_float sdf_ref sdf_query sdf_tag rmsd_cutoff
                 mols gen rows ->
  Forall2 (fun rmol row => index_row rmol (snd row)) mols rows.
Proof.
  induction mols as [|rmol mols IH]; intros gen [|row rows] H; simpl in H;
    try contradiction; [constructor|].
  destruct H as (gen' & Hrow & Hrows). constructor; [|apply (IH gen'), Hrows].
  destruct Hrow as [(_ & -> & _ & _)|(qmol & _ & _ & [[_ ->]|[_ Hc]])].
  - exists (repeat MoleculeAbsent (length (confs rmol))).
    split; [apply (repeat_encode MoleculeAbsent)|apply repeat_length].
  - exists (repeat SelfReference (length (confs rmol))).
    split; [apply (repeat_encode SelfReference)|apply repeat_length].
  - destruct (@compare_two_mols_codes _ OERMSD _ _ _ _ Hc) as (outcomes & E & Hlen).
    exists outcomes. split; [exact E|]. rewrite E, length_map. exact Hlen.
Qed.

Lemma Forall2_rows_for (mol_name : string) (mols : list (Mol Geom))
  (rows : list (list float * list (option Z))) :
  Forall2 (fun rmol row => index_row rmol (snd row)) mols rows ->
  Forall2 index_row (titled mol_name mols) (map snd (rows_for mol_name mols rows)).
Proof.
  unfold titled, rows_for.
  induction 1 as [|rmol row mols rows Hr _ IH]; simpl; [constructor|].
  destruct (String.eqb mol_name (title rmol)); simpl; [constructor; assumption|exact IH].
Qed.

(** One method: under every title, the index rows of the entry grow by
    the rows of the reference molecules of that title, in their order. *)
Lemma foldM_match_rmol_index_rows (sdf_ref sdf_query sdf_tag : string)
  (rmsd_cutoff : float) (mols : list (Mol Geom)) :
  forall (d : mol_dict) (gen : list (Mol Geom)) (st' : mol_dict * list (Mol Geom)),
  foldM (match_rmol OERMSD read_mols py_float sdf_ref sdf_query sdf_tag rmsd_cutoff)
        mols (d, gen) = Ok st' ->
  exists rows,
    rows_of_method OERMSD read_mols py_float sdf_ref sdf_query sdf_tag rmsd_cutoff
                   mols gen rows /\
    forall k,
      indices (DictMore.entry_of (fst st') k)
      = indices (DictMore.entry_of d k) ++ map snd (rows_for k mols rows).
Proof.
  induction mols as [|rmol mols IH]; intros d gen st' H; simpl in H.
  - injection H as <-. exists []. split; [exact I|]. intros k. simpl.
    rewrite app_nil_r. reflexivity.
  - apply PyFacts.bind_ok in H as ([d1 gen1] & H1 & H2).
    destruct (@match_rmol_step _ OERMSD read_mols py_float _ _ _ _ _ _ _ H1)
      as (F & erow & irow & Ed1 & HF & Hrow).
    simpl in Ed1, Hrow.
    destruct (IH d1 gen1 st' H2) as (rows & Hrows & Hix).
    exists ((erow, irow) :: rows). split; [simpl; eauto|].
    intros k. rewrite Hix, Ed1, DictMore.entry_of_step.
    unfold rows_for. simpl.
    destruct (String.eqb k (title rmol)) eqn:E; [|reflexivity].
    apply String.eqb_eq in E. subst k.
    destruct (HF (DictMore.entry_of d (title rmol))) as [_ ->].
    simpl. rewrite <- app_assoc. reflexivity.
Qed.

(** All methods: under every title, the index rows are those of the
    methods one after the other. *)
Lemma foldM_match_method_index_rows (sdf_ref : string) (rmsd_cutoff : float)
  (mol_name : string) (in_dict : list (string * Method)) :
  forall d0 d : mol_dict,
  foldM (match_method OERMSD read_mols py_float sdf_ref rmsd_cutoff) in_dict d0 = Ok d ->
  exists rowss : list (list (list (option Z))),
    indices (DictMore.entry_of d mol_name)
    = indices (DictMore.entry_of d0 mol_name) ++ concat rowss /\
    Forall2 (fun (_ : string * Method) rows =>
               Forall2 index_row (titled mol_name (read_mols sdf_ref)) rows)
            in_dict rowss.
Proof.
  induction in_dict as [|ff in_dict IH]; intros d0 d H; simpl in H.
  - injection H as <-. exists []. simpl. rewrite app_nil_r. auto.
  - apply PyFacts.bind_ok in H as (d1 & H1 & H2). unfold match_method in H1.
    apply PyFacts.bind_ok in H1 as (st & Hst & H1). injection H1 as <-.
    destruct (@foldM_match_rmol_index_rows _ _ _ _ _ _ _ _ Hst) as (rows & Hrows & Hix).
    destruct (IH _ _ H2) as (rowss & E & Hall).
    exists (map snd (rows_for mol_name (read_mols sdf_ref) rows) :: rowss).
    split.
    + rewrite E, Hix. simpl. rewrite <- app_assoc. reflexivity.
    + constructor; [|exact Hall].
      apply Forall2_rows_for. eapply rows_of_method_index_rows, Hrows.
Qed.

(** C9. The dictionary [match_minima] returns has an entry for every
    reference molecule, and the index rows of an entry are, method
    after method in the order of the input, one row per reference
    molecule of the entry's title, each with exactly one entry per
    conformer of that reference molecule, the code of one of the four
    outcomes, whether the row was stored for an absent molecule, for
    the reference method itself or by the geometry matcher.  When the
    reference titles are all different, the row of a molecule for the
    method at position [i] of the input is the row at position [i] of
    the molecule's entry. *)
Theorem match_minima_index_rows (in_dict : list (string * Method)) (rmsd_cutoff : float)
  (d : mol_dict) :
  match_minima OERMSD read_mols py_float in_dict rmsd_cutoff = Ok d ->
  exists ref,
    nth_error in_dict 0 = Some ref /\
    (forall rmol, In rmol (read_mols (sdfile (snd ref))) ->
       exists e, In (title rmol, e) d) /\
    (forall mol_name e, In (mol_name, e) d ->
       exists rowss : list (list (list (option Z))),
         indices e = concat rowss /\
         Forall2 (fun (_ : string * Method) rows =>
                    Forall2 index_row
                            (titled mol_name (read_mols (sdfile (snd ref)))) rows)
                 in_dict rowss) /\
    (NoDup (map (@title Geom) (read_mols (sdfile (snd ref)))) ->
     forall i ff rmol e,
       nth_error in_dict i = Some ff ->
       In rmol (read_mols (sdfile (snd ref))) -> In (title rmol, e) d ->
       exists row,
         nth_error (indices e) i = Some row /\ index_row rmol row).
Proof.
  intros H.
  pose proof (@match_minima_keys_nodup _ OERMSD read_mols py_float _ _ _ H) as Hkeys.
  destruct (@match_minima_keys_fold _ OERMSD read_mols py_float _ _ _ H)
    as (ref & Href & Ekeys).
  exists ref. split; [exact Href|]. split; [|split].
  - intros rmol Hin.
    assert (Hk : In (title rmol) (map fst d)).
    { rewrite Ekeys. apply DictMore.key_fold_in. right. apply in_map, Hin. }
    apply in_map_iff in Hk as ([k e] & Ek & He). simpl in Ek. subst k. eauto.
  - intros mol_name e He. pose proof H as H'.
    unfold match_minima, get in H'. rewrite Href in H'. simpl in H'.
    destruct (@foldM_match_method_index_rows _ _ mol_name _ _ _ H') as (rowss & E & Hall).
    rewrite (@DictMore.in_entry_of _ _ _ Hkeys He) in E. simpl in E.
    exists rowss. auto.
  - intros Hnd i ff rmol e Hi Hin He.
    apply In_nth_error in Hin as (j & Hj).
    destruct (@match_minima_row _ OERMSD read_mols py_float _ _ _ _ _ _ _ _
                H Href Hnd Hi Hj)
      as (e0 & rows & row & _ & Huniq & Hrows & Hr & _ & Hix).
    rewrite <- (Huniq e He) in Hix.
    exists (snd row). split; [exact Hix|].
    pose proof (@rows_of_method_index_rows _ _ _ _ _ _ _ Hrows) as F2.
    destruct (@RelEne.Forall2_nth _ _ _ _ _ F2 _ _ Hj) as (row' & Hr' & _ & Hrow').
    rewrite Hr in Hr'. injection Hr' as <-. exact Hrow'.
Qed.

End IndexRows.


(** * read_mols: opening a file and slicing its molecules

    [read_mols(infile, mol_slice)] as the file defines it.  The stream
    of the toolkit is a parameter: [ifs_open infile] is [None] when
    [ifs.open(infile)] fails and the molecules [ifs.GetOEMols()] yields
    otherwise.  A slice is a Python list of integers. *)

Module Reader.

(** What [read_mols] raises. *)
Inductive read_exn : Type :=
| FileNotFoundError
| Builtin (e : exn).

Section ReadMols.

Variable Geom : Type.
Variable ifs_open : string -> option (list (Mol Geom)).

(** [for j in range(n): count += 1; next(mols)]; [None] is the
    [StopIteration] of [next] on an exhausted generator. *)
Fixpoint incrementer_loop (n : nat) (count : Z) (mols : list (Mol Geom))
  : option (Z * list (Mol Geom)) :=
  match n with
  | 0 => Some (count, mols)
  | S n' =>
      match mols with
      | [] => None
      | _ :: mols' => incrementer_loop n' (count + 1)%Z mols'
      end
  end.

(** [incrementer(count, mols, step)]: the new count and what the
    generator has left. *)
Definition incrementer (count : Z) (mols : list (Mol Geom)) (step : Z)
  : option (Z * list (Mol Geom)) :=
  if (step =? 1)%Z then Some (count + 1, mols)%Z
  else incrementer_loop (Z.to_nat (step - 1)) count mols.

(** The loop [for i, m in enumerate(mols)] on the state ([count],
    [mlist]); every pass takes at least one molecule from the
    generator, [fuel] bounds the number of passes. *)
Fixpoint slice_loop (fuel : nat) (start stop step : Z) (count : Z)
  (mols mlist : list (Mol Geom)) : list (Mol Geom) :=
  match fuel with
  | 0 => mlist
  | S fuel' =>
      match mols with
      | [] => mlist
      | m :: rest =>
          if (stop <=? count)%Z then mlist
          else if (count <? start)%Z
               then slice_loop fuel' start stop step (count + 1)%Z rest mlist
               else
                 match incrementer count rest step with
                 | None => mlist ++ [m]
                 | Some (count', rest') =>
                     slice_loop fuel' start stop step count' rest' (mlist ++ [m])
                 end
      end
  end.

Definition read_mols (infile : string) (mol_slice : option (list Z))
  : read_exn + list (Mol Geom) :=
  match ifs_open infile with
  | None => inl FileNotFoundError
  | Some mols =>
      match mol_slice with
      | None => inr mols
      | Some [start; stop; step] =>
          if (stop <=? start)%Z || (step <=? 0)%Z then inl (Builtin ValueError)
          else inr (slice_loop (length mols) start stop step 0 mols [])
      | Some _ => inl (Builtin ValueError)
      end
  end.

(** The position in the file of the [k]-th molecule of a slice, and
    the value of [count] when the loop reaches it: [count] grows by
    [step - 1] from one molecule kept to the next, by 1 when [step] is
    1. *)
Definition slice_position (start step : Z) (k : nat) : nat :=
  Z.to_nat (Z.max 0 start) + k * Z.to_nat step.

Definition slice_count (start step : Z) (k : nat) : Z :=
  (Z.max 0 start + Z.of_nat k * Z.max 1 (step - 1))%Z.

Lemma incrementer_loop_ok (n : nat) : forall (count : Z) (mols : list (Mol Geom)),
  incrementer_loop n count mols
  = if n <=? length mols then Some ((count + Z.of_nat n)%Z, skipn n mols) else None.
Proof.
  induction n as [|n IH]; intros count mols.
  - simpl. rewrite Z.add_0_r. reflexivity.
  - destruct mols as [|m mols]; [reflexivity|].
    cbn [incrementer_loop]. rewrite IH. cbn [length skipn].
    change (S n <=? S (length mols)) with (n <=? length mols).
    destruct (n <=? length mols); [|reflexivity].
    do 2 f_equal. lia.
Qed.

(** After [incrementer]: the count moved by [max 1 (step - 1)], the
    generator by [step - 1] molecules, or it ran out. *)
Lemma incrementer_ok (count : Z) (mols : list (Mol Geom)) (step : Z) :
  (0 < step)%Z ->
  incrementer count mols step
  = if Z.to_nat (step - 1) <=? length mols
    then Some ((count + Z.max 1 (step - 1))%Z, skipn (Z.to_nat (step - 1)) mols)
    else None.
Proof.
  intros Hstep. unfold incrementer. destruct (Z.eqb_spec step 1) as [->|N].
  - reflexivity.
  - rewrite incrementer_loop_ok.
    destruct (Z.to_nat (step - 1) <=? length mols); [|reflexivity].
    do 2 f_equal. lia.
Qed.

(** The loop, once [count] has reached [start]. *)
Lemma slice_loop_taking (start stop step : Z) (fuel : nat) :
  (0 < step)%Z ->
  forall (count : Z) (mols mlist : list (Mol Geom)),
  length mols <= fuel -> (start <= count)%Z ->
  exists tail,
    slice_loop fuel start stop step count mols mlist = mlist ++ tail /\
    forall k,
      nth_error tail k
      = if (count + Z.of_nat k * Z.max 1 (step - 1) <? stop)%Z
        then nth_error mols (k * Z.to_nat step)
        else None.
Proof.
  intros Hstep. induction fuel as [|fuel IH]; intros count mols mlist Hlen Hcount.
  - destruct mols; [|simpl in Hlen; lia]. exists []. simpl. rewrite app_nil_r.
    split; [reflexivity|]. intros k.
    rewrite !nth_error_nil. destruct (_ <? _)%Z; reflexivity.
  - destruct mols as [|m rest].
    { exists []. simpl. rewrite app_nil_r. split; [reflexivity|]. intros k.
      rewrite !nth_error_nil. destruct (_ <? _)%Z; reflexivity. }
    cbn [slice_loop]. destruct (Z.leb_spec stop count) as [Hstop|Hstop].
    { exists []. rewrite app_nil_r. split; [reflexivity|]. intros k.
      destruct (Z.ltb_spec (count + Z.of_nat k * Z.max 1 (step - 1)) stop) as [H|H];
        [nia|apply nth_error_nil]. }
    destruct (Z.ltb_spec count start) as [H|_]; [lia|].
    rewrite incrementer_ok by exact Hstep.
    assert (Etail : forall k,
               nth_error rest (Z.to_nat (step - 1) + k * Z.to_nat step)
               = nth_error (m :: rest) (S k * Z.to_nat step)).
    { intros k. replace (S k * Z.to_nat step)
        with (S (Z.to_nat (step - 1) + k * Z.to_nat step)) by lia. reflexivity. }
    destruct (Nat.leb_spec (Z.to_nat (step - 1)) (length rest)) as [Hle|Hgt].
    + destruct (IH (count + Z.max 1 (step - 1))%Z (skipn (Z.to_nat (step - 1)) rest)
                   (mlist ++ [m])) as (tail & -> & Htail).
      { rewrite length_skipn. simpl in Hlen. lia. }
      { lia. }
      exists (m :: tail). rewrite <- app_assoc. split; [reflexivity|].
      intros [|k].
      * simpl. rewrite Z.add_0_r. destruct (Z.ltb_spec count stop); [reflexivity|lia].
      * cbn [nth_error]. rewrite Htail, nth_error_skipn, Etail.
        replace (count + Z.max 1 (step - 1) + Z.of_nat k * Z.max 1 (step - 1))%Z
          with (count + Z.of_nat (S k) * Z.max 1 (step - 1))%Z by lia.
        reflexivity.
    + exists [m]. split; [reflexivity|]. intros [|k].
      * simpl. rewrite Z.add_0_r. destruct (Z.ltb_spec count stop); [reflexivity|lia].
      * rewrite <- Etail.
        replace (nth_error rest (Z.to_nat (step - 1) + k * Z.to_nat step))
          with (@None (Mol Geom)) by (symmetry; apply nth_error_None; lia).
        destruct (_ <? _)%Z; destruct k; reflexivity.
Qed.

(** The loop from the start: the molecules before [start] are passed. *)
Lemma slice_loop_skipping (start stop step : Z) (fuel : nat) :
  (0 < step)%Z -> (start < stop)%Z ->
  forall (count : Z) (mols : list (Mol Geom)),
  length mols <= fuel -> (0 <= count)%Z -> (count <= Z.max 0 start)%Z ->
  exists mlist,
    slice_loop fuel start stop step count mols [] = mlist /\
    forall k,
      nth_error mlist k
      = if (Z.max 0 start + Z.of_nat k * Z.max 1 (step - 1) <? stop)%Z
        then nth_error mols (Z.to_nat (Z.max 0 start - count) + k * Z.to_nat step)
        else None.
Proof.
  intros Hstep Hss. induction fuel as [|fuel IH]; intros count mols Hlen H0 Hcount.
  - destruct mols; [|simpl in Hlen; lia]. exists []. split; [reflexivity|]. intros k.
    rewrite !nth_error_nil. destruct (_ <? _)%Z; reflexivity.
  - destruct (Z.eq_dec count (Z.max 0 start)) as [E|N].
    + destruct (@slice_loop_taking start stop step (S fuel) Hstep count mols [] Hlen)
        as (tail & Ht & Htail); [lia|].
      exists tail. split; [exact Ht|]. intros k. rewrite Htail, E.
      replace (Z.to_nat (Z.max 0 start - Z.max 0 start)) with 0 by lia. reflexivity.
    + destruct mols as [|m rest].
      { exists []. split; [reflexivity|]. intros k.
        rewrite !nth_error_nil. destruct (_ <? _)%Z; reflexivity. }
      cbn [slice_loop]. destruct (Z.leb_spec stop count) as [Hstop|_]; [lia|].
      destruct (Z.ltb_spec count start) as [_|H]; [|lia].
      destruct (IH (count + 1)%Z rest) as (mlist & -> & Hm); [simpl in Hlen; lia|lia|lia|].
      eexists. split; [reflexivity|]. intros k. rewrite Hm.
      replace (Z.to_nat (Z.max 0 start - count))
        with (S (Z.to_nat (Z.max 0 start - (count + 1)))) by lia.
      reflexivity.
Qed.

End ReadMols.

End Reader.

(** X19. [read_mols] on a file that opens, with a slice
    [[start, stop, step]] where [start < stop] and [step >= 1], returns
    a list: its [k]-th molecule is the one at position
    [max 0 start + k * step] of the file, for every [k] with
    [max 0 start + k * max 1 (step - 1) < stop], and it holds nothing
    else.  With [step] 2 or more it so keeps molecules at and beyond
    position [stop]. *)
Theorem read_mols_slice_positions {Geom : Type}
  (ifs_open : string -> option (list (Mol Geom))) (infile : string)
  (mols : list (Mol Geom)) (start stop step : Z) :
  ifs_open infile = Some mols -> (start < stop)%Z -> (0 < step)%Z ->
  exists mlist,
    Reader.read_mols ifs_open infile (Some [start; stop; step]) = inr mlist /\
    forall k,
      nth_error mlist k
      = if (Reader.slice_count start step k <? stop)%Z
        then nth_error mols (Reader.slice_position start step k)
        else None.
Proof.
  intros Hopen Hss Hstep. unfold Reader.read_mols. rewrite Hopen.
  destruct (Z.leb_spec stop start) as [H|_]; [lia|].
  destruct (Z.leb_spec step 0) as [H|_]; [lia|]. simpl orb. cbv iota.
  destruct (@Reader.slice_loop_skipping Geom start stop step (length mols) Hstep Hss
              0%Z mols (le_n _)) as (mlist & -> & Hm); [lia|lia|].
  exists mlist. split; [reflexivity|]. intros k. rewrite Hm.
  unfold Reader.slice_count, Reader.slice_position. rewrite Z.sub_0_r. reflexivity.
Qed.

(** X20. With [step] 1 and [0 <= start < stop], [read_mols] returns the
    molecules at the positions [start] to [stop - 1] of the file, those
    the file has: Python's [mols[start:stop]]. *)
Theorem read_mols_slice_step_one {Geom : Type}
  (ifs_open : string -> option (list (Mol Geom))) (infile : string)
  (mols : list (Mol Geom)) (start stop : Z) :
  ifs_open infile = Some mols -> (0 <= start < stop)%Z ->
  Reader.read_mols ifs_open infile (Some [start; stop; 1%Z])
  = inr (firstn (Z.to_nat (stop - start)) (skipn (Z.to_nat start) mols)).
Proof.
  intros Hopen Hss. unfold Reader.read_mols. rewrite Hopen.
  destruct (Z.leb_spec stop start) as [H|_]; [lia|].
  change (false || (1 <=? 0)%Z) with false. cbv iota.
  destruct (@Reader.slice_loop_skipping Geom start stop 1 (length mols) eq_refl
              (proj2 Hss) 0%Z mols (le_n _)) as (mlist & -> & Hm); [lia|lia|].
  f_equal. apply nth_error_ext. intros k. rewrite Hm.
  replace (Z.max 0 start) with start by lia. rewrite Z.sub_0_r.
  change (Z.max 1 (1 - 1)) with 1%Z. change (Z.to_nat 1) with 1.
  rewrite Nat.mul_1_r, Z.mul_1_r.
  destruct (Z.ltb_spec (start + Z.of_nat k) stop) as [H|H].
  - rewrite nth_error_firstn.
    destruct (Nat.ltb_spec k (Z.to_nat (stop - start))) as [_|H']; [|lia].
    rewrite nth_error_skipn. reflexivity.
  - rewrite nth_error_firstn.
    destruct (Nat.ltb_spec k (Z.to_nat (stop - start))) as [H'|_]; [lia|reflexivity].
Qed.

(** * read_check_input: the input file of methods

    A text is a string of characters below 256.  The lines a file
    yields, each with its line end, and [os.path.isfile] are parameters
    ([file_lines], [isfile]); the [OrderedDict] is the association list
    [match_minima] takes. *)

Module InputFile.

(** [line.startswith('#')] *)
Definition startswith_hash (line : string) : bool :=
  match line with
  | String c _ => Ascii.eqb c "#"%char
  | EmptyString => false
  end.

(** [s.split(',')]: the pieces between the commas, at least one. *)
Fixpoint split_comma (s : string) : list string :=
  match s with
  | EmptyString => [EmptyString]
  | String c s' =>
      if Ascii.eqb c ","%char then EmptyString :: split_comma s'
      else match split_comma s' with
           | x :: xs => String c x :: xs
           | [] => [String c EmptyString]
           end
  end.

(** [c.isspace()] on the characters below 256. *)
Definition is_space (c : ascii) : bool :=
  let n := nat_of_ascii c in
  ((9 <=? n) && (n <=? 13)) || ((28 <=? n) && (n <=? 32)) || (n =? 133) || (n =? 160).

Fixpoint lstrip (s : string) : string :=
  match s with
  | EmptyString => EmptyString
  | String c s' => if is_space c then lstrip s' else s
  end.

Fixpoint rstrip (s : string) : string :=
  match s with
  | EmptyString => EmptyString
  | String c s' =>
      match rstrip s' with
      | EmptyString => if is_space c then EmptyString else String c EmptyString
      | r => String c r
      end
  end.

(** [s.strip()] *)
Definition strip (s : string) : string := rstrip (lstrip s).

(** [dataline == ['']] *)
Definition is_blank (dataline : list string) : bool :=
  match dataline with
  | [EmptyString] => true
  | _ => false
  end.

(** [in_dict[k] = v] on an [OrderedDict]: a key that is present keeps
    its place, a new one goes last. *)
Fixpoint ordered_set (k : string) (v : Method) (d : list (string * Method))
  : list (string * Method) :=
  match d with
  | [] => [(k, v)]
  | (k', v') :: d' =>
      if String.eqb k k' then (k', v) :: d' else (k', v') :: ordered_set k v d'
  end.

(** The body of the loop over the lines. *)
Definition read_line (in_dict : list (string * Method)) (line : string)
  : result (list (string * Method)) :=
  if startswith_hash line then Ok in_dict
  else
    let dataline := map strip (split_comma line) in
    if is_blank dataline then Ok in_dict
    else
      file <- get dataline 1 ;;
      tag <- get dataline 2 ;;
      label <- get dataline 0 ;;
      Ok (ordered_set label {| sdfile := file; sdtag := tag |} in_dict).

Section ReadCheckInput.

Variable file_lines : string -> list string.
Variable isfile : string -> bool.

Definition read_check_input (infile : string) : result (list (string * Method)) :=
  in_dict <- foldM read_line (file_lines infile) [] ;;
  let list1 := map (fun v : string * Method => isfile (sdfile (snd v))) in_dict in
  if forallb (fun b : bool => b) list1 then Ok in_dict else Raise ValueError.

End ReadCheckInput.

(** ** What a line holds *)

(** The number of commas of a text. *)
Fixpoint commas (s : string) : nat :=
  match s with
  | EmptyString => 0
  | String c s' => (if Ascii.eqb c ","%char then 1 else 0) + commas s'
  end.

Fixpoint all_space (s : string) : bool :=
  match s with
  | EmptyString => true
  | String c s' => is_space c && all_space s'
  end.

(** A line the loop passes over: a comment, or white space only. *)
Definition ignored (line : string) : bool :=
  startswith_hash line || all_space line.

(** The stripped fields of a line. *)
Definition fields (line : string) : list string := map strip (split_comma line).

Definition newline : string := String "010"%char EmptyString.

(** A line as the input file is written: [label, file, tag]. *)
Definition render (ff : string * Method) : string :=
  (fst ff ++ ", " ++ sdfile (snd ff) ++ ", " ++ sdtag (snd ff) ++ newline)%string.

(** A field that stripping and splitting leave as it is. *)
Definition clean (s : string) : Prop := commas s = 0 /\ strip s = s.

Lemma split_comma_length (s : string) : length (split_comma s) = S (commas s).
Proof.
  induction s as [|c s IH]; simpl; [reflexivity|].
  destruct (Ascii.eqb c ","%char); simpl; [rewrite IH; reflexivity|].
  destruct (split_comma s); simpl in *; [discriminate|exact IH].
Qed.

Lemma split_comma_none (s : string) : commas s = 0 -> split_comma s = [s].
Proof.
  induction s as [|c s IH]; simpl; intros H; [reflexivity|].
  destruct (Ascii.eqb c ","%char); [discriminate|]. rewrite IH by exact H. reflexivity.
Qed.

Lemma split_comma_app (a b : string) :
  commas a = 0 -> split_comma (a ++ String ","%char b)%string = a :: split_comma b.
Proof.
  induction a as [|c a IH]; simpl; intros H; [reflexivity|].
  destruct (Ascii.eqb c ","%char); [discriminate|]. rewrite IH by exact H. reflexivity.
Qed.

Lemma commas_app (a b : string) : commas (a ++ b)%string = commas a + commas b.
Proof. induction a as [|c a IH]; simpl; [reflexivity|]. rewrite IH. lia. Qed.

Lemma all_space_commas (s : string) : all_space s = true -> commas s = 0.
Proof.
  induction s as [|c s IH]; simpl; intros H; [reflexivity|].
  apply andb_true_iff in H as [Hc Hs]. rewrite (IH Hs).
  destruct (Ascii.eqb_spec c ","%char) as [->|N]; [discriminate|reflexivity].
Qed.

Lemma lstrip_empty (s : string) : lstrip s = EmptyString <-> all_space s = true.
Proof.
  induction s as [|c s IH]; simpl; [tauto|].
  destruct (is_space c); simpl; [exact IH|]. split; discriminate.
Qed.

Lemma rstrip_empty (s : string) : rstrip s = EmptyString <-> all_space s = true.
Proof.
  induction s as [|c s IH]; simpl; [tauto|].
  destruct (rstrip s) as [|c' r].
  - destruct (is_space c); simpl; [tauto|]. split; discriminate.
  - split; [discriminate|]. intros H. apply andb_true_iff in H as [_ H].
    apply IH in H. discriminate.
Qed.

Lemma all_space_lstrip (s : string) : all_space (lstrip s) = all_space s.
Proof.
  induction s as [|c s IH]; simpl; [reflexivity|].
  destruct (is_space c) eqn:E; simpl; [exact IH|]. rewrite E. reflexivity.
Qed.

Lemma strip_empty (s : string) : strip s = EmptyString <-> all_space s = true.
Proof. unfold strip. rewrite rstrip_empty, all_space_lstrip. tauto. Qed.

(** The blank test of the loop is the test for white space only. *)
Lemma is_blank_all_space (line : string) :
  is_blank (map strip (split_comma line)) = all_space line.
Proof.
  destruct (all_space line) eqn:E.
  - rewrite (split_comma_none _ (all_space_commas _ E)). simpl.
    apply strip_empty in E. rewrite E. reflexivity.
  - pose proof (split_comma_length line) as L.
    destruct (split_comma line) as [|x [|y l]] eqn:Es; simpl.
    + reflexivity.
    + destruct (strip x) eqn:Ex; [|reflexivity].
      simpl in L. injection L as L. symmetry in L.
      rewrite (split_comma_none _ L) in Es. injection Es as <-.
      apply strip_empty in Ex. congruence.
    + destruct (strip x); reflexivity.
Qed.

(** One pass of the loop: nothing on an ignored line, [IndexError] on a
    line with fewer than three fields, one assignment otherwise. *)
Lemma read_line_cases (in_dict : list (string * Method)) (line : string) :
  read_line in_dict line
  = if ignored line then Ok in_dict
    else match fields line with
         | label :: file :: tag :: _ =>
             Ok (ordered_set label {| sdfile := file; sdtag := tag |} in_dict)
         | _ => Raise IndexError
         end.
Proof.
  unfold read_line, ignored, fields. destruct (startswith_hash line); [reflexivity|].
  rewrite is_blank_all_space. simpl orb. destruct (all_space line); [reflexivity|].
  cbv zeta. destruct (map strip (split_comma line)) as [|a [|b [|c l]]]; reflexivity.
Qed.

Lemma fields_length (line : string) : length (fields line) = S (commas line).
Proof. unfold fields. rewrite length_map. apply split_comma_length. Qed.

Lemma keys_ordered_set (k : string) (v : Method) (d : list (string * Method)) :
  map fst (ordered_set k v d) = DictMore.key_step (map fst d) k.
Proof.
  unfold DictMore.key_step. induction d as [|[k' v'] d IH]; [reflexivity|].
  cbn [ordered_set map fst].
  destruct (String.eqb_spec k k') as [->|N]; cbn [map fst].
  - destruct (in_dec string_dec k' (k' :: map fst d)) as [_|H]; [reflexivity|].
    exfalso. apply H. left. reflexivity.
  - rewrite IH.
    destruct (in_dec string_dec k (map fst d)) as [H|H];
      destruct (in_dec string_dec k (k' :: map fst d)) as [H'|H']; try reflexivity.
    + exfalso. apply H'. right. exact H.
    + destruct H' as [E|H']; [congruence|contradiction].
Qed.

Lemma in_ordered_set_inv (k : string) (v : Method) (d : list (string * Method)) :
  forall kv, In kv (ordered_set k v d) -> kv = (k, v) \/ In kv d.
Proof.
  induction d as [|[k' v'] d IH]; intros kv; cbn [ordered_set].
  - intros [<-|[]]. auto.
  - destruct (String.eqb_spec k k') as [->|N]; simpl.
    + intros [<-|H]; auto.
    + intros [<-|H]; [auto|]. destruct (IH _ H); auto.
Qed.

Lemma in_ordered_set_same (k : string) (v : Method) (d : list (string * Method)) :
  In (k, v) (ordered_set k v d).
Proof.
  induction d as [|[k' v'] d IH]; cbn [ordered_set]; [left; reflexivity|].
  destruct (String.eqb_spec k k') as [->|N]; [left; reflexivity|right; exact IH].
Qed.

Lemma in_ordered_set_other (k : string) (v : Method) (d : list (string * Method)) :
  forall kv, In kv d -> fst kv <> k -> In kv (ordered_set k v d).
Proof.
  induction d as [|[k' v'] d IH]; intros kv; cbn [ordered_set]; [contradiction|].
  intros [<-|H] N.
  - simpl in N. destruct (String.eqb_spec k k'); [congruence|left; reflexivity].
  - destruct (String.eqb_spec k k'); right; auto.
Qed.

Lemma ordered_set_fresh (k : string) (v : Method) (d : list (string * Method)) :
  ~ In k (map fst d) -> ordered_set k v d = d ++ [(k, v)].
Proof.
  induction d as [|[k' v'] d IH]; cbn [ordered_set]; intros H; [reflexivity|].
  simpl in H. destruct (String.eqb_spec k k') as [E|N]; [exfalso; auto|].
  rewrite IH by tauto. reflexivity.
Qed.

Lemma rstrip_snoc_space (c : ascii) (s : string) :
  is_space c = true -> rstrip (s ++ String c EmptyString)%string = rstrip s.
Proof.
  intros Hc. induction s as [|a s IH]; simpl; [rewrite Hc; reflexivity|].
  rewrite IH. reflexivity.
Qed.

Lemma lstrip_snoc_space (c : ascii) (s : string) :
  is_space c = true ->
  lstrip (s ++ String c EmptyString)%string
  = if all_space s then EmptyString else (lstrip s ++ String c EmptyString)%string.
Proof.
  intros Hc. induction s as [|a s IH]; simpl; [rewrite Hc; reflexivity|].
  destruct (is_space a); simpl; [exact IH|reflexivity].
Qed.

Lemma strip_snoc_space (c : ascii) (s : string) :
  is_space c = true -> strip (s ++ String c EmptyString)%string = strip s.
Proof.
  intros Hc. unfold strip. rewrite lstrip_snoc_space by exact Hc.
  destruct (all_space s) eqn:E.
  - apply lstrip_empty in E. rewrite E. reflexivity.
  - apply rstrip_snoc_space, Hc.
Qed.

(** A rendered line is read as its three fields. *)
Lemma fields_render (ff : string * Method) :
  clean (fst ff) -> clean (sdfile (snd ff)) -> clean (sdtag (snd ff)) ->
  fields (render ff) = [fst ff; sdfile (snd ff); sdtag (snd ff)].
Proof.
  destruct ff as [k [f t]]. simpl. intros [Ck Sk] [Cf Sf] [Ct St].
  unfold fields, render. cbn [fst snd sdfile sdtag].
  change (k ++ ", " ++ f ++ ", " ++ t ++ newline)%string
    with (k ++ String ","%char
            ((String " "%char f) ++ String ","%char (String " "%char (t ++ newline))))%string.
  rewrite split_comma_app by exact Ck.
  rewrite split_comma_app by exact Cf.
  rewrite split_comma_none.
  2:{ simpl. rewrite commas_app, Ct. reflexivity. }
  cbn [map]. rewrite Sk.
  change (strip (String " "%char f)) with (strip f).
  change (strip (String " "%char (t ++ newline))) with (strip (t ++ newline)).
  unfold newline. rewrite strip_snoc_space by reflexivity. rewrite Sf, St. reflexivity.
Qed.

Lemma ignored_render (ff : string * Method) :
  startswith_hash (fst ff) = false -> ignored (render ff) = false.
Proof.
  destruct ff as [k [f t]]. simpl. intros Hk. unfold ignored, render.
  cbn [fst snd sdfile sdtag]. apply orb_false_iff. split.
  - destruct k; [reflexivity|exact Hk].
  - destruct (all_space (k ++ ", " ++ f ++ ", " ++ t ++ newline)) eqn:E; [|reflexivity].
    apply all_space_commas in E. rewrite commas_app in E. simpl in E. lia.
Qed.

Lemma foldM_app {A S} (f : S -> A -> result S) (l1 l2 : list A) (s : S) :
  foldM f (l1 ++ l2) s = (s1 <- foldM f l1 s ;; foldM f l2 s1).
Proof.
  revert s. induction l1 as [|a l1 IH]; intros s; simpl; [reflexivity|].
  destruct (f s a); simpl; [apply IH|reflexivity].
Qed.

(** Ignored lines leave the loop where it is. *)
Lemma foldM_read_line_filter (lines : list string) : forall d,
  foldM read_line lines d
  = foldM read_line (filter (fun line => negb (ignored line)) lines) d.
Proof.
  induction lines as [|line lines IH]; intros d; [reflexivity|].
  cbn [foldM filter]. destruct (ignored line) eqn:E; cbn [negb].
  - rewrite read_line_cases, E. simpl. apply IH.
  - cbn [foldM]. destruct (read_line d line); simpl; [apply IH|reflexivity].
Qed.

(** A line the loop stops on: not ignored, fewer than two commas. *)
Definition short (line : string) : bool :=
  negb (ignored line) && (commas line <? 2).

Lemma read_line_short (d : list (string * Method)) (line : string) :
  short line = true -> read_line d line = Raise IndexError.
Proof.
  unfold short. intros H. apply andb_true_iff in H as [Hi Hc].
  rewrite read_line_cases. destruct (ignored line); [discriminate|].
  pose proof (fields_length line) as L. apply Nat.ltb_lt in Hc.
  destruct (fields line) as [|a [|b [|c l]]]; simpl in L; try reflexivity. lia.
Qed.

Lemma read_line_long (d : list (string * Method)) (line : string) :
  short line = false -> exists d', read_line d line = Ok d'.
Proof.
  unfold short. intros H. rewrite read_line_cases.
  destruct (ignored line); [eauto|]. simpl in H. apply Nat.ltb_ge in H.
  pose proof (fields_length line) as L.
  destruct (fields line) as [|a [|b [|c l]]]; simpl in L; try lia. eauto.
Qed.

Lemma foldM_read_line_short (lines : list string) : forall d,
  existsb short lines = true -> foldM read_line lines d = Raise IndexError.
Proof.
  induction lines as [|line lines IH]; intros d H; [discriminate|].
  cbn [existsb] in H. cbn [foldM]. destruct (short line) eqn:E.
  - rewrite (read_line_short d line E). reflexivity.
  - destruct (read_line_long d line E) as (d' & ->). simpl. apply IH, H.
Qed.

Lemma foldM_read_line_long (lines : list string) : forall d,
  existsb short lines = false -> exists d', foldM read_line lines d = Ok d'.
Proof.
  induction lines as [|line lines IH]; intros d H; [simpl; eauto|].
  cbn [existsb] in H. apply orb_false_iff in H as [E H]. cbn [foldM].
  destruct (read_line_long d line E) as (d' & ->). simpl. apply IH, H.
Qed.

End InputFile.

(** X22. The dictionary [read_check_input] returns has no label twice;
    every entry holds the stripped first three fields of a line of the
    file that is neither a comment nor white space, and names a file
    that exists. *)
Theorem read_check_input_entries (file_lines : string -> list string)
  (isfile : string -> bool) (infile : string) (in_dict : list (string * Method)) :
  InputFile.read_check_input file_lines isfile infile = Ok in_dict ->
  NoDup (map fst in_dict) /\
  Forall (fun ff =>
            isfile (sdfile (snd ff)) = true /\
            exists line more,
              In line (file_lines infile) /\ InputFile.ignored line = false /\
              InputFile.fields line
              = fst ff :: sdfile (snd ff) :: sdtag (snd ff) :: more)
         in_dict.
Proof.
  unfold InputFile.read_check_input. intros H.
  apply PyFacts.bind_ok in H as (d & Hd & H).
  destruct (forallb _ _) eqn:Hall in H; [|discriminate]. injection H as <-.
  assert (P : NoDup (map fst d) /\
              forall ff, In ff d ->
                exists line more,
                  In line (file_lines infile) /\ InputFile.ignored line = false /\
                  InputFile.fields line
                  = fst ff :: sdfile (snd ff) :: sdtag (snd ff) :: more).
  { refine (@DictFacts.foldM_invariant _ _
              (fun d => NoDup (map fst d) /\
                 forall ff, In ff d ->
                   exists line more,
                     In line (file_lines infile) /\ InputFile.ignored line = false /\
                     InputFile.fields line
                     = fst ff :: sdfile (snd ff) :: sdtag (snd ff) :: more)
              _ _ _ _ _ _ Hd); [|split; [constructor|intros ff []]].
    intros s line s' Hin [Hnd Hs] Hstep. rewrite InputFile.read_line_cases in Hstep.
    destruct (InputFile.ignored line) eqn:Ei; [injection Hstep as <-; auto|].
    destruct (InputFile.fields line) as [|label [|file [|tag more]]] eqn:Ef;
      try discriminate.
    injection Hstep as <-. split.
    - rewrite InputFile.keys_ordered_set.
      apply (DictMore.key_fold_nodup [label]). exact Hnd.
    - intros ff Hff. apply InputFile.in_ordered_set_inv in Hff as [->|Hff]; [|auto].
      exists line, more. auto. }
  destruct P as [Hnd Hfrom]. split; [exact Hnd|].
  apply Forall_forall. intros ff Hff. split; [|apply Hfrom, Hff].
  rewrite forallb_forall in Hall. apply Hall.
  apply (in_map (fun v : string * Method => isfile (sdfile (snd v)))), Hff.
Qed.

(** X23. Two input files that differ only by comment lines (a [#]
    first) and lines of white space are read alike: same dictionary or
    same exception. *)
Theorem read_check_input_ignores_comments (file_lines : string -> list string)
  (isfile : string -> bool) (infile infile' : string) :
  filter (fun line => negb (InputFile.ignored line)) (file_lines infile)
  = filter (fun line => negb (InputFile.ignored line)) (file_lines infile') ->
  InputFile.read_check_input file_lines isfile infile
  = InputFile.read_check_input file_lines isfile infile'.
Proof.
  intros H. unfold InputFile.read_check_input.
  rewrite (InputFile.foldM_read_line_filter (file_lines infile)),
          (InputFile.foldM_read_line_filter (file_lines infile')), H.
  reflexivity.
Qed.

(** X24. [read_check_input] raises [IndexError] exactly when some line
    that is neither a comment nor white space has fewer than two
    commas, whether the files named exist or not. *)
Theorem read_check_input_index_error (file_lines : string -> list string)
  (isfile : string -> bool) (infile : string) :
  InputFile.read_check_input file_lines isfile infile = Raise IndexError <->
  exists line,
    In line (file_lines infile) /\ InputFile.ignored line = false /\
    InputFile.commas line < 2.
Proof.
  unfold InputFile.read_check_input.
  destruct (existsb InputFile.short (file_lines infile)) eqn:E.
  - rewrite InputFile.foldM_read_line_short by exact E. simpl.
    split; [intros _|reflexivity].
    apply existsb_exists in E as (line & Hin & Hs). unfold InputFile.short in Hs.
    apply andb_true_iff in Hs as [Hi Hc]. apply Nat.ltb_lt in Hc.
    exists line. split; [exact Hin|]. split; [|exact Hc].
    destruct (InputFile.ignored line); [discriminate|reflexivity].
  - destruct (InputFile.foldM_read_line_long _ [] E) as (d & ->). simpl.
    split.
    + destruct (forallb _ _); discriminate.
    + intros (line & Hin & Hi & Hc). exfalso.
      assert (T : existsb InputFile.short (file_lines infile) = true).
      { apply existsb_exists. exists line. split; [exact Hin|].
        unfold InputFile.short. rewrite Hi. simpl. apply Nat.ltb_lt, Hc. }
      congruence.
Qed.

(** X25. Round trip: a list of methods with different labels, written
    one per line as [label, file, tag], is read back as it is, when the
    files exist, no field has a comma or white space at an end, and no
    label starts with [#]. *)
Theorem read_check_input_round_trip (file_lines : string -> list string)
  (isfile : string -> bool) (infile : string) (methods : list (string * Method)) :
  file_lines infile = map InputFile.render methods ->
  NoDup (map fst methods) ->
  Forall (fun ff =>
            InputFile.clean (fst ff) /\ InputFile.startswith_hash (fst ff) = false /\
            InputFile.clean (sdfile (snd ff)) /\ InputFile.clean (sdtag (snd ff)) /\
            isfile (sdfile (snd ff)) = true)
         methods ->
  InputFile.read_check_input file_lines isfile infile = Ok methods.
Proof.
  intros Hlines Hnd Hall. unfold InputFile.read_check_input. rewrite Hlines.
  assert (G : forall ms d,
             NoDup (map fst d ++ map fst ms) ->
             Forall (fun ff =>
                       InputFile.clean (fst ff) /\
                       InputFile.startswith_hash (fst ff) = false /\
                       InputFile.clean (sdfile (snd ff)) /\
                       InputFile.clean (sdtag (snd ff)) /\
                       isfile (sdfile (snd ff)) = true) ms ->
             foldM InputFile.read_line (map InputFile.render ms) d = Ok (d ++ ms)).
  { induction ms as [|ff ms IH]; intros d Hd Hms; simpl;
      [rewrite app_nil_r; reflexivity|].
    inversion Hms as [|? ? (Ck & Hk & Cf & Ct & _) Hms']; subst.
    rewrite InputFile.read_line_cases, InputFile.ignored_render by exact Hk.
    rewrite InputFile.fields_render by assumption.
    rewrite InputFile.ordered_set_fresh.
    2:{ simpl in Hd. apply NoDup_remove_2 in Hd. intros Hin. apply Hd.
        apply in_or_app. left. exact Hin. }
    simpl bind. rewrite IH.
    - rewrite <- app_assoc. simpl. destruct ff as [k [f t]]. reflexivity.
    - rewrite map_app, <- app_assoc. simpl.
      destruct ff as [k [f t]]. exact Hd.
    - exact Hms'. }
  rewrite (G methods []) by assumption. simpl.
  replace (forallb (fun b : bool => b)
             (map (fun v : string * Method => isfile (sdfile (snd v))) methods))
    with true; [reflexivity|].
  symmetry. apply forallb_forall. intros b Hb.
  apply in_map_iff in Hb as (ff & <- & Hff).
  rewrite Forall_forall in Hall. apply (Hall ff Hff).
Qed.

(** X26. When a label is on several lines, the dictionary
    [read_check_input] returns holds for it the file and the tag of the
    last of them. *)
Theorem read_check_input_last_line_wins (file_lines : string -> list string)
  (isfile : string -> bool) (infile : string) (in_dict : list (string * Method))
  (before after : list string) (line label file tag : string) (more : list string) :
  InputFile.read_check_input file_lines isfile infile = Ok in_dict ->
  file_lines infile = before ++ line :: after ->
  InputFile.ignored line = false ->
  InputFile.fields line = label :: file :: tag :: more ->
  (forall line', In line' after ->
     InputFile.ignored line' = true \/ nth_error (InputFile.fields line') 0 <> Some label) ->
  In (label, {| sdfile := file; sdtag := tag |}) in_dict.
Proof.
  unfold InputFile.read_check_input. intros H Hlines Hi Hf Hafter.
  apply PyFacts.bind_ok in H as (d & Hd & H).
  destruct (forallb _ _) in H; [|discriminate]. injection H as <-.
  rewrite Hlines, InputFile.foldM_app in Hd.
  apply PyFacts.bind_ok in Hd as (d1 & _ & Hd). cbn [foldM] in Hd.
  apply PyFacts.bind_ok in Hd as (d2 & H2 & Hd).
  rewrite InputFile.read_line_cases, Hi, Hf in H2. injection H2 as <-.
  refine (@DictFacts.foldM_invariant _ _
            (fun d => In (label, {| sdfile := file; sdtag := tag |}) d)
            _ _ _ _ _ _ Hd); [|apply InputFile.in_ordered_set_same].
  intros s line' s' Hin Hs Hstep. rewrite InputFile.read_line_cases in Hstep.
  destruct (Hafter line' Hin) as [Ei|Ef].
  - rewrite Ei in Hstep. injection Hstep as <-. exact Hs.
  - destruct (InputFile.ignored line'); [injection Hstep as <-; exact Hs|].
    destruct (InputFile.fields line') as [|label' [|file' [|tag' more']]];
      try discriminate.
    injection Hstep as <-. apply InputFile.in_ordered_set_other; [exact Hs|].
    simpl. intros E. apply Ef. simpl. congruence.
Qed.

(** X27. The first entry of the dictionary [read_check_input] returns,
    which [match_minima] takes as the reference method, has the label
    of the first line that is neither a comment nor white space,
    whatever the later lines are. *)
Theorem read_check_input_reference_label (file_lines : string -> list string)
  (isfile : string -> bool) (infile : string) (in_dict : list (string * Method))
  (before after : list string) (line label : string) :
  InputFile.read_check_input file_lines isfile infile = Ok in_dict ->
  file_lines infile = before ++ line :: after ->
  Forall (fun line' => InputFile.ignored line' = true) before ->
  InputFile.ignored line = false ->
  nth_error (InputFile.fields line) 0 = Some label ->
  exists ref rest, in_dict = (label, ref) :: rest.
Proof.
  unfold InputFile.read_check_input. intros H Hlines Hb Hi Hf.
  apply PyFacts.bind_ok in H as (d & Hd & H).
  destruct (forallb _ _) in H; [|discriminate]. injection H as <-.
  rewrite Hlines, InputFile.foldM_read_line_filter, filter_app in Hd.
  replace (filter (fun line0 => negb (InputFile.ignored line0)) before)
    with (@nil string) in Hd.
  2:{ symmetry. clear -Hb. induction Hb as [|x l Hx _ IH]; simpl; [reflexivity|].
      rewrite Hx. exact IH. }
  cbn [app filter] in Hd. rewrite Hi in Hd. cbn [negb foldM] in Hd.
  apply PyFacts.bind_ok in Hd as (d2 & H2 & Hd).
  rewrite InputFile.read_line_cases, Hi in H2.
  destruct (InputFile.fields line) as [|label' [|file [|tag more]]]; try discriminate.
  simpl in Hf. injection Hf as ->. injection H2 as <-.
  refine (@DictFacts.foldM_invariant _ _
            (fun d => exists ref rest, d = (label, ref) :: rest)
            _ _ _ _ _ _ Hd); [|simpl; eauto].
  intros s line' s' _ (ref & rest & ->) Hstep.
  rewrite InputFile.read_line_cases in Hstep.
  destruct (InputFile.ignored line'); [injection Hstep as <-; eauto|].
  destruct (InputFile.fields line') as [|label' [|file' [|tag' more']]];
    try discriminate.
  injection Hstep as <-. cbn [InputFile.ordered_set].
  destruct (String.eqb label' label); eauto.
Qed.


(** * From the matching to the RMS errors: when [main] computes *)

Module PipelineFacts.

Lemma mapM_Forall2_total {A B} (R : A -> B -> Prop) (f : A -> result B) (l : list A) :
  (forall a, In a l -> exists b, f a = Ok b /\ R a b) ->
  exists bs, mapM f l = Ok bs /\ Forall2 R l bs.
Proof.
  induction l as [|a l IH]; intros H; simpl; [eauto|].
  destruct (H a (or_introl eq_refl)) as (b & Hb & Rb). rewrite Hb. simpl.
  destruct IH as (bs & Hbs & Rbs); [intros x Hx; apply H; right; exact Hx|].
  rewrite Hbs. simpl. eauto.
Qed.

Lemma Forall2_Forall_r {A B} (R : A -> B -> Prop) (P : B -> Prop) (l : list A) (l' : list B) :
  Forall2 R l l' -> (forall a b, In a l -> R a b -> P b) -> Forall P l'.
Proof.
  induction 1 as [|a b l l' Hab _ IH]; intros H; constructor.
  - apply (H a b); [left; reflexivity|exact Hab].
  - apply IH. intros x y Hx. apply H. right. exact Hx.
Qed.

(** A row pair the resolver can read: the indices code one outcome per
    reference conformer, each within the energies. *)
Definition row_good (n : nat) (row : list float * list (option Z)) : Prop :=
  exists outcomes,
    snd row = map encode outcomes /\ length outcomes = n /\
    forall j o, nth_error outcomes j = Some o -> in_range (fst row) j o.

(** Rows of matched energies that [calc_rel_ene] and [calc_rms_error]
    can work on. *)
Definition rows_of_length (n : nat) (mol_array : list (list float)) : Prop :=
  mol_array <> [] /\ Forall (fun row => length row = n) mol_array.

Lemma rows_of_length_aligned (n : nat) (mol_array : list (list float)) :
  0 < n -> rows_of_length n mol_array -> aligned mol_array.
Proof.
  intros Hn [Hne Hall]. destruct mol_array as [|ref_row others]; [congruence|].
  inversion Hall as [|? ? Href Hothers]; subst. split.
  - destruct ref_row; [simpl in Hn; lia|discriminate].
  - eapply Forall_impl; [|exact Hothers]. intros row Hrow. exact Hrow.
Qed.

(** The resolver on an entry whose rows are good. *)
Lemma extract_mol_ok (n : nat) (e : MolEntry) (rws : list (list float * list (option Z))) :
  energies e = map fst rws -> indices e = map snd rws ->
  Forall (row_good n) rws ->
  exists updated,
    extract_mol e = Ok {| energies := energies e; indices := indices e;
                          ref_nconfs := ref_nconfs e;
                          energies_matched := Some updated |} /\
    length updated = length rws /\ Forall (fun fileData => length fileData = n) updated.
Proof.
  intros He Hi Hgood. unfold extract_mol.
  destruct (@mapM_Forall2_total _ _
              (fun (_ : nat * list (option Z)) (fileData : list float) =>
                 length fileData = n)
              (fun p => extract_file (energies e) (fst p) (snd p))
              (enumerate (indices e))) as (updated & Hu & Ru).
  { intros [i irow] Hin. simpl.
    apply RelFacts.in_combine_seq in Hin as [_ Hin]. rewrite Nat.sub_0_r in Hin.
    rewrite Hi, nth_error_map in Hin.
    destruct (nth_error rws i) as [row|] eqn:Erow; [|discriminate].
    simpl in Hin. injection Hin as <-.
    rewrite Forall_forall in Hgood.
    destruct (Hgood row (nth_error_In _ _ Erow)) as (outcomes & -> & Hlen & Hrange).
    assert (Hraw : nth_error (energies e) i = Some (fst row))
      by (rewrite He, nth_error_map, Erow; reflexivity).
    unfold extract_file, enumerate.
    rewrite (@extract_file_from (energies e) i (fst row) outcomes 0 Hraw)
      by (intros _ j o Hj; apply Hrange, Hj).
    eexists. split; [reflexivity|].
    rewrite length_map, length_combine, length_seq. lia. }
  rewrite Hu. simpl. exists updated. split; [reflexivity|]. split.
  - rewrite <- (Forall2_length Ru). unfold enumerate.
    rewrite length_combine, length_seq, Hi, length_map. lia.
  - apply (@Forall2_Forall_r _ _ _ _ _ _ Ru). intros a b _ H. exact H.
Qed.

(** [calc_rel_ene] on aligned molecules: it returns, the rows keep
    their lengths and every reference position is within the rows. *)
Lemma calc_rel_ene_aligned (matched_enes : list (list (list float))) :
  Forall aligned matched_enes ->
  exists rel_energies lowest_conf_indices,
    calc_rel_ene matched_enes = Ok (rel_energies, lowest_conf_indices) /\
    length rel_energies = length matched_enes /\
    Forall2 (fun mol_array z => aligned mol_array /\ z < length (hd [] mol_array))
            rel_energies lowest_conf_indices /\
    Forall2 (fun molE mol_array => length mol_array = length molE)
            matched_enes rel_energies.
Proof.
  intros Hal. unfold calc_rel_ene.
  destruct (@mapM_Forall2_total _ _
              (fun (molE : list (list float)) (z : nat) =>
                 lowest_conf molE = Ok z /\ z < length (hd [] molE))
              lowest_conf matched_enes) as (zs & Hzs & F2).
  { intros molE Hin. rewrite Forall_forall in Hal. specialize (Hal molE Hin).
    destruct molE as [|ref_row others]; [contradiction|].
    destruct (@lowest_conf_cases ref_row others Hal) as (z & Hz & Hlt & _). eauto. }
  rewrite Hzs. simpl bind.
  set (rel := fun p : nat * list (list float) =>
                map (fun fileE => map (fun a => (a - nth (fst p) fileE 0)%float) fileE) (snd p)).
  rewrite (PyFacts.mapM_map _ rel).
  2:{ intros [z molE] Hin. simpl.
      destruct (RelEne.Forall2_in_combine F2 _ _ Hin) as [HinM [Hz _]].
      apply PyFacts.mapM_map. intros fileE HfE. apply RelEne.rel_file_ok.
      rewrite Forall_forall in Hal. eapply RelEne.aligned_rows; eauto. }
  simpl bind. eexists _, zs. split; [reflexivity|].
  clear Hzs. induction F2 as [|molE z ms zs' [Hz Hlt] F2 IH]; simpl.
  - repeat split; constructor.
  - inversion Hal as [|? ? Ha Hal']; subst.
    destruct (IH Hal') as (L & G1 & G2).
    split; [simpl; f_equal; exact L|]. split.
    + constructor; [|exact G1]. unfold rel. simpl.
      destruct molE as [|ref_row others]; [contradiction|].
      simpl in *. rewrite length_map. split; [|exact Hlt].
      destruct Ha as [Hne Hothers]. split.
      * destruct ref_row; [congruence|discriminate].
      * rewrite Forall_map. eapply Forall_impl; [|exact Hothers].
        intros row Hrow. rewrite !length_map. exact Hrow.
    + constructor; [|exact G2]. unfold rel. simpl. apply length_map.
Qed.

(** [calc_rms_error] on aligned relative energies: it returns one RMS
    error per row. *)
Lemma calc_rms_error_aligned (rel_energies : list (list (list float)))
  (lowest_conf_indices : list nat) :
  Forall2 (fun mol_array z => aligned mol_array /\ z < length (hd [] mol_array))
          rel_energies lowest_conf_indices ->
  exists rms_array,
    calc_rms_error rel_energies lowest_conf_indices = Ok rms_array /\
    Forall2 (fun mol_array mol_rmses => length mol_rmses = length mol_array)
            rel_energies rms_array.
Proof.
  intros Hin. unfold calc_rms_error.
  destruct (@mapM_Forall2_total _ _
              (fun (p : nat * list (list float)) (mol_rmses : list float) =>
                 length mol_rmses = length (snd p))
              (fun p => mapM (rms_file lowest_conf_indices (fst p) (snd p)) (snd p))
              (enumerate rel_energies)) as (rms & Hrms & R).
  { intros [i mol_array] Hp. simpl.
    apply RelFacts.in_combine_seq in Hp as [_ Hp]. rewrite Nat.sub_0_r in Hp.
    destruct (RelEne.Forall2_nth Hin _ Hp) as (z & Hz & _ & (Hal & Hlt)).
    destruct mol_array as [|ref_row others]; [contradiction|]. simpl in Hlt.
    destruct (@PyFacts.mapM_total _ _ (rms_file lowest_conf_indices i (ref_row :: others))
                (ref_row :: others)) as (mol_rmses & Hm).
    { intros filelist Hf.
      assert (Hlen : length filelist = length ref_row).
      { destruct Hal as [_ Hal]. destruct Hf as [<-|Hf]; [reflexivity|].
        rewrite Forall_forall in Hal. auto. }
      unfold rms_file, get. simpl nth_error. simpl bind.
      unfold Np.sub. rewrite Hlen, Nat.eqb_refl. simpl bind. rewrite Hz. simpl bind.
      rewrite delete_ok
        by (unfold Np.square; rewrite !length_map, length_combine; lia).
      simpl. eauto. }
    exists mol_rmses. split; [exact Hm|]. apply (@PyFacts.mapM_length _ _ _ _ _ Hm). }
  exists rms. split; [exact Hrms|].
  clear Hrms Hin. revert rms R. unfold enumerate. generalize 0.
  induction rel_energies as [|m ms IH]; intros s rms R; simpl in R.
  - inversion R. constructor.
  - inversion R as [|? r ? rs Hr R']; subst. constructor; [exact Hr|].
    apply (IH (S s)), R'.
Qed.

End PipelineFacts.

Section Pipeline.

Variable Geom : Type.
Variable OERMSD : Geom -> Geom -> bool -> bool -> bool -> float.
Variable read_mols : string -> list (Mol Geom).
Variable py_float : string -> result float.

(** Every conformer of every molecule of the method's file has the
    method's energy tag. *)
Definition tagged (ff : string * Method) : Prop :=
  forall qmol, In qmol (read_mols (sdfile (snd ff))) ->
    Forall (fun conf => existsb (tag_matches (sdtag (snd ff))) (sd_pairs conf) = true)
           (confs qmol).

Lemma tagged_length (ff : string * Method) (qmol : Mol Geom) (erow : list float) :
  tagged ff -> In qmol (read_mols (sdfile (snd ff))) ->
  mapM py_float (get_sd_list qmol (sdtag (snd ff))) = Ok erow ->
  length erow = length (confs qmol).
Proof.
  intros Htag Hin He. rewrite (@PyFacts.mapM_length _ _ _ _ _ He).
  apply get_sd_list_all_tagged. eapply Forall_impl; [|apply (Htag qmol Hin)].
  intros conf Hc. simpl in Hc.
  destruct (find (tag_matches (sdtag (snd ff))) (sd_pairs conf)) as [x|] eqn:Ef; [eauto|].
  apply existsb_exists in Hc as (x & Hx & Hm).
  rewrite (find_none _ _ Ef x Hx) in Hm. discriminate.
Qed.

(** The conformer indices of the geometry matcher lie within the
    conformers of the query molecule. *)
Lemma compare_two_mols_in_range (rmol qmol : Mol Geom) (rmsd_cutoff : float)
  (erow : list float) (irow : list (option Z)) :
  oracle_numeric OERMSD -> confs qmol <> [] -> length erow = length (confs qmol) ->
  compare_two_mols OERMSD rmol qmol rmsd_cutoff = Ok irow ->
  PipelineFacts.row_good (length (confs rmol)) (erow, irow).
Proof.
  intros Hnum Hne Hlen H.
  assert (G : exists outcomes,
             irow = map encode outcomes /\ length outcomes = length (confs rmol) /\
             Forall (fun o => forall j, in_range erow j o) outcomes).
  { unfold compare_two_mols in H. revert irow H.
    induction (confs rmol) as [|r rs IH]; simpl; intros irow H.
    - injection H as <-. exists []. auto.
    - apply PyFacts.bind_ok in H as (c & Hc & H).
      apply PyFacts.bind_ok in H as (cs & Hcs & H). injection H as <-.
      destruct (IH cs Hcs) as (os & -> & Hos & Hrange).
      destruct (@match_conf_spec _ OERMSD qmol rmsd_cutoff r Hnum Hne)
        as (k & q & Hk & _ & _ & Hm).
      rewrite Hm in Hc. injection Hc as <-.
      assert (Hlt : k < length erow).
      { rewrite Hlen. apply nth_error_Some. congruence. }
      destruct (rmsd OERMSD r q <=? rmsd_cutoff)%float.
      + exists (Matched k :: os). split; [reflexivity|]. split; [simpl; congruence|].
        constructor; [intros j; exact Hlt|exact Hrange].
      + exists (NoMatchWithinCutoff :: os). split; [reflexivity|].
        split; [simpl; congruence|]. constructor; [intros j; exact I|exact Hrange]. }
  destruct G as (outcomes & -> & Hn & Hall).
  exists outcomes. split; [reflexivity|]. split; [exact Hn|].
  intros j o Hj. rewrite Forall_forall in Hall. apply Hall, (nth_error_In _ _ Hj).
Qed.

(** The row pair of one pass of the loop body is good, and the
    generator stays within the method's file. *)
Lemma row_of_good (ref ff : string * Method) (rmsd_cutoff : float)
  (gen gen' : list (Mol Geom)) (rmol : Mol Geom) (erow : list float)
  (irow : list (option Z)) :
  oracle_numeric OERMSD -> readable read_mols py_float ff -> tagged ff ->
  NoDup (map (@title Geom) (read_mols (sdfile (snd ref)))) ->
  In rmol (read_mols (sdfile (snd ref))) ->
  incl gen (read_mols (sdfile (snd ff))) ->
  row_of OERMSD read_mols py_float (sdfile (snd ref)) (sdfile (snd ff)) (sdtag (snd ff))
         rmsd_cutoff gen rmol erow irow gen' ->
  PipelineFacts.row_good (length (confs rmol)) (erow, irow) /\
  incl gen' (read_mols (sdfile (snd ff))).
Proof.
  intros Hnum Hread Htag Hnd Hin Hincl [(_ & -> & -> & ->)|(qmol & Hs & He & Hcase)].
  - split; [|apply incl_refl].
    exists (repeat MoleculeAbsent (length (confs rmol))). simpl.
    split; [apply (repeat_encode MoleculeAbsent)|]. split; [apply repeat_length|].
    intros j o Hj. apply nth_error_In, repeat_spec in Hj. subst o. exact I.
  - apply scan_query_found in Hs as (skipped & Egen & Ht & _).
    assert (Hq : In qmol (read_mols (sdfile (snd ff)))).
    { apply Hincl. rewrite Egen. apply in_or_app. right. left. reflexivity. }
    split.
    2:{ intros m Hm. apply Hincl. rewrite Egen. apply in_or_app. right. right. exact Hm. }
    pose proof (@tagged_length _ _ _ Htag Hq He) as Hlen.
    destruct Hcase as [[Efile ->]|[_ Hc]].
    + assert (E : qmol = rmol).
      { apply (@same_title_same_mol _ _ _ _ Hnd); [|exact Hin|exact Ht].
        rewrite <- Efile. exact Hq. }
      subst qmol.
      exists (repeat SelfReference (length (confs rmol))). simpl.
      split; [apply (repeat_encode SelfReference)|]. split; [apply repeat_length|].
      intros j o Hj. pose proof Hj as Hj'.
      apply nth_error_In, repeat_spec in Hj. subst o. simpl. rewrite Hlen.
      rewrite <- (repeat_length SelfReference (length (confs rmol))).
      apply nth_error_Some. congruence.
    + apply (@compare_two_mols_in_range rmol qmol rmsd_cutoff erow irow Hnum); [|exact Hlen|exact Hc].
      apply (Hread qmol Hq).
Qed.

(** Every row pair a method stores is good. *)
Lemma rows_of_method_good (ref ff : string * Method) (rmsd_cutoff : float)
  (mols : list (Mol Geom)) :
  oracle_numeric OERMSD -> readable read_mols py_float ff -> tagged ff ->
  NoDup (map (@title Geom) (read_mols (sdfile (snd ref)))) ->
  incl mols (read_mols (sdfile (snd ref))) ->
  forall (gen : list (Mol Geom)) (rows : list (list float * list (option Z)))
         (j : nat) (rmol : Mol Geom) (row : list float * list (option Z)),
  rows_of_method OERMSD read_mols py_float (sdfile (snd ref)) (sdfile (snd ff))
                 (sdtag (snd ff)) rmsd_cutoff mols gen rows ->
  incl gen (read_mols (sdfile (snd ff))) ->
  nth_error mols j = Some rmol -> nth_error rows j = Some row ->
  PipelineFacts.row_good (length (confs rmol)) row.
Proof.
  intros Hnum Hread Htag Hnd.
  induction mols as [|r mols IH]; intros Hmols gen [|row0 rows] j rmol row Hrows Hincl Hj Hr;
    simpl in Hrows; try contradiction; [destruct j; discriminate|].
  destruct Hrows as (gen' & Hrow & Hrows).
  destruct (@row_of_good ref ff rmsd_cutoff gen gen' r (fst row0) (snd row0)
              Hnum Hread Htag Hnd (Hmols r (or_introl eq_refl)) Hincl Hrow) as [Hgood Hincl'].
  destruct j as [|j]; simpl in Hj, Hr.
  - injection Hj as <-. injection Hr as <-. destruct row0. exact Hgood.
  - apply (IH (fun m Hm => Hmols m (or_intror Hm)) gen' rows j rmol row); assumption.
Qed.

(** The entries of the dictionary [match_minima] returns on well-formed
    files: one good row pair per method. *)
Lemma match_minima_entry_good (in_dict : list (string * Method)) (rmsd_cutoff : float)
  (d : mol_dict) (ref : string * Method) :
  match_minima OERMSD read_mols py_float in_dict rmsd_cutoff = Ok d ->
  nth_error in_dict 0 = Some ref ->
  oracle_numeric OERMSD ->
  Forall (readable read_mols py_float) in_dict -> Forall tagged in_dict ->
  NoDup (map (@title Geom) (read_mols (sdfile (snd ref)))) ->
  forall kv, In kv d ->
  exists rmol rws,
    In rmol (read_mols (sdfile (snd ref))) /\ title rmol = fst kv /\
    length rws = length in_dict /\
    energies (snd kv) = map fst rws /\ indices (snd kv) = map snd rws /\
    Forall (PipelineFacts.row_good (length (confs rmol))) rws.
Proof.
  intros H Href Hnum Hread Htag Hnd [k e] Hin.
  pose proof (@match_minima_keys_nodup _ OERMSD read_mols py_float _ _ _ H) as Hkeys.
  assert (Hk : exists rmol, In rmol (read_mols (sdfile (snd ref))) /\ title rmol = k).
  { destruct (@match_minima_keys_fold _ OERMSD read_mols py_float _ _ _ H)
      as (ref' & Href' & E).
    rewrite Href in Href'. injection Href' as <-.
    apply (in_map fst) in Hin. rewrite E in Hin.
    apply DictMore.key_fold_in in Hin as [[]|Hin].
    apply in_map_iff in Hin as (rmol & Ht & Hr). eauto. }
  destruct Hk as (rmol & Hr & Ht). pose proof Hr as Hr'.
  apply In_nth_error in Hr' as (j & Hj).
  unfold match_minima, get in H. rewrite Href in H. simpl in H.
  destruct (@foldM_match_method_rows _ OERMSD read_mols py_float _ _ _ _ _ Hnd Hj _ _ H)
    as (rws & Hall & He & Hix).
  rewrite Ht, (@DictMore.in_entry_of _ _ _ Hkeys Hin) in He, Hix. simpl in He, Hix.
  exists rmol, rws. split; [exact Hr|]. split; [exact Ht|].
  split; [symmetry; apply (Forall2_length Hall)|]. split; [exact He|].
  split; [exact Hix|].
  apply (@PipelineFacts.Forall2_Forall_r _ _ _ _ _ _ Hall).
  intros ff row Hff (rows & Hrows & Hrow).
  rewrite Forall_forall in Hread, Htag.
  apply (@rows_of_method_good ref ff rmsd_cutoff _ Hnum (Hread ff Hff) (Htag ff Hff) Hnd
           (incl_refl _) _ _ _ _ _ Hrows (incl_refl _) Hj Hrow).
Qed.

(** X28. With a reference file whose titles are all different, an
    oracle that returns numbers, and method files in which every
    molecule has conformers and every conformer has the method's
    energy tag with a value that parses: [match_minima] returns a
    dictionary, and the resolver, [calc_rel_ene] and [calc_rms_error]
    run on it without raising, giving one list of RMS errors per
    reference molecule, with one RMS error per method. *)
Theorem analysis_returns (in_dict : list (string * Method)) (rmsd_cutoff : float)
  (ref : string * Method) :
  nth_error in_dict 0 = Some ref ->
  oracle_numeric OERMSD ->
  Forall (readable read_mols py_float) in_dict -> Forall tagged in_dict ->
  NoDup (map (@title Geom) (read_mols (sdfile (snd ref)))) ->
  exists d rel_energies lowest_conf_indices rms_array,
    match_minima OERMSD read_mols py_float in_dict rmsd_cutoff = Ok d /\
    analysis d = Ok (rel_energies, lowest_conf_indices, rms_array) /\
    length rms_array = length (read_mols (sdfile (snd ref))) /\
    Forall (fun mol_rmses => length mol_rmses = length in_dict) rms_array.
Proof.
  intros Href Hnum Hread Htag Hnd.
  assert (Hne : in_dict <> []) by (intros E; rewrite E in Href; discriminate).
  destruct (@match_minima_total _ OERMSD read_mols py_float in_dict rmsd_cutoff
              Hne Hnum Hread) as (d & Hd).
  pose proof (@match_minima_entry_good _ _ _ _ Hd Href Hnum Hread Htag Hnd) as Hgood.
  assert (Hlen : 0 < length in_dict) by (destruct in_dict; [congruence|simpl; lia]).
  assert (Hrefin : In ref in_dict) by (apply (nth_error_In _ _ Href)).
  set (ready := fun m : list (list float) => length m = length in_dict /\ aligned m).
  destruct (@PipelineFacts.mapM_Forall2_total _ _
              (fun (_ kv' : string * MolEntry) =>
                 exists updated, energies_matched (snd kv') = Some updated /\ ready updated)
              (fun kv => e <- extract_mol (snd kv) ;; Ok (fst kv, e)) d)
    as (d' & Hd' & R1).
  { intros kv Hkv.
    destruct (Hgood kv Hkv) as (rmol & rws & Hr & _ & Hl & He & Hi & Hrows).
    destruct (@PipelineFacts.extract_mol_ok _ _ _ He Hi Hrows) as (updated & Hu & Hlu & Hall).
    rewrite Hu. simpl. eexists. split; [reflexivity|]. simpl.
    exists updated. split; [reflexivity|]. split; [congruence|].
    apply (@PipelineFacts.rows_of_length_aligned (length (confs rmol))).
    - rewrite Forall_forall in Hread. destruct (Hread ref Hrefin rmol Hr) as [Hc _].
      destruct (confs rmol); [congruence|simpl; lia].
    - split; [|exact Hall]. destruct updated; [simpl in Hlu; lia|discriminate]. }
  destruct (@PipelineFacts.mapM_Forall2_total _ _
              (fun (_ : string * MolEntry) (m : list (list float)) => ready m)
              (fun kv : string * MolEntry =>
                 match energies_matched (snd kv) with
                 | Some updated => Ok updated
                 | None => Raise KeyError
                 end) d')
    as (matched_enes & Hm & R2).
  { intros kv' Hkv'.
    assert (P : exists updated, energies_matched (snd kv') = Some updated /\ ready updated).
    { pose proof (@PipelineFacts.Forall2_Forall_r _ _ _
                    (fun kv' : string * MolEntry =>
                       exists updated,
                         energies_matched (snd kv') = Some updated /\ ready updated)
                    _ _ R1 (fun _ _ _ H => H)) as F.
      rewrite Forall_forall in F. apply F, Hkv'. }
    destruct P as (updated & -> & Hu). eauto. }
  assert (Hready : Forall ready matched_enes).
  { apply (@PipelineFacts.Forall2_Forall_r _ _ _ _ _ _ R2). intros _ m _ H. exact H. }
  destruct (@PipelineFacts.calc_rel_ene_aligned matched_enes)
    as (rel & zs & Hrel & Lrel & Grel & Srel).
  { eapply Forall_impl; [|exact Hready]. intros m [_ H]. exact H. }
  destruct (@PipelineFacts.calc_rms_error_aligned _ _ Grel) as (rms & Hrms & Srms).
  exists d, rel, zs, rms. split; [exact Hd|]. split.
  { unfold analysis. unfold extract_matches. rewrite Hd'. simpl bind.
    rewrite Hm. simpl bind. rewrite Hrel. simpl bind. rewrite Hrms. reflexivity. }
  split.
  - rewrite <- (Forall2_length Srms), Lrel, <- (Forall2_length R2),
      <- (Forall2_length R1).
    destruct (@match_minima_keys_fold _ OERMSD read_mols py_float _ _ _ Hd)
      as (ref' & Href' & E).
    rewrite Href in Href'. injection Href' as <-.
    rewrite (DictMore.key_fold_fresh _ []) in E by exact Hnd.
    rewrite <- (length_map fst d), E. simpl. apply length_map.
  - apply (@PipelineFacts.Forall2_Forall_r _ _ _ _ _ _ Srms).
    intros mol_array mol_rmses Hin ->.
    assert (F : Forall (fun mol_array => length mol_array = length in_dict) rel).
    { apply (@PipelineFacts.Forall2_Forall_r _ _ _ _ _ _ Srel).
      intros m r Hm' ->. rewrite Forall_forall in Hready. apply (Hready m Hm'). }
    rewrite Forall_forall in F. apply F, Hin.
Qed.

End Pipeline.


(** ** An absent molecule, from the matching to the RMS error *)

Module AbsentFacts.

Lemma extract_file_absent_row (energy_array : list (list float)) (i n : nat) :
  extract_file energy_array i (repeat (Some (-2)%Z) n) = Ok (repeat nan n).
Proof.
  unfold extract_file, enumerate. generalize 0.
  induction n as [|n IH]; intros s; simpl; [reflexivity|].
  rewrite IH. reflexivity.
Qed.

Lemma rel_file_nan_row (z n : nat) (relFile : list float) :
  rel_file z (repeat nan n) = Ok relFile ->
  Forall (fun x => is_nan x = true) relFile.
Proof.
  intros H. destruct (@RelShape.rel_file_nth _ _ _ H) as (Hlen & _ & Hnth).
  apply Forall_forall. intros r Hr. apply In_nth_error in Hr as (j & Hj).
  assert (Hlt : j < n).
  { rewrite <- (repeat_length nan n), <- Hlen. apply nth_error_Some. congruence. }
  rewrite (Hnth j nan) in Hj by (apply nth_error_repeat, Hlt).
  injection Hj as <-. apply Fl.sub_nan_l. reflexivity.
Qed.

(** Whatever the reference row, a row of missing values has the
    missing marker as RMS error when [rms_file] returns. *)
Lemma rms_file_nan_row (lowest_conf_indices : list nat) (i : nat)
  (mol_array : list (list float)) (filelist : list float) (r : float) :
  Forall (fun x => is_nan x = true) filelist ->
  rms_file lowest_conf_indices i mol_array filelist = Ok r -> r = nan.
Proof.
  intros Hnan H. unfold rms_file in H.
  apply PyFacts.bind_ok in H as (ref_row & _ & H).
  apply PyFacts.bind_ok in H as (errs & He & H).
  apply PyFacts.bind_ok in H as (z & _ & H).
  apply PyFacts.bind_ok in H as (sqrs & Hs & H). injection H as <-.
  assert (Herrs : Forall (fun x => is_nan x = true) errs).
  { rewrite Forall_forall in Hnan. unfold Np.sub in He.
    destruct (length filelist =? length ref_row).
    - injection He as <-. rewrite Forall_map, Forall_forall. intros [a b] Hin. simpl.
      apply Fl.sub_nan_l, Hnan. eapply in_combine_l, Hin.
    - destruct filelist as [|x [|y l]].
      + destruct ref_row as [|y [|y' l']]; try discriminate.
        injection He as <-. constructor.
      + injection He as <-. rewrite Forall_map, Forall_forall. intros b _.
        apply Fl.sub_nan_l, Hnan. left. reflexivity.
      + destruct ref_row as [|y0 [|y' l']]; try discriminate.
        injection He as <-.
        change (Forall (fun x0 => is_nan x0 = true)
                       (map (fun x0 => (x0 - y0)%float) (x :: y :: l))).
        rewrite Forall_map, Forall_forall. intros a Ha.
        apply Fl.sub_nan_l, Hnan, Ha. }
  unfold Np.delete in Hs. destruct (z <? length (Np.square errs)); [|discriminate].
  injection Hs as <-.
  rewrite RmsMore.drop_nan_all_missing; [reflexivity|].
  apply (@RmsMore.Forall_others_than (fun x => is_nan x = true) (Np.square errs) z).
  unfold Np.square. rewrite Forall_map. eapply Forall_impl; [|exact Herrs].
  intros x Hx. simpl. rewrite Fl.mul_self_is_nan. exact Hx.
Qed.

Lemma nth_error_combine2 {A B} (l : list A) (l' : list B) : forall (j : nat) (a : A) (b : B),
  nth_error l j = Some a -> nth_error l' j = Some b ->
  nth_error (combine l l') j = Some (a, b).
Proof.
  revert l'. induction l as [|x l IH]; intros [|y l'] [|j] a b Ha Hb; simpl in *;
    try discriminate.
  - injection Ha as <-. injection Hb as <-. reflexivity.
  - apply IH; assumption.
Qed.

End AbsentFacts.

Section AbsentMolecule.

Variable Geom : Type.
Variable OERMSD : Geom -> Geom -> bool -> bool -> bool -> float.
Variable read_mols : string -> list (Mol Geom).
Variable py_float : string -> result float.

(** X29. Reference titles all different: when [match_minima] and the
    analysis return, a reference molecule that no molecule of a
    method's file is titled like has, for that method, relative
    energies that are all missing and the missing marker [nan] as RMS
    error, at the position of the molecule in the reference file and
    of the method in the input. *)
Theorem analysis_absent_molecule (in_dict : list (string * Method)) (rmsd_cutoff : float)
  (d : mol_dict) (rel_energies : list (list (list float)))
  (lowest_conf_indices : list nat) (rms_array : list (list float))
  (ref ff : string * Method) (i j : nat) (rmol : Mol Geom) :
  match_minima OERMSD read_mols py_float in_dict rmsd_cutoff = Ok d ->
  analysis d = Ok (rel_energies, lowest_conf_indices, rms_array) ->
  nth_error in_dict 0 = Some ref ->
  NoDup (map (@title Geom) (read_mols (sdfile (snd ref)))) ->
  nth_error in_dict i = Some ff ->
  nth_error (read_mols (sdfile (snd ref))) j = Some rmol ->
  (forall qmol, In qmol (read_mols (sdfile (snd ff))) -> title qmol <> title rmol) ->
  exists mol_array relFile mol_rmses,
    nth_error rel_energies j = Some mol_array /\
    nth_error mol_array i = Some relFile /\
    length relFile = length (confs rmol) /\
    Forall (fun x => is_nan x = true) relFile /\
    nth_error rms_array j = Some mol_rmses /\
    nth_error mol_rmses i = Some nan.
Proof.
  intros Hd Ha Href Hnd Hi Hj Habs.
  (* the entry of the molecule, at position [j] of the dictionary *)
  destruct (@match_minima_row _ OERMSD read_mols py_float _ _ _ _ _ _ _ _
              Hd Href Hnd Hi Hj)
    as (e & rows & row & He & Huniq & Hrows & Hr & Hen & Hix).
  rewrite (@rows_of_method_absent _ OERMSD read_mols py_float _ _ _ _ _ _ _ _ _ _
             Hrows (incl_refl _) Hj Hr Habs) in Hix.
  simpl in Hix. clear Hen Hrows Hr rows row.
  assert (Hkv : nth_error d j = Some (title rmol, e)).
  { destruct (@match_minima_keys_fold _ OERMSD read_mols py_float _ _ _ Hd)
      as (ref' & Href' & E).
    rewrite Href in Href'. injection Href' as <-.
    rewrite (DictMore.key_fold_fresh _ []) in E by exact Hnd. simpl in E.
    pose proof (map_nth_error (@title Geom) _ _ Hj) as Ht. rewrite <- E in Ht.
    rewrite nth_error_map in Ht.
    destruct (nth_error d j) as [[k e']|] eqn:Ed; [|discriminate].
    simpl in Ht. injection Ht as ->.
    rewrite (Huniq e' (nth_error_In _ _ Ed)). reflexivity. }
  (* the resolver *)
  unfold analysis in Ha.
  apply PyFacts.bind_ok in Ha as (d' & Hd' & Ha).
  apply PyFacts.bind_ok in Ha as (matched_enes & Hm & Ha).
  apply PyFacts.bind_ok in Ha as ([rel zs] & Hrel & Ha).
  apply PyFacts.bind_ok in Ha as (rms & Hrms & Ha).
  simpl in Hrms, Ha. injection Ha as <- <- <-.
  unfold extract_matches in Hd'.
  destruct (@PyFacts.mapM_nth _ _ _ _ _ _ _ Hd' Hkv) as (kv' & Hkv' & Hex).
  simpl in Hex. apply PyFacts.bind_ok in Hex as (e' & He' & Hex). injection Hex as <-.
  unfold extract_mol in He'.
  apply PyFacts.bind_ok in He' as (updated & Hu & He'). injection He' as <-.
  destruct (@PyFacts.mapM_nth _ _ _ _ _ _ _ Hu (@PyFacts.nth_error_enumerate _ _ _ _ Hix))
    as (fileData & Hfd & Hef).
  simpl in Hef. rewrite AbsentFacts.extract_file_absent_row in Hef. injection Hef as <-.
  destruct (@PyFacts.mapM_nth _ _ _ _ _ _ _ Hm Hkv') as (m & Hmj & Hem).
  simpl in Hem. injection Hem as <-.
  (* the relative energies *)
  unfold calc_rel_ene in Hrel.
  apply PyFacts.bind_ok in Hrel as (zs0 & Hzs & Hrel).
  apply PyFacts.bind_ok in Hrel as (rel0 & Hrel0 & Hrel). injection Hrel as <- <-.
  destruct (@PyFacts.mapM_nth _ _ _ _ _ _ _ Hzs Hmj) as (z & Hz & _).
  destruct (@PyFacts.mapM_nth _ _ _ _ _ _ _ Hrel0
              (@AbsentFacts.nth_error_combine2 _ _ _ _ _ _ _ Hz Hmj)) as (mol_array & Hma & Hrm).
  simpl in Hrm.
  destruct (@PyFacts.mapM_nth _ _ _ _ _ _ _ Hrm Hfd) as (relFile & Hrf & Hrelf).
  pose proof (@AbsentFacts.rel_file_nan_row _ _ _ Hrelf) as Hnan.
  destruct (@RelShape.rel_file_nth _ _ _ Hrelf) as (Hlen & _).
  rewrite repeat_length in Hlen.
  (* the RMS errors *)
  unfold calc_rms_error in Hrms.
  destruct (@PyFacts.mapM_nth _ _ _ _ _ _ _ Hrms (@PyFacts.nth_error_enumerate _ _ _ _ Hma))
    as (mol_rmses & Hmr & Hrmsm).
  simpl in Hrmsm.
  destruct (@PyFacts.mapM_nth _ _ _ _ _ _ _ Hrmsm Hrf) as (r & Hrr & Hrfile).
  rewrite (@AbsentFacts.rms_file_nan_row _ _ _ _ _ Hnan Hrfile) in Hrr.
  exists mol_array, relFile, mol_rmses. auto 10.
Qed.

End AbsentMolecule.


(** * The further properties on concrete inputs *)

Module MoreChecks.

Import Run.

(** Files of a second run: the method's file lacks molecule B. *)
Definition files_without_B (infile : string) : list (Mol nat) :=
  if String.eqb infile "ref.sdf" then [molA; molB]
  else if String.eqb infile "only_A.sdf" then [molA']
  else [].

Definition methods : list (string * Method) :=
  [("ref", method "ref.sdf"); ("ff", method "same_order.sdf")]%string.

Definition methods_without_B : list (string * Method) :=
  [("ref", method "ref.sdf"); ("ff", method "only_A.sdf")]%string.

Lemma titles_differ : NoDup (map (@title nat) [molA; molB]).
Proof.
  constructor; [intros [H|[]]; discriminate|].
  constructor; [intros []|constructor].
Defined.

Lemma titles_differ' : NoDup (map (@title nat) [molA'; molB']).
Proof.
  constructor; [intros [H|[]]; discriminate|].
  constructor; [intros []|constructor].
Defined.

(** X2: the three conformers of [molA]. *)
Lemma get_sd_list_one_value_per_conformer_witness :
  Forall (fun conf => existsb (tag_matches "energy") (sd_pairs conf) = true) (confs molA) /\
  exists first_pair : Conf nat -> string * string,
    get_sd_list molA "energy" = map (fun conf => snd (first_pair conf)) (confs molA) /\
    forall conf, In conf (confs molA) ->
      exists before after,
        sd_pairs conf = before ++ first_pair conf :: after /\
        tag_matches "energy" (first_pair conf) = true /\
        Forall (fun x => tag_matches "energy" x = false) before.
Proof.
  assert (H : Forall (fun conf => existsb (tag_matches "energy") (sd_pairs conf) = true)
                     (confs molA)) by (repeat constructor).
  split; [exact H|]. exact (@get_sd_list_one_value_per_conformer nat molA "energy" H).
Defined.

(** X3: the reference row of the example. *)
Lemma extract_file_self_reference_witness :
  nth_error Checks.ex_energies 0 = Some [0; 1; 2]%float /\ 3 <= length [0; 1; 2]%float /\
  extract_file Checks.ex_energies 0 (repeat (Some (-1)%Z) 3) = Ok [0; 1; 2]%float.
Proof.
  split; [reflexivity|]. split; [apply le_n|].
  exact (@extract_file_self_reference Checks.ex_energies 0 [0; 1; 2]%float 3
           eq_refl (le_n 3)).
Defined.

(** X4: a row without any match, no energy array at all. *)
Lemma extract_file_unmatched_witness :
  Forall (fun c => c = None \/ c = Some (-2)%Z) [None; Some (-2)%Z; None] /\
  extract_file [] 5 [None; Some (-2)%Z; None] = Ok [nan; nan; nan].
Proof.
  assert (H : Forall (fun c => c = None \/ c = Some (-2)%Z) [None; Some (-2)%Z; None]).
  { constructor; [left; reflexivity|].
    constructor; [right; reflexivity|].
    constructor; [left; reflexivity|constructor]. }
  split; [exact H|]. exact (@extract_file_unmatched [] 5 _ H).
Defined.

(** X5: a conformer index 5 on a method with two energies. *)
Definition entry_out_of_range : MolEntry :=
  {| energies := [[1; 2]]%float; indices := [[Some 5%Z]];
     ref_nconfs := []; energies_matched := None |}.

Lemma extract_matches_raises_out_of_range_witness :
  In ("A"%string, entry_out_of_range) [("A"%string, entry_out_of_range)] /\
  nth_error (indices entry_out_of_range) 0 = Some (map encode [Matched 5]) /\
  nth_error (energies entry_out_of_range) 0 = Some [1; 2]%float /\
  [1; 2]%float <> [] /\
  nth_error [Matched 5] 0 = Some (Matched 5) /\
  ~ in_range [1; 2]%float 0 (Matched 5) /\
  extract_matches [("A"%string, entry_out_of_range)] = Raise IndexError.
Proof.
  assert (H1 : In ("A"%string, entry_out_of_range) [("A"%string, entry_out_of_range)])
    by (left; reflexivity).
  assert (H2 : [1; 2]%float <> []) by discriminate.
  assert (H3 : ~ in_range [1; 2]%float 0 (Matched 5)) by (simpl; lia).
  repeat (split; [first [exact H1|exact H2|exact H3|reflexivity]|]).
  exact (@extract_matches_raises_out_of_range _ "A" entry_out_of_range 0 [1; 2]%float
           [Matched 5] 0 (Matched 5) H1 eq_refl eq_refl H2 eq_refl H3).
Defined.

(** X6: the dictionary of the run on files in the same order. *)
Lemma extract_matches_shape_witness :
  exists d d',
    run "same_order.sdf" = Ok d /\ extract_matches d = Ok d' /\
    Forall2 (fun kv kv' : string * MolEntry =>
               fst kv' = fst kv /\
               energies (snd kv') = energies (snd kv) /\
               indices (snd kv') = indices (snd kv) /\
               ref_nconfs (snd kv') = ref_nconfs (snd kv) /\
               exists updated,
                 energies_matched (snd kv') = Some updated /\
                 Forall2 (fun file_indices fileData =>
                            length fileData = length file_indices)
                         (indices (snd kv)) updated)
            d d'.
Proof.
  eexists. eexists. split; [vm_compute; reflexivity|].
  split; [vm_compute; reflexivity|].
  apply extract_matches_shape. vm_compute. reflexivity.
Defined.

(** X7: the conformers of [molA] against those of [molA'], with a
    cutoff below every distance and with the cutoff of the run. *)
Lemma compare_two_mols_cutoff_monotone_witness :
  ((-1)%float <=? 0.5)%float = true /\
  compare_two_mols toy_rmsd molA molA' (-1)%float = Ok [None; None; None] /\
  compare_two_mols toy_rmsd molA molA' 0.5%float = Ok [Some 2%Z; Some 0%Z; Some 1%Z] /\
  forall i k,
    (nth_error [None; None; None] i = Some (Some k) ->
     nth_error [Some 2%Z; Some 0%Z; Some 1%Z] i = Some (Some k)) /\
    (nth_error [Some 2%Z; Some 0%Z; Some 1%Z] i = Some (Some k) ->
     nth_error [None; None; None] i = Some (Some k) \/
     nth_error [None; None; None] i = Some (@None Z)).
Proof.
  split; [reflexivity|]. split; [reflexivity|]. split; [reflexivity|].
  exact (@compare_two_mols_cutoff_monotone nat toy_rmsd molA molA' (-1)%float 0.5%float
           [None; None; None] [Some 2%Z; Some 0%Z; Some 1%Z] eq_refl eq_refl eq_refl).
Defined.

(** X8: the matched energies of the example. *)
Lemma calc_rel_ene_shape_witness :
  calc_rel_ene [Checks.ex_matched] = Ok ([Checks.ex_relative], [0]) /\
  length [0] = length [Checks.ex_matched] /\
  Forall2 (fun molE relE =>
             Forall2 (fun fileE relFile => length relFile = length fileE) molE relE)
          [Checks.ex_matched] [Checks.ex_relative] /\
  forall i molE z fileE,
    nth_error [Checks.ex_matched] i = Some molE -> nth_error [0] i = Some z ->
    In fileE molE -> fileE <> [] -> z < length fileE.
Proof.
  assert (H : calc_rel_ene [Checks.ex_matched] = Ok ([Checks.ex_relative], [0]))
    by (vm_compute; reflexivity).
  split; [exact H|]. exact (@calc_rel_ene_shape _ _ _ H).
Defined.

(** X9: a second method with no energy at the reference position. *)
Lemma calc_rel_ene_missing_witness :
  calc_rel_ene [[[1; 2]; [nan; nan]]]%float = Ok ([[[0; 1]; [nan; nan]]]%float, [0]) /\
  is_nan (nth 0 [nan; nan]%float 0%float) = true /\
  Forall (fun r => is_nan r = true) [nan; nan]%float.
Proof.
  assert (H : calc_rel_ene [[[1; 2]; [nan; nan]]]%float
              = Ok ([[[0; 1]; [nan; nan]]]%float, [0])) by (vm_compute; reflexivity).
  split; [exact H|]. split; [reflexivity|].
  exact (proj2 (@calc_rel_ene_missing _ _ _ H 0 [[1; 2]; [nan; nan]]%float
                  [[0; 1]; [nan; nan]]%float 0 1 [nan; nan]%float [nan; nan]%float
                  eq_refl eq_refl eq_refl eq_refl eq_refl) eq_refl).
Defined.

(** X10: the molecule of the example, then a molecule without rows. *)
Lemma calc_rel_ene_raises_on_empty_molecule_witness :
  Forall (fun m => exists z, lowest_conf m = Ok z) [Checks.ex_matched] /\
  calc_rel_ene ([Checks.ex_matched] ++ [] :: []) = Raise IndexError.
Proof.
  assert (H : Forall (fun m => exists z, lowest_conf m = Ok z) [Checks.ex_matched]).
  { constructor; [exists 0; vm_compute; reflexivity|constructor]. }
  split; [exact H|].
  exact (@calc_rel_ene_raises_on_empty_molecule [Checks.ex_matched] [] [] H
           (or_introl eq_refl)).
Defined.

(** X11: the relative energies of a method that lacks the molecule. *)
Lemma rms_file_all_missing_witness :
  nth_error [[0; 1]; [nan; nan]]%float 0 = Some [0; 1]%float /\
  nth_error [0] 0 = Some 0 /\
  length [nan; nan]%float = length [0; 1]%float /\ 0 < length [0; 1]%float /\
  Forall (fun x => is_nan x = true) [nan; nan]%float /\
  rms_file [0] 0 [[0; 1]; [nan; nan]]%float [nan; nan]%float = Ok nan.
Proof.
  assert (H : Forall (fun x => is_nan x = true) [nan; nan]%float)
    by (repeat constructor).
  split; [reflexivity|]. split; [reflexivity|]. split; [reflexivity|].
  split; [apply Nat.lt_0_succ|]. split; [exact H|].
  exact (@rms_file_all_missing [0] 0 [[0; 1]; [nan; nan]]%float [nan; nan]%float
           [0; 1]%float 0 eq_refl eq_refl eq_refl (Nat.lt_0_succ 1) H).
Defined.

(** X12: the relative energies of the example. *)
Lemma calc_rms_error_shape_sign_witness :
  exists rms_array,
    calc_rms_error [Checks.ex_relative] [0] = Ok rms_array /\
    Forall2 (fun mol_array mol_rmses =>
               length mol_rmses = length mol_array /\
               Forall (fun rmse => is_nan rmse = true \/ (0 <=? rmse)%float = true)
                      mol_rmses)
            [Checks.ex_relative] rms_array.
Proof.
  eexists. split; [vm_compute; reflexivity|].
  apply calc_rms_error_shape_sign with (lowest_conf_indices := [0]).
  vm_compute. reflexivity.
Defined.

(** X13: the run on files in the same order. *)
Lemma match_minima_keys_witness :
  exists d,
    run "same_order.sdf" = Ok d /\
    NoDup (map fst d) /\
    (forall mol_name,
       In mol_name (map fst d) <->
       exists rmol, In rmol [molA; molB] /\ title rmol = mol_name) /\
    (NoDup (map (@title nat) [molA; molB]) -> map fst d = ["A"; "B"]%string).
Proof.
  eexists. split; [vm_compute; reflexivity|].
  destruct (@match_minima_keys nat toy_rmsd toy_files toy_float methods 0.5%float
              _ eq_refl) as (ref & Href & H).
  injection Href as <-. exact H.
Defined.

(** X14: the run on files in the same order; each title is once in the
    reference file. *)
Lemma match_minima_row_counts_witness :
  exists d,
    run "same_order.sdf" = Ok d /\
    forall mol_name e, In (mol_name, e) d ->
      length (energies e) = length (indices e) /\
      length (indices e)
      = 2 * count_occ string_dec (map (@title nat) [molA; molB]) mol_name.
Proof.
  eexists. split; [vm_compute; reflexivity|].
  destruct (@match_minima_row_counts nat toy_rmsd toy_files toy_float methods 0.5%float
              _ eq_refl) as (ref & Href & H).
  injection Href as <-. exact H.
Defined.

Definition run_without_B : result mol_dict :=
  match_minima toy_rmsd files_without_B toy_float methods_without_B 0.5%float.

Definition entry_B_without_B : MolEntry :=
  {| energies := [[0; 1]; [nan; nan]]%float;
     indices := [[Some (-1)%Z; Some (-1)%Z]; [Some (-2)%Z; Some (-2)%Z]];
     ref_nconfs := [2]; energies_matched := None |}.

(** X15: the entry of molecule B when the method's file lacks it. *)
Lemma match_minima_absent_rows_witness :
  exists d,
    run_without_B = Ok d /\ In ("B"%string, entry_B_without_B) d /\
    Forall2 (fun erow irow =>
               In (Some (-2)%Z) irow ->
               irow = repeat (Some (-2)%Z) (length irow) /\
               erow = repeat nan (length irow))
            (energies entry_B_without_B) (indices entry_B_without_B).
Proof.
  eexists. split; [vm_compute; reflexivity|].
  assert (H : In ("B"%string, entry_B_without_B)
                 [("A"%string,
                   {| energies := [[0; 1; 2]; [10; 11; 12]]%float;
                      indices := [[Some (-1)%Z; Some (-1)%Z; Some (-1)%Z];
                                  [Some 2%Z; Some 0%Z; Some 1%Z]];
                      ref_nconfs := []; energies_matched := None |});
                  ("B"%string, entry_B_without_B)]) by (right; left; reflexivity).
  split; [exact H|].
  exact (@match_minima_absent_rows nat toy_rmsd files_without_B toy_float
           methods_without_B 0.5%float _ "B" entry_B_without_B eq_refl H).
Defined.

Lemma molB_absent :
  forall qmol, In qmol (files_without_B "only_A.sdf") -> title qmol <> title molB.
Proof. intros qmol [<-|[]]. discriminate. Defined.

(** X16: molecule B, which the method's file lacks. *)
Lemma match_minima_flags_absent_molecule_witness :
  exists d,
    run_without_B = Ok d /\
    NoDup (map (@title nat) (files_without_B "ref.sdf")) /\
    In molB (files_without_B "ref.sdf") /\
    (forall qmol, In qmol (files_without_B "only_A.sdf") -> title qmol <> title molB) /\
    exists e,
      In ("B"%string, e) d /\
      nth_error (indices e) 1 = Some [Some (-2)%Z; Some (-2)%Z] /\
      nth_error (energies e) 1 = Some [nan; nan].
Proof.
  eexists. split; [vm_compute; reflexivity|].
  assert (Hin : In molB (files_without_B "ref.sdf")) by (right; left; reflexivity).
  split; [exact titles_differ|]. split; [exact Hin|]. split; [exact molB_absent|].
  exact (@match_minima_flags_absent_molecule nat toy_rmsd files_without_B toy_float
           methods_without_B 0.5%float _ ("ref"%string, method "ref.sdf")
           ("ff"%string, method "only_A.sdf") 1 molB
           eq_refl eq_refl titles_differ eq_refl Hin molB_absent).
Defined.

(** X17: molecule A against its namesake of the second method. *)
Lemma match_minima_finds_present_molecule_witness :
  exists d,
    run "same_order.sdf" = Ok d /\
    NoDup (map (@title nat) (toy_files "ref.sdf")) /\
    NoDup (map (@title nat) (toy_files "same_order.sdf")) /\
    same_relative_order (toy_files "ref.sdf") (toy_files "same_order.sdf") /\
    In molA (toy_files "ref.sdf") /\ In molA' (toy_files "same_order.sdf") /\
    title molA' = title molA /\
    exists e erow irow,
      In ("A"%string, e) d /\
      nth_error (energies e) 1 = Some erow /\
      nth_error (indices e) 1 = Some irow /\
      mapM toy_float (get_sd_list molA' "energy") = Ok erow /\
      (("same_order.sdf" = "ref.sdf" /\
        irow = repeat (Some (-1)%Z) (length (confs molA))) \/
       ("same_order.sdf" <> "ref.sdf" /\
        compare_two_mols toy_rmsd molA molA' 0.5%float = Ok irow))%string.
Proof.
  eexists. split; [vm_compute; reflexivity|].
  assert (Ho : same_relative_order (toy_files "ref.sdf") (toy_files "same_order.sdf"))
    by reflexivity.
  assert (Hr : In molA (toy_files "ref.sdf")) by (left; reflexivity).
  assert (Hq : In molA' (toy_files "same_order.sdf")) by (left; reflexivity).
  split; [exact titles_differ|]. split; [exact titles_differ'|]. split; [exact Ho|].
  split; [exact Hr|]. split; [exact Hq|]. split; [reflexivity|].
  exact (@match_minima_finds_present_molecule nat toy_rmsd toy_files toy_float methods
           0.5%float _ ("ref"%string, method "ref.sdf")
           ("ff"%string, method "same_order.sdf") 1 molA molA'
           eq_refl eq_refl titles_differ eq_refl titles_differ' Ho Hr Hq eq_refl).
Defined.

(** X18: the rows of the reference method for molecule B. *)
Lemma match_minima_reference_rows_witness :
  exists d,
    run "same_order.sdf" = Ok d /\
    NoDup (map (@title nat) (toy_files "ref.sdf")) /\ In molB (toy_files "ref.sdf") /\
    exists e erow,
      In ("B"%string, e) d /\
      nth_error (indices e) 0 = Some [Some (-1)%Z; Some (-1)%Z] /\
      nth_error (energies e) 0 = Some erow /\
      mapM toy_float (get_sd_list molB "energy") = Ok erow.
Proof.
  eexists. split; [vm_compute; reflexivity|].
  assert (Hr : In molB (toy_files "ref.sdf")) by (right; left; reflexivity).
  split; [exact titles_differ|]. split; [exact Hr|].
  exact (@match_minima_reference_rows nat toy_rmsd toy_files toy_float methods
           0.5%float _ ("ref"%string, method "ref.sdf") molB
           eq_refl eq_refl titles_differ Hr).
Defined.

(** C9: the two methods on files that list the molecules in one order. *)
Lemma match_minima_index_rows_witness :
  exists d,
    run "same_order.sdf" = Ok d /\
    (forall rmol, In rmol (toy_files "ref.sdf") -> exists e, In (title rmol, e) d) /\
    (forall mol_name e, In (mol_name, e) d ->
       exists rowss : list (list (list (option Z))),
         indices e = concat rowss /\
         Forall2 (fun (_ : string * Method) rows =>
                    Forall2 (@index_row nat) (titled mol_name (toy_files "ref.sdf")) rows)
                 methods rowss) /\
    (NoDup (map (@title nat) (toy_files "ref.sdf")) ->
     forall i ff rmol e,
       nth_error methods i = Some ff ->
       In rmol (toy_files "ref.sdf") -> In (title rmol, e) d ->
       exists row, nth_error (indices e) i = Some row /\ index_row rmol row).
Proof.
  eexists. split; [vm_compute; reflexivity|].
  destruct (@match_minima_index_rows nat toy_rmsd toy_files toy_float methods 0.5%float
              _ eq_refl) as (ref & Href & H).
  injection Href as <-. exact H.
Defined.

(** A file of ten molecules, told apart by their titles. *)
Definition numbered (t : string) : Mol nat := {| title := t; confs := [] |}.

Definition ten_mols : list (Mol nat) :=
  map numbered ["m0"; "m1"; "m2"; "m3"; "m4"; "m5"; "m6"; "m7"; "m8"; "m9"]%string.

Definition ten_open (infile : string) : option (list (Mol nat)) :=
  if String.eqb infile "ten.sdf" then Some ten_mols else None.

(** X19: the slice [[0, 4, 2]] of ten molecules keeps four of them, at
    the positions 0, 2, 4 and 6. *)
Lemma read_mols_slice_positions_witness :
  ten_open "ten.sdf" = Some ten_mols /\ (0 < 4)%Z /\ (0 < 2)%Z /\
  Reader.read_mols ten_open "ten.sdf" (Some [0; 4; 2]%Z)
  = inr (map numbered ["m0"; "m2"; "m4"; "m6"]%string) /\
  exists mlist,
    Reader.read_mols ten_open "ten.sdf" (Some [0; 4; 2]%Z) = inr mlist /\
    forall k,
      nth_error mlist k
      = if (Reader.slice_count 0 2 k <? 4)%Z
        then nth_error ten_mols (Reader.slice_position 0 2 k)
        else None.
Proof.
  split; [reflexivity|]. split; [reflexivity|]. split; [reflexivity|].
  split; [reflexivity|].
  exact (@read_mols_slice_positions nat ten_open "ten.sdf" ten_mols 0 4 2
           eq_refl eq_refl eq_refl).
Defined.

(** X20: the slice [[1, 3, 1]] of ten molecules. *)
Lemma read_mols_slice_step_one_witness :
  ten_open "ten.sdf" = Some ten_mols /\ (0 <= 1 < 3)%Z /\
  Reader.read_mols ten_open "ten.sdf" (Some [1; 3; 1]%Z)
  = inr (map numbered ["m1"; "m2"]%string).
Proof.
  assert (H : (0 <= 1 < 3)%Z) by (split; [discriminate|reflexivity]).
  split; [reflexivity|]. split; [exact H|].
  exact (@read_mols_slice_step_one nat ten_open "ten.sdf" ten_mols 1 3 eq_refl H).
Defined.

(** An input file with a comment, a blank line and two methods, and the
    same without the comment and the blank line. *)
Definition line (s : string) : string := (s ++ InputFile.newline)%string.

Definition input_lines (infile : string) : list string :=
  if String.eqb infile "commented.in"
  then [line "# method, file, tag"; line "ref, ref.sdf, energy"; line "  ";
        line "ff , same_order.sdf , energy"]
  else if String.eqb infile "plain.in"
  then [line "ref, ref.sdf, energy"; line "ff , same_order.sdf , energy"]
  else if String.eqb infile "twice.in"
  then [line "# the label ref is on two lines"; line "ref, old.sdf, energy";
        line "ref, ref.sdf, energy"; line "ff, same_order.sdf, energy"]
  else map InputFile.render methods.

Definition all_files (_ : string) : bool := true.

(** X22: the input file with a comment and a blank line. *)
Lemma read_check_input_entries_witness :
  InputFile.read_check_input input_lines all_files "commented.in" = Ok methods /\
  NoDup (map fst methods) /\
  Forall (fun ff =>
            all_files (sdfile (snd ff)) = true /\
            exists line more,
              In line (input_lines "commented.in") /\ InputFile.ignored line = false /\
              InputFile.fields line
              = fst ff :: sdfile (snd ff) :: sdtag (snd ff) :: more)
         methods.
Proof.
  assert (H : InputFile.read_check_input input_lines all_files "commented.in" = Ok methods)
    by (vm_compute; reflexivity).
  split; [exact H|].
  exact (@read_check_input_entries input_lines all_files "commented.in" methods H).
Defined.

(** X23: the two input files are read alike. *)
Lemma read_check_input_ignores_comments_witness :
  filter (fun line => negb (InputFile.ignored line)) (input_lines "commented.in")
  = filter (fun line => negb (InputFile.ignored line)) (input_lines "plain.in") /\
  InputFile.read_check_input input_lines all_files "commented.in"
  = InputFile.read_check_input input_lines all_files "plain.in".
Proof.
  assert (H : filter (fun line => negb (InputFile.ignored line))
                     (input_lines "commented.in")
              = filter (fun line => negb (InputFile.ignored line))
                       (input_lines "plain.in")) by (vm_compute; reflexivity).
  split; [exact H|].
  exact (@read_check_input_ignores_comments input_lines all_files
           "commented.in" "plain.in" H).
Defined.

Lemma methods_clean :
  Forall (fun ff =>
            InputFile.clean (fst ff) /\ InputFile.startswith_hash (fst ff) = false /\
            InputFile.clean (sdfile (snd ff)) /\ InputFile.clean (sdtag (snd ff)) /\
            all_files (sdfile (snd ff)) = true)
         methods.
Proof.
  repeat constructor.
Defined.

Lemma labels_differ : NoDup (map fst methods).
Proof.
  constructor; [intros [H|[]]; discriminate|].
  constructor; [intros []|constructor].
Defined.

(** X25: the two methods of the runs, written and read back. *)
Lemma read_check_input_round_trip_witness :
  input_lines "rendered.in" = map InputFile.render methods /\
  NoDup (map fst methods) /\
  InputFile.read_check_input input_lines all_files "rendered.in" = Ok methods.
Proof.
  split; [reflexivity|]. split; [exact labels_differ|].
  exact (@read_check_input_round_trip input_lines all_files "rendered.in" methods
           eq_refl labels_differ methods_clean).
Defined.

Lemma other_label :
  forall line', In line' [line "ff, same_order.sdf, energy"] ->
    InputFile.ignored line' = true \/
    nth_error (InputFile.fields line') 0 <> Some "ref"%string.
Proof. intros line' [<-|[]]. right. vm_compute. discriminate. Defined.

(** X26: the label [ref] on two lines: the second line's file is kept. *)
Lemma read_check_input_last_line_wins_witness :
  InputFile.read_check_input input_lines all_files "twice.in" = Ok methods /\
  input_lines "twice.in"
  = [line "# the label ref is on two lines"; line "ref, old.sdf, energy"]
    ++ line "ref, ref.sdf, energy" :: [line "ff, same_order.sdf, energy"] /\
  InputFile.ignored (line "ref, ref.sdf, energy") = false /\
  InputFile.fields (line "ref, ref.sdf, energy") = ["ref"; "ref.sdf"; "energy"]%string /\
  In ("ref"%string, {| sdfile := "ref.sdf"; sdtag := "energy" |}) methods.
Proof.
  assert (H : InputFile.read_check_input input_lines all_files "twice.in" = Ok methods)
    by (vm_compute; reflexivity).
  split; [exact H|]. split; [reflexivity|]. split; [reflexivity|]. split; [reflexivity|].
  exact (@read_check_input_last_line_wins input_lines all_files "twice.in" methods
           [line "# the label ref is on two lines"; line "ref, old.sdf, energy"]
           [line "ff, same_order.sdf, energy"] (line "ref, ref.sdf, energy")
           "ref" "ref.sdf" "energy" [] H eq_refl eq_refl eq_refl other_label).
Defined.

(** X27: the first line that counts, after a comment, has the label
    [ref]. *)
Lemma read_check_input_reference_label_witness :
  InputFile.read_check_input input_lines all_files "twice.in" = Ok methods /\
  Forall (fun line' => InputFile.ignored line' = true)
         [line "# the label ref is on two lines"] /\
  InputFile.ignored (line "ref, old.sdf, energy") = false /\
  nth_error (InputFile.fields (line "ref, old.sdf, energy")) 0 = Some "ref"%string /\
  exists ref rest, methods = ("ref"%string, ref) :: rest.
Proof.
  assert (H : InputFile.read_check_input input_lines all_files "twice.in" = Ok methods)
    by (vm_compute; reflexivity).
  assert (Hb : Forall (fun line' => InputFile.ignored line' = true)
                      [line "# the label ref is on two lines"]) by (repeat constructor).
  split; [exact H|]. split; [exact Hb|]. split; [reflexivity|]. split; [reflexivity|].
  exact (@read_check_input_reference_label input_lines all_files "twice.in" methods
           [line "# the label ref is on two lines"]
           [line "ref, ref.sdf, energy"; line "ff, same_order.sdf, energy"]
           (line "ref, old.sdf, energy") "ref" H eq_refl Hb eq_refl eq_refl).
Defined.

Lemma methods_readable : Forall (readable toy_files toy_float) methods.
Proof.
  assert (V : forall l : list string,
             Forall (fun v => exists x, toy_float v = Ok x) l ->
             forall v, In v l -> exists x, toy_float v = Ok x).
  { intros l H. apply Forall_forall. exact H. }
  constructor; [|constructor; [|constructor]];
    intros qmol [<-|[<-|[]]]; (split; [discriminate|]); apply V;
    repeat (constructor; [eexists; vm_compute; reflexivity|]); constructor.
Defined.

Lemma methods_tagged : Forall (tagged toy_files) methods.
Proof.
  constructor; [|constructor; [|constructor]];
    intros qmol [<-|[<-|[]]]; repeat constructor.
Defined.

(** X28: the run on files in the same order, to the RMS errors. *)
Lemma analysis_returns_witness :
  oracle_numeric toy_rmsd /\ Forall (readable toy_files toy_float) methods /\
  Forall (tagged toy_files) methods /\
  NoDup (map (@title nat) (toy_files "ref.sdf")) /\
  exists d rel_energies lowest_conf_indices rms_array,
    match_minima toy_rmsd toy_files toy_float methods 0.5%float = Ok d /\
    analysis d = Ok (rel_energies, lowest_conf_indices, rms_array) /\
    length rms_array = length (toy_files "ref.sdf") /\
    Forall (fun mol_rmses => length mol_rmses = length methods) rms_array.
Proof.
  split; [exact toy_rmsd_numeric|]. split; [exact methods_readable|].
  split; [exact methods_tagged|]. split; [exact titles_differ|].
  exact (@analysis_returns nat toy_rmsd toy_files toy_float methods 0.5%float
           ("ref"%string, method "ref.sdf") eq_refl toy_rmsd_numeric methods_readable
           methods_tagged titles_differ).
Defined.

(** X29: molecule B, which the method's file lacks, to its RMS error. *)
Lemma analysis_absent_molecule_witness :
  exists d rel_energies lowest_conf_indices rms_array,
    run_without_B = Ok d /\
    analysis d = Ok (rel_energies, lowest_conf_indices, rms_array) /\
    nth_error (files_without_B "ref.sdf") 1 = Some molB /\
    exists mol_array relFile mol_rmses,
      nth_error rel_energies 1 = Some mol_array /\
      nth_error mol_array 1 = Some relFile /\
      length relFile = length (confs molB) /\
      Forall (fun x => is_nan x = true) relFile /\
      nth_error rms_array 1 = Some mol_rmses /\
      nth_error mol_rmses 1 = Some nan.
Proof.
  eexists. eexists. eexists. eexists.
  split; [vm_compute; reflexivity|]. split; [vm_compute; reflexivity|].
  split; [reflexivity|].
  exact (@analysis_absent_molecule nat toy_rmsd files_without_B toy_float
           methods_without_B 0.5%float _ _ _ _ ("ref"%string, method "ref.sdf")
           ("ff"%string, method "only_A.sdf") 1 1 molB
           eq_refl eq_refl eq_refl titles_differ eq_refl eq_refl molB_absent).
Defined.

End MoreChecks.
